(** * python-po: the post lifecycle orchestrator

    A shallow embedding of the item store ([db.py]), the channel adapters
    ([platforms/]), the dispatch engine ([poster.py]) and the approval
    orchestrator ([approval/telegram_bot.py]), and the properties of the
    specification checked against them.

    Conventions of the embedding.
    - A Python [str] is a [string]; one element of the string stands for one
      Python character, [String.length] for [len].
    - A parameter or column that may be [None]/[NULL] is an [option].
    - Stateful code runs in the monad [M] over the record [State]; an
      exception is the outcome [Raise] carrying [str(e)].
    - Everything outside the repository (the network, the clock, Python's
      [int]) is read from the record [World]. *)

From Stdlib Require Import ZArith String Ascii Lia.
From stdpp Require Import gmap strings list sorting.

Local Open Scope Z_scope.

(** ** Python values *)

Module Py.

(** [bool(s)] of a [str]: true when not empty. *)
Definition truthy (s : string) : bool :=
  match s with EmptyString => false | String _ _ => true end.

(** [bool(x)] of an optional [str]: [None] and the empty string are false. *)
Definition truthy_opt (o : option string) : bool :=
  match o with None => false | Some s => truthy s end.

(** [len(s)] as a Python [int]. *)
Definition len (s : string) : Z := Z.of_nat (String.length s).

(** The slice [s[:n]]: the first [n] characters, or all but the last [-n]
    when [n] is negative; never an error. *)
Definition slice_to (s : string) (n : Z) : string :=
  if 0 <=? n then substring 0 (Z.to_nat n) s
  else substring 0 (Z.to_nat (len s + n)) s.

(** [s.split(sep)] for a one-character separator: never empty. *)
Fixpoint split (sep : ascii) (s : string) : list string :=
  match s with
  | EmptyString => [EmptyString]
  | String c rest =>
      if Ascii.eqb c sep then EmptyString :: split sep rest
      else match split sep rest with
           | [] => [String c EmptyString]
           | w :: ws => String c w :: ws
           end
  end.

(** [needle in hay] on strings. *)
Fixpoint contains (needle hay : string) : bool :=
  String.prefix needle hay ||
  match hay with
  | EmptyString => false
  | String _ rest => contains needle rest
  end.

End Py.

(** ** The item store: [db.py] *)

Module Db.

(** A row of the table [posts]. Text columns written by [create_post] from
    [str] arguments with default [""] are strings; the others are
    nullable. *)
Record Post := mkPost {
  post_id : Z;
  topic : string;
  summary : string;
  full_content : string;
  link : string;
  image_url : string;
  video_url : string;
  status : string;
  priority : string;
  approved_by : option string;
  approved_at : option string;
  approval_type : option string;
  rejection_reason : option string;
  source : string;
  tags : list string;
  created_at : string;
  updated_at : string;
  scheduled_for : option string;
  completed_at : option string;
  error_message : option string;
  retry_count : Z
}.

(** A row of the table [platform_posts]. *)
Record PlatformPost := mkPlatformPost {
  pp_post_id : Z;
  pp_platform : string;
  pp_status : string;
  pp_platform_post_id : option string;
  pp_platform_url : option string;
  pp_posted_at : option string;
  pp_error_message : option string;
  pp_retry_count : Z;
  pp_created_at : string;
  pp_updated_at : string
}.

(** The JSON payload of an audit entry, one shape per writer. *)
Inductive Details :=
| DCreated (source : string) (platforms : list string) (priority : string)
| DStatus (approved_by approval_type rejection_reason : option string)
| DPlatform (platform : string) (platform_post_id error : option string).

(** A row of the table [audit_log]. *)
Record AuditEntry := mkAudit {
  audit_post_id : Z;
  action : string;
  details : Details;
  timestamp : string
}.

(** The database: the three tables in row-id order and the AUTOINCREMENT
    counter of [posts]. *)
Record DB := mkDB {
  posts : list Post;
  platform_posts : list PlatformPost;
  audit_log : list AuditEntry;
  last_post_id : Z
}.

Definition init_db : DB := mkDB [] [] [] 0.

(** [SELECT * FROM posts WHERE id = ?], [fetchone]. *)
Definition get_post (id : Z) (d : DB) : option Post :=
  List.find (fun p => post_id p =? id) (posts d).

Definition post_exists (id : Z) (d : DB) : bool :=
  existsb (fun p => post_id p =? id) (posts d).

(** [create_post]: one post row, one [platform_posts] row per enabled
    platform, one audit entry. *)
Definition create_post (enabled_platforms : list string) (now : string)
    (topic summary full_content link image_url video_url priority source : string)
    (tags : option (list string)) (scheduled_for : option string)
    (d : DB) : Z * DB :=
  let id := last_post_id d + 1 in
  let row := mkPost id topic summary full_content link image_url video_url
               "pending" priority None None None None source
               (default [] tags) now now scheduled_for None None 0 in
  let pps := List.map (fun name =>
               mkPlatformPost id name "pending" None None None None 0 now now)
               enabled_platforms in
  (id, mkDB (posts d ++ [row]) (platform_posts d ++ pps)
         (audit_log d ++ [mkAudit id "created"
                            (DCreated source enabled_platforms priority) now])
         id).

(** The SET clause of [update_post_status], applied to one row. *)
Definition set_post_status (now status : string)
    (approved_by approval_type rejection_reason error_message : option string)
    (p : Post) : Post :=
  let stamp := String.eqb status "completed" || String.eqb status "partial_failure" in
  mkPost (post_id p) (topic p) (summary p) (full_content p) (link p)
    (image_url p) (video_url p)
    status
    (priority p)
    (if Py.truthy_opt approved_by then approved_by else Db.approved_by p)
    (if Py.truthy_opt approval_type then Some now else approved_at p)
    (if Py.truthy_opt approval_type then approval_type else Db.approval_type p)
    (if Py.truthy_opt rejection_reason then rejection_reason else Db.rejection_reason p)
    (source p) (tags p) (created_at p)
    now
    (scheduled_for p)
    (if stamp then Some now else completed_at p)
    (if Py.truthy_opt error_message then error_message else Db.error_message p)
    (retry_count p).

(** [update_post_status]. The UPDATE touches the row with this id, if any;
    the audit INSERT then needs the post to exist (foreign keys are ON), and
    when it does not the transaction is rolled back and the call raises:
    [None]. *)
Definition update_post_status (now : string) (id : Z) (status : string)
    (approved_by approval_type rejection_reason error_message : option string)
    (d : DB) : option DB :=
  if post_exists id d then
    Some (mkDB
            (List.map (fun p =>
               if post_id p =? id
               then set_post_status now status approved_by approval_type
                      rejection_reason error_message p
               else p) (posts d))
            (platform_posts d)
            (audit_log d ++ [mkAudit id status
                               (DStatus approved_by approval_type rejection_reason) now])
            (last_post_id d))
  else None.

(** The SET clause of [update_platform_status], applied to one row. *)
Definition set_platform_status (now status : string)
    (platform_post_id platform_url error_message : option string)
    (r : PlatformPost) : PlatformPost :=
  mkPlatformPost (pp_post_id r) (pp_platform r)
    status
    (if Py.truthy_opt platform_post_id then platform_post_id else pp_platform_post_id r)
    (if Py.truthy_opt platform_url then platform_url else pp_platform_url r)
    (if String.eqb status "published" then Some now else pp_posted_at r)
    (if Py.truthy_opt error_message then error_message else pp_error_message r)
    (if Py.truthy_opt error_message then pp_retry_count r + 1 else pp_retry_count r)
    (pp_created_at r)
    now.

(** [update_platform_status]; it raises like [update_post_status] when the
    post does not exist. *)
Definition update_platform_status (now : string) (id : Z) (platform status : string)
    (platform_post_id platform_url error_message : option string)
    (d : DB) : option DB :=
  if post_exists id d then
    Some (mkDB
            (posts d)
            (List.map (fun r =>
               if (pp_post_id r =? id) && String.eqb (pp_platform r) platform
               then set_platform_status now status platform_post_id platform_url
                      error_message r
               else r) (platform_posts d))
            (audit_log d ++ [mkAudit id ("platform_" +:+ status)
                               (DPlatform platform platform_post_id error_message) now])
            (last_post_id d))
  else None.

(** [get_platform_statuses]. *)
Definition get_platform_statuses (id : Z) (d : DB) : list PlatformPost :=
  List.filter (fun r => pp_post_id r =? id) (platform_posts d).

(** The entries of one post in insertion order. *)
Definition audit_of (id : Z) (d : DB) : list AuditEntry :=
  List.filter (fun a => audit_post_id a =? id) (audit_log d).

(** *** [get_pending_posts] *)

(** [CASE priority WHEN 'high' THEN 1 ... END]: NULL for any other text. *)
Definition priority_rank (p : string) : option nat :=
  if String.eqb p "high" then Some 1%nat
  else if String.eqb p "normal" then Some 2%nat
  else if String.eqb p "low" then Some 3%nat
  else None.

(** Ascending order of the CASE value; SQLite puts NULL first. *)
Definition rank_ltb (a b : option nat) : bool :=
  match a, b with
  | None, None => false
  | None, Some _ => true
  | Some _, None => false
  | Some x, Some y => Nat.ltb x y
  end.

Definition rank_eqb (a b : option nat) : bool :=
  match a, b with
  | None, None => true
  | Some x, Some y => Nat.eqb x y
  | _, _ => false
  end.

(** The ORDER BY clause: the CASE value, then [created_at ASC] compared as
    text. *)
Definition pending_leb (p q : Post) : bool :=
  rank_ltb (priority_rank (priority p)) (priority_rank (priority q))
  || (rank_eqb (priority_rank (priority p)) (priority_rank (priority q))
      && String.leb (created_at p) (created_at q)).

Definition pending_le (p q : Post) : Prop := pending_leb p q = true.

#[global] Instance pending_le_dec : RelDecision pending_le :=
  fun p q => decide (pending_leb p q = true).

(** The WHERE clause. *)
Definition is_approved (p : Post) : bool :=
  String.eqb (status p) "approved" || String.eqb (status p) "auto_approved".

Definition is_due (now : string) (p : Post) : bool :=
  match scheduled_for p with
  | None => true
  | Some t => String.leb t now
  end.

(** [get_pending_posts], with [now] the value of [_now()]. Rows that tie in
    the ORDER BY come in an order SQL leaves open; the sort used here fixes
    one. *)
Definition get_pending_posts (now : string) (d : DB) : list Post :=
  merge_sort pending_le
    (List.filter (fun p => is_approved p && is_due now p) (posts d)).

End Db.

(** ** Outcomes of calls that may raise *)

(** The result of a Python call: a value, or an exception with its text. *)
Inductive outcome (A : Type) : Type :=
| Ret (a : A)
| Raise (e : string).
Arguments Ret {A} a.
Arguments Raise {A} e.

(** ** Channel adapters: [platforms/] *)

Module Platforms.

(** [PostResult] of [platforms/base.py]. *)
Record PostResult := mkPostResult {
  success : bool;
  platform : string;
  platform_post_id : option string;
  platform_url : option string;
  error_message : option string
}.

(** A subclass of [BasePlatform]: its name and its two abstract methods,
    which talk to the network and may return or raise. *)
Record Platform := mkPlatform {
  name : string;
  post_text : string -> string -> outcome PostResult;
  post_image : string -> string -> string -> outcome PostResult
}.

(** The abstract method [BasePlatform.post] calls: [post_image] when there
    is an image path, else [post_text]. *)
Definition invoke (p : Platform) (text : string) (image_path : option string)
    (link : string) : outcome PostResult :=
  match image_path with
  | Some path =>
      if Py.truthy path then post_image p text path link
      else post_text p text link
  | None => post_text p text link
  end.

(** [BasePlatform.post]: that call, with every exception turned into a
    failed result. *)
Definition post (p : Platform) (text : string) (image_path : option string)
    (link : string) : PostResult :=
  match invoke p text image_path link with
  | Ret r => r
  | Raise e => mkPostResult false (name p) None None (Some e)
  end.

(** *** [platforms/twitter.py] *)

(** [TwitterPlatform._truncate]. *)
Definition _truncate (text link : string) (max_len : Z) : string :=
  if Py.truthy link then
    let available := max_len - 24 in
    let text := if available <? Py.len text
                then Py.slice_to text (available - 3) +:+ "..."
                else text in
    text +:+ String "010" EmptyString +:+ link
  else if max_len <? Py.len text then Py.slice_to text (max_len - 3) +:+ "..."
  else text.

(** The tweepy client: [create_tweet] returns the id of the tweet when the
    response has data, and [media_upload] the media id; [Raise] is a
    [TweepyException]. *)
Record TwitterApi := mkTwitterApi {
  create_tweet : string -> list string -> outcome (option string);
  media_upload : string -> outcome string
}.

Definition twitter_dry_run : PostResult :=
  mkPostResult true "twitter" (Some "dry_run") None None.

Definition twitter_failed (e : string) : PostResult :=
  mkPostResult false "twitter" None None (Some e).

Definition twitter_response (r : outcome (option string)) : outcome PostResult :=
  match r with
  | Ret (Some tweet_id) =>
      Ret (mkPostResult true "twitter" (Some tweet_id)
             (Some ("https://twitter.com/i/status/" +:+ tweet_id)) None)
  | Ret None => Ret (twitter_failed "No response data from Twitter")
  | Raise e => Ret (twitter_failed e)
  end.

(** [TwitterPlatform]. *)
Definition TwitterPlatform (dry_run : bool) (api : TwitterApi) : Platform :=
  mkPlatform "twitter"
    (fun text link =>
       let tweet_text := _truncate text link 280 in
       if dry_run then Ret twitter_dry_run
       else twitter_response (create_tweet api tweet_text []))
    (fun text image_path link =>
       if dry_run then Ret twitter_dry_run
       else match media_upload api image_path with
            | Raise e => Ret (twitter_failed e)
            | Ret media_id =>
                let tweet_text := _truncate text link 280 in
                twitter_response (create_tweet api tweet_text [media_id])
            end).

(** *** [platforms/instagram.py] *)


(** *** [platforms/__init__.py] *)

(** A Python [dict] with string keys, in insertion order. *)
Definition dict_set {V} (k : string) (v : V) (d : list (string * V)) : list (string * V) :=
  if existsb (fun kv => String.eqb (fst kv) k) d
  then List.map (fun kv => if String.eqb (fst kv) k then (k, v) else kv) d
  else d ++ [(k, v)].

(** [get_platform]: [None] unless the name is enabled and registered. *)
Definition get_platform (enabled_platforms : list string)
    (registry : string -> option Platform) (n : string) : option Platform :=
  if existsb (String.eqb n) enabled_platforms then registry n else None.

(** [get_all_enabled]: the instances of the enabled names, in order. *)
Definition get_all_enabled (enabled_platforms : list string)
    (registry : string -> option Platform) : list (string * Platform) :=
  fold_left (fun result n =>
               match get_platform enabled_platforms registry n with
               | Some p => dict_set n p result
               | None => result
               end) enabled_platforms [].

End Platforms.

(** ** [config.py]: which platforms are enabled *)

Module Config.

Record Credentials := mkCredentials {
  FACEBOOK_ACCESS_TOKEN : string;
  FACEBOOK_PAGE_ID : string;
  INSTAGRAM_ACCESS_TOKEN : string;
  INSTAGRAM_BUSINESS_ACCOUNT_ID : string;
  TWITTER_API_KEY : string;
  TWITTER_ACCESS_TOKEN : string;
  YOUTUBE_REFRESH_TOKEN : string;
  LINKEDIN_ACCESS_TOKEN : string
}.

(** [ENABLED_PLATFORMS] as the module computes it when imported. *)
Definition ENABLED_PLATFORMS (c : Credentials) : list string :=
  (if Py.truthy (FACEBOOK_ACCESS_TOKEN c) && Py.truthy (FACEBOOK_PAGE_ID c)
   then ["facebook"] else [])
  ++ (if Py.truthy (INSTAGRAM_ACCESS_TOKEN c) && Py.truthy (INSTAGRAM_BUSINESS_ACCOUNT_ID c)
      then ["instagram"] else [])
  ++ (if Py.truthy (TWITTER_API_KEY c) && Py.truthy (TWITTER_ACCESS_TOKEN c)
      then ["twitter"] else [])
  ++ (if Py.truthy (YOUTUBE_REFRESH_TOKEN c) then ["youtube"] else [])
  ++ (if Py.truthy (LINKEDIN_ACCESS_TOKEN c) then ["linkedin"] else []).

End Config.

(** ** The process state and the outside world *)

(** The callables handed to [send_approval_request]: the two bound methods
    of [Poster] that [process_incoming] passes. *)
Inductive Callback := poster_on_approved | poster_on_rejected.

(** The arguments of the [threading.Timer] armed for a request. *)
Record Timer := mkTimer {
  timer_msg_id : Z;
  timer_post_id : Z;
  timer_callback : Callback
}.

(** One value of [TelegramBot._pending_approvals]. *)
Record Approval := mkApproval {
  approval_post_id : Z;
  on_approved : Callback;
  on_rejected : Callback;
  sent_at : nat;
  timer : option Timer
}.

(** One element of [results] in [Poster._do_post]. *)
Record ResultEntry := mkResultEntry {
  result_platform : string;
  result_status : string;
  result_platform_url : option string;
  result_error_message : option string
}.

(** What the process does to the outside, in order. Message texts are not
    rendered; an event keeps the values the text is built from. *)
Inductive Event :=
| EvChannelPost (name text : string) (image_path : option string) (link : string)
| EvSleep (seconds : Z)
| EvAlertPostFailed (post_id : Z) (platform : string) (error : option string)
| EvAlertAllPlatformsFailed (post_id : Z)
| EvAlertCrashed (post_id : Z) (error : string)
| EvSlackNotification (post_id : Z) (status : string)
| EvSlackResult (post_id : Z) (results : list ResultEntry)
| EvTelegramSummary (post_id : Z) (results : list ResultEntry)
| EvTelegramApprovalRequest (post_id : Z)
| EvTelegramEdit (msg_id : Z) (note : string) (post_id : Z)
| EvTimerStart (t : Timer)
| EvTimerCancel (t : Timer)
| EvCall (cb : Callback) (post_id : Z).

Record State := mkState {
  db : Db.DB;
  posting_in_progress : gset Z;
  pending_approvals : gmap Z Approval;
  cancelled_timers : gset Z;
  events : list Event;
  ticks : nat
}.

(** What the code reads from outside the repository. [clock] and [db_fault]
    are indexed by the number of database calls made so far. *)
Record World := mkWorld {
  clock : nat -> string;
  db_fault : nat -> option string;
  ENABLED_PLATFORMS : list string;
  _REGISTRY : string -> option Platforms.Platform;
  AUTO_APPROVE : bool;
  process_for_all_platforms : string -> outcome (gmap string (option string));
  slack_send_result_raises : Z -> option string;
  telegram_send_message_raises : Z -> option string;
  telegram_message_id : nat -> option Z;
  py_int : string -> option Z
}.

(** ** The monad of stateful code that may raise *)

Definition M (A : Type) : Type := State -> outcome A * State.

Definition ret {A} (a : A) : M A := fun s => (Ret a, s).

Definition raise {A} (e : string) : M A := fun s => (Raise e, s).

Definition bind {A B} (m : M A) (k : A -> M B) : M B :=
  fun s => match m s with
           | (Ret a, s') => k a s'
           | (Raise e, s') => (Raise e, s')
           end.

Notation "x <- m ;; k" := (bind m (fun x => k))
  (at level 100, m at next level, right associativity, only parsing).
Notation "m ;;; k" := (bind m (fun _ => k))
  (at level 100, right associativity, only parsing).

(** [try: m except Exception as e: h(e)]. *)
Definition try_except {A} (m : M A) (h : string -> M A) : M A :=
  fun s => match m s with
           | (Ret a, s') => (Ret a, s')
           | (Raise e, s') => h e s'
           end.

(** [try: m finally: f], for an [f] that does not raise. *)
Definition try_finally {A} (m : M A) (f : State -> State) : M A :=
  fun s => match m s with (o, s') => (o, f s') end.

Definition gets {A} (f : State -> A) : M A := fun s => (Ret (f s), s).

(** A call into the outside world that leaves the process state alone. *)
Definition lift {A} (o : outcome A) : M A := fun s => (o, s).

Definition modify (f : State -> State) : M unit := fun s => (Ret tt, f s).

Definition set_db (d : Db.DB) (s : State) : State :=
  mkState d (posting_in_progress s) (pending_approvals s) (cancelled_timers s)
    (events s) (ticks s).

Definition set_posting_in_progress (g : gset Z) (s : State) : State :=
  mkState (db s) g (pending_approvals s) (cancelled_timers s) (events s) (ticks s).

Definition set_pending_approvals (m : gmap Z Approval) (s : State) : State :=
  mkState (db s) (posting_in_progress s) m (cancelled_timers s) (events s) (ticks s).

Definition set_cancelled_timers (g : gset Z) (s : State) : State :=
  mkState (db s) (posting_in_progress s) (pending_approvals s) g (events s) (ticks s).

Definition tick (s : State) : State :=
  mkState (db s) (posting_in_progress s) (pending_approvals s) (cancelled_timers s)
    (events s) (S (ticks s)).

Definition add_event (ev : Event) (s : State) : State :=
  mkState (db s) (posting_in_progress s) (pending_approvals s) (cancelled_timers s)
    (events s ++ [ev]) (ticks s).

Definition emit (ev : Event) : M unit := modify (add_event ev).

(** [for x in xs: acc = body(x, acc)]. *)
Fixpoint for_each {A B} (body : A -> B -> M B) (xs : list A) (acc : B) : M B :=
  match xs with
  | [] => ret acc
  | x :: rest => acc' <- body x acc ;; for_each body rest acc'
  end.

(** ** Database calls of the running process *)

Section Store.
Context (w : World).

(** A writing call of [db.py]: one transaction. It raises when the storage
    is unavailable or a constraint fails, and then leaves the tables as
    they were. *)
Definition db_write (f : string -> Db.DB -> option Db.DB) : M unit :=
  fun s =>
    match db_fault w (ticks s) with
    | Some e => (Raise e, tick s)
    | None =>
        match f (clock w (ticks s)) (db s) with
        | Some d => (Ret tt, tick (set_db d s))
        | None => (Raise "FOREIGN KEY constraint failed", tick s)
        end
    end.

(** A reading call of [db.py]. *)
Definition db_read {A} (f : string -> Db.DB -> A) : M A :=
  fun s =>
    match db_fault w (ticks s) with
    | Some e => (Raise e, tick s)
    | None => (Ret (f (clock w (ticks s)) (db s)), tick s)
    end.

Definition get_post (id : Z) : M (option Db.Post) :=
  db_read (fun _ => Db.get_post id).

Definition get_pending_posts : M (list Db.Post) :=
  db_read Db.get_pending_posts.

Definition update_post_status (id : Z) (status : string)
    (approved_by approval_type rejection_reason error_message : option string) : M unit :=
  db_write (fun now => Db.update_post_status now id status approved_by approval_type
                         rejection_reason error_message).

Definition update_platform_status (id : Z) (platform status : string)
    (platform_post_id platform_url error_message : option string) : M unit :=
  db_write (fun now => Db.update_platform_status now id platform status
                         platform_post_id platform_url error_message).

Definition create_post
    (topic summary full_content link image_url video_url priority source : string)
    (tags : option (list string)) : M Z :=
  fun s =>
    match db_fault w (ticks s) with
    | Some e => (Raise e, tick s)
    | None =>
        let '(id, d) := Db.create_post (ENABLED_PLATFORMS w) (clock w (ticks s))
                          topic summary full_content link image_url video_url
                          priority source tags None (db s) in
        (Ret id, tick (set_db d s))
    end.

End Store.

(** ** The approval orchestrator: [approval/telegram_bot.py] *)

Module Telegram.
Section Bot.
Context (w : World).

(** What calling a stored callable does; [Poster] supplies it below. *)
Context (call : Callback -> Z -> M unit).

(** Calling a continuation, noted in the trace. *)
Definition invoke (cb : Callback) (post_id : Z) : M unit :=
  emit (EvCall cb post_id) ;;; call cb post_id.

(** [edit_message]: [_api] swallows the request errors. *)
Definition edit_message (msg_id : Z) (note : string) (post_id : Z) : M unit :=
  emit (EvTelegramEdit msg_id note post_id).

(** [send_message] of the approval preview: the message id, if sent. *)
Definition send_preview (post_id : Z) : M (option Z) :=
  n <- gets (fun s => List.length (events s)) ;;
  emit (EvTelegramApprovalRequest post_id) ;;;
  ret (telegram_message_id w n).

Definition register (msg_id : Z) (a : Approval) : M unit :=
  modify (fun s => set_pending_approvals (<[msg_id := a]> (pending_approvals s)) s).

(** [send_approval_request]. *)
Definition send_approval_request (post_id : Z) (on_approved on_rejected : Callback)
    : M bool :=
  post <- get_post w post_id ;;
  match post with
  | None => ret false
  | Some _ =>
      msg <- send_preview post_id ;;
      match msg with
      | None => ret false
      | Some msg_id =>
          if msg_id =? 0 then ret false
          else
            now <- gets ticks ;;
            register msg_id (mkApproval post_id on_approved on_rejected now None) ;;;
            (if AUTO_APPROVE w then
               let t := mkTimer msg_id post_id on_approved in
               emit (EvTimerStart t) ;;;
               modify (fun s => set_cancelled_timers (cancelled_timers s ∖ {[msg_id]}) s) ;;;
               register msg_id (mkApproval post_id on_approved on_rejected now (Some t))
             else ret tt) ;;;
            ret true
      end
  end.

(** [_auto_approve], the function of the timer. *)
Definition _auto_approve (msg_id post_id : Z) (callback : Callback) : M unit :=
  pending <- gets pending_approvals ;;
  match pending !! msg_id with
  | None => ret tt
  | Some _ =>
      modify (fun s => set_pending_approvals (delete msg_id (pending_approvals s)) s) ;;;
      edit_message msg_id "auto_approved" post_id ;;;
      update_post_status w post_id "auto_approved" (Some "system") (Some "timeout")
        None None ;;;
      invoke callback post_id
  end.

(** The timer thread when its delay has passed: nothing if [cancel] was
    called in time. *)
Definition timer_fire (t : Timer) : M unit :=
  cancelled <- gets cancelled_timers ;;
  if decide (timer_msg_id t ∈ cancelled) then ret tt
  else _auto_approve (timer_msg_id t) (timer_post_id t) (timer_callback t).

(** [timer.cancel()]. *)
Definition cancel (t : Timer) : M unit :=
  emit (EvTimerCancel t) ;;;
  modify (fun s => set_cancelled_timers (cancelled_timers s ∪ {[timer_msg_id t]}) s).

(** The first two statements of [process_callback]: [split], index, [int]. *)
Definition parse_callback (callback_data : string) : M (string * Z) :=
  let parts := Py.split ":" callback_data in
  let action := List.hd EmptyString parts in
  match parts !! 1%nat with
  | None => raise "list index out of range"
  | Some p =>
      match py_int w p with
      | None => raise "invalid literal for int()"
      | Some post_id => ret (action, post_id)
      end
  end.

(** [process_callback]. *)
Definition process_callback (callback_data : string) (msg_id : Z) : M unit :=
  parsed <- parse_callback callback_data ;;
  let action := fst parsed in
  let post_id := snd parsed in
  pending <- gets pending_approvals ;;
  match pending !! msg_id with
  | None => ret tt
  | Some approval =>
      (match timer approval with
       | Some t => cancel t
       | None => ret tt
       end) ;;;
      modify (fun s => set_pending_approvals (delete msg_id (pending_approvals s)) s) ;;;
      if String.eqb action "approve" then
        edit_message msg_id "approved" post_id ;;;
        update_post_status w post_id "approved" (Some "telegram_user") (Some "manual")
          None None ;;;
        invoke (on_approved approval) post_id
      else if String.eqb action "reject" then
        edit_message msg_id "rejected" post_id ;;;
        update_post_status w post_id "rejected" None None
          (Some "Manually rejected via Telegram") None ;;;
        invoke (on_rejected approval) post_id
      else ret tt
  end.

End Bot.
End Telegram.

(** ** The dispatch engine: [poster.py] *)

Module Poster.

Definition nl : string := String "010" EmptyString.

(** The four characters in front of the link texts of [_build_post_text].
    None of them is ASCII; each is written here as one element. *)
Definition link_mark : string :=
  String "240" (String "159" (String "148" (String "151" EmptyString))).

(** [Poster._build_post_text]. *)
Definition _build_post_text (post : Db.Post) (platform : string) : string :=
  let topic := Db.topic post in
  let summary := Db.summary post in
  let link := Db.link post in
  let base := topic +:+ nl +:+ nl +:+ summary in
  let with_content :=
    if Py.truthy (Db.full_content post)
    then base +:+ nl +:+ nl +:+ Db.full_content post else base in
  if String.eqb platform "twitter" then
    let max_text := if Py.truthy link then 253 else 280 in
    if max_text <? Py.len base
    then topic +:+ nl +:+ nl +:+ Py.slice_to summary (max_text - Py.len topic - 5) +:+ "..."
    else base
  else if String.eqb platform "instagram" then
    Py.slice_to (if Py.truthy link
                 then with_content +:+ nl +:+ nl +:+ link_mark +:+ " Link in bio"
                 else with_content) 2200
  else if String.eqb platform "linkedin" then
    Py.slice_to with_content 3000
  else
    Py.slice_to (if Py.truthy link
                 then with_content +:+ nl +:+ nl +:+ link_mark +:+ " " +:+ link
                 else with_content) 5000.

(** The loop variables of [_do_post]. *)
Record Tally := mkTally {
  results : list ResultEntry;
  success_count : Z;
  total_count : Z
}.

(** The image handed to a platform: the processed file, else the URL. *)
Definition image_path_for (post : Db.Post)
    (processed_images : gmap string (option string)) (name : string) : option string :=
  match processed_images !! name with
  | Some (Some path) => Some path
  | _ => if Py.truthy (Db.image_url post) then Some (Db.image_url post) else None
  end.

(** The call [platform.post(text, image_path, link)] of one round, as the
    trace shows it, and what it returns. *)
Definition channel_call (post : Db.Post)
    (processed_images : gmap string (option string))
    (np : string * Platforms.Platform) : Event :=
  EvChannelPost (fst np) (_build_post_text post (fst np))
    (image_path_for post processed_images (fst np)) (Db.link post).

Definition channel_result (post : Db.Post)
    (processed_images : gmap string (option string))
    (np : string * Platforms.Platform) : Platforms.PostResult :=
  Platforms.post (snd np) (_build_post_text post (fst np))
    (image_path_for post processed_images (fst np)) (Db.link post).

(** The counters and [results] after one round. *)
Definition tally_step (name : string) (result : Platforms.PostResult) (acc : Tally)
    : Tally :=
  mkTally
    (results acc ++
       [mkResultEntry name
          (if Platforms.success result then "published" else "failed")
          (Platforms.platform_url result) (Platforms.error_message result)])
    (if Platforms.success result then success_count acc + 1 else success_count acc)
    (total_count acc + 1).

Section Poster.
Context (w : World).

(** [slack.send_result] and the summary [telegram.send_message]. *)
Definition slack_send_result (post_id : Z) (rs : list ResultEntry) : M unit :=
  match slack_send_result_raises w post_id with
  | Some e => raise e
  | None => emit (EvSlackResult post_id rs)
  end.

Definition telegram_send_summary (post_id : Z) (rs : list ResultEntry) : M unit :=
  match telegram_send_message_raises w post_id with
  | Some e => raise e
  | None => emit (EvTelegramSummary post_id rs)
  end.

(** One round of the loop over the enabled platforms. *)
Definition post_to_platform (post_id : Z) (post : Db.Post)
    (processed_images : gmap string (option string))
    (np : string * Platforms.Platform) (acc : Tally) : M Tally :=
  let name := fst np in
  update_platform_status w post_id name "posting" None None None ;;;
  emit (channel_call post processed_images np) ;;;
  let result := channel_result post processed_images np in
  (if Platforms.success result then
     update_platform_status w post_id name "published"
       (Platforms.platform_post_id result) (Platforms.platform_url result) None
   else
     update_platform_status w post_id name "failed" None None
       (Platforms.error_message result) ;;;
     emit (EvAlertPostFailed post_id name (Platforms.error_message result))) ;;;
  emit (EvSleep 2) ;;;
  ret (tally_step name result acc).

(** The aggregate status: the [if]/[elif]/[else] after the loop. *)
Definition conclude (post_id : Z) (tally : Tally) : M unit :=
  if success_count tally =? total_count tally then
    update_post_status w post_id "completed" None None None None
  else if 0 <? success_count tally then
    update_post_status w post_id "partial_failure" None None None None
  else
    update_post_status w post_id "failed" None None None None ;;;
    emit (EvAlertAllPlatformsFailed post_id).

(** The results sent to Slack and the summary sent to Telegram. *)
Definition report (post_id : Z) (tally : Tally) : M unit :=
  again <- get_post w post_id ;;
  (match again with
   | Some _ => slack_send_result post_id (results tally)
   | None => ret tt
   end) ;;;
  telegram_send_summary post_id (results tally).

(** The media of a post, processed when it has an image. *)
Definition process_media (post : Db.Post) : M (gmap string (option string)) :=
  if Py.truthy (Db.image_url post)
  then lift (process_for_all_platforms w (Db.image_url post))
  else ret ∅.

(** The body of the [try] of [_do_post]. *)
Definition dispatch (post_id : Z) : M unit :=
  found <- get_post w post_id ;;
  match found with
  | None => ret tt
  | Some post =>
      update_post_status w post_id "posting" None None None None ;;;
      processed_images <- process_media post ;;
      tally <- for_each (post_to_platform post_id post processed_images)
                 (Platforms.get_all_enabled (ENABLED_PLATFORMS w) (_REGISTRY w))
                 (mkTally [] 0 0) ;;
      conclude post_id tally ;;;
      report post_id tally
  end.

(** The [except] clause of [_do_post]. *)
Definition crashed (post_id : Z) (e : string) : M unit :=
  update_post_status w post_id "failed" None None None (Some e) ;;;
  emit (EvAlertCrashed post_id e).

(** [Poster._do_post]. *)
Definition _do_post (post_id : Z) : M unit :=
  in_progress <- gets posting_in_progress ;;
  if decide (post_id ∈ in_progress) then ret tt
  else
    modify (fun s => set_posting_in_progress (posting_in_progress s ∪ {[post_id]}) s) ;;;
    try_finally
      (try_except (dispatch post_id) (crashed post_id))
      (fun s => set_posting_in_progress (posting_in_progress s ∖ {[post_id]}) s).

(** [Poster._on_approved] and [Poster._on_rejected]. *)
Definition _on_approved (post_id : Z) : M unit := _do_post post_id.

Definition _on_rejected (post_id : Z) : M unit :=
  found <- get_post w post_id ;;
  match found with
  | Some _ => emit (EvSlackNotification post_id "rejected")
  | None => ret tt
  end.

(** The callables the bot stores are these two methods. *)
Definition run_callback (cb : Callback) (post_id : Z) : M unit :=
  match cb with
  | poster_on_approved => _on_approved post_id
  | poster_on_rejected => _on_rejected post_id
  end.

(** [Poster.process_pending]. *)
Definition process_pending : M unit :=
  pending <- get_pending_posts w ;;
  for_each (fun post (_ : unit) => _do_post (Db.post_id post)) pending tt.

(** [Poster.process_incoming]. *)
Definition process_incoming
    (topic summary full_content link image_url video_url priority source : string)
    (tags : option (list string)) : M Z :=
  post_id <- create_post w topic summary full_content link image_url video_url
               priority source tags ;;
  Telegram.send_approval_request w post_id poster_on_approved poster_on_rejected ;;;
  found <- get_post w post_id ;;
  (match found with
   | Some _ => emit (EvSlackNotification post_id "pending")
   | None => ret tt
   end) ;;;
  ret post_id.

(** The bot of a running [Poster]. *)
Definition process_callback : string -> Z -> M unit :=
  Telegram.process_callback w run_callback.

Definition _auto_approve : Z -> Z -> Callback -> M unit :=
  Telegram._auto_approve w run_callback.

Definition timer_fire : Timer -> M unit :=
  Telegram.timer_fire w run_callback.

End Poster.
End Poster.

(** ** The text of a tweet *)

(** What [TwitterPlatform] sends for a post: [_do_post] builds the text with
    [_build_post_text] and the adapter passes it through [_truncate]. *)
Definition tweet_text (post : Db.Post) : string :=
  Platforms._truncate (Poster._build_post_text post "twitter") (Db.link post) 280.

(** The part of a tweet in front of the line break and the link. *)
Definition tweet_body (post : Db.Post) : string :=
  let text := Poster._build_post_text post "twitter" in
  if 256 <? Py.len text then Py.slice_to text 253 +:+ "..." else text.

(** ** The state machine of the specification *)

Module Spec.

(** The transitions of an item in the words of section 4.1: pending to
    approved, auto_approved or rejected; approved and auto_approved to
    posting; posting to completed, partial_failure or failed. The code has
    no such table; this one is what the code is compared with. *)
Definition allowed (from to : string) : bool :=
  if String.eqb from "pending" then
    String.eqb to "approved" || String.eqb to "auto_approved" || String.eqb to "rejected"
  else if String.eqb from "approved" || String.eqb from "auto_approved" then
    String.eqb to "posting"
  else if String.eqb from "posting" then
    String.eqb to "completed" || String.eqb to "partial_failure" || String.eqb to "failed"
  else false.

(** A sequence of statuses that follows the transitions from [current]. *)
Fixpoint valid_path (current : string) (path : list string) : bool :=
  match path with
  | [] => true
  | next :: rest => allowed current next && valid_path next rest
  end.

End Spec.

(** The statuses an item went through according to the audit trail: the
    actions of the entries that [update_post_status] wrote for it. *)
Definition status_trail (id : Z) (d : Db.DB) : list string :=
  List.map Db.action
    (List.filter (fun a => match Db.details a with Db.DStatus _ _ _ => true | _ => false end)
       (Db.audit_of id d)).

(** ** Reading the trace and the tables *)

(** The continuations that were called. *)
Definition continuation_calls (evs : list Event) : list (Callback * Z) :=
  omap (fun ev => match ev with EvCall cb id => Some (cb, id) | _ => None end) evs.

(** The calls of channel adapters. *)
Definition channel_posts (evs : list Event) : list Event :=
  List.filter (fun ev => match ev with EvChannelPost _ _ _ _ => true | _ => false end) evs.

(** The audit entries that [update_platform_status] wrote. *)
Definition channel_audit (d : Db.DB) : list Db.AuditEntry :=
  List.filter (fun a => match Db.details a with Db.DPlatform _ _ _ => true | _ => false end)
    (Db.audit_log d).

(** The [platform_posts] rows of one post and platform. *)

(** The test of the WHERE clause of [update_platform_status]. *)
Definition is_row (id : Z) (name : string) (r : Db.PlatformPost) : bool :=
  (Db.pp_post_id r =? id) && String.eqb (Db.pp_platform r) name.

(** The [platform_posts] rows of one post and platform. *)
Definition rows_of (id : Z) (name : string) (d : Db.DB) : list Db.PlatformPost :=
  List.filter (is_row id name) (Db.platform_posts d).

(** The two writes of one round of the loop, on a row of the platform:
    posting at [t1], then the outcome at [t2]. *)
Definition record_outcome (t1 t2 : string) (r : Platforms.PostResult)
    (row : Db.PlatformPost) : Db.PlatformPost :=
  let posting := Db.set_platform_status t1 "posting" None None None row in
  if Platforms.success r then
    Db.set_platform_status t2 "published" (Platforms.platform_post_id r)
      (Platforms.platform_url r) None posting
  else
    Db.set_platform_status t2 "failed" None None (Platforms.error_message r) posting.

(** The audit entry of the outcome of one round. *)
Definition outcome_entry (id : Z) (name t2 : string) (r : Platforms.PostResult)
    : Db.AuditEntry :=
  if Platforms.success r then
    Db.mkAudit id "platform_published"
      (Db.DPlatform name (Platforms.platform_post_id r) None) t2
  else
    Db.mkAudit id "platform_failed"
      (Db.DPlatform name None (Platforms.error_message r)) t2.

(** The loop variables after the rounds of [chans]. *)
Definition tally_after (post : Db.Post) (imgs : gmap string (option string))
    (chans : list (string * Platforms.Platform)) (acc : Poster.Tally) : Poster.Tally :=
  fold_left (fun a np =>
               Poster.tally_step (fst np) (Poster.channel_result post imgs np) a)
    chans acc.

(** The platforms [_do_post] loops over. *)
Definition enabled_channels (w : World) : list (string * Platforms.Platform) :=
  Platforms.get_all_enabled (ENABLED_PLATFORMS w) (_REGISTRY w).

(** The status [Poster.conclude] writes. *)
Definition aggregate_status (t : Poster.Tally) : string :=
  if Poster.success_count t =? Poster.total_count t then "completed"
  else if 0 <? Poster.success_count t then "partial_failure"
  else "failed".

(** What [_do_post] does after the loop, inside its [try] and [except]. *)
Definition finish (w : World) (id : Z) (tally : Poster.Tally) : M unit :=
  try_except (Poster.conclude w id tally ;;; Poster.report w id tally)
    (Poster.crashed w id).

(** The storage answers every call. *)
Definition no_db_faults (w : World) : Prop := forall n, db_fault w n = None.

(** The image processing does not raise. *)
Definition media_returns (w : World) : Prop :=
  forall url, exists imgs, process_for_all_platforms w url = Ret imgs.

(** The two summaries after a dispatch do not raise. *)
Definition summaries_return (w : World) : Prop :=
  forall id, slack_send_result_raises w id = None
             /\ telegram_send_message_raises w id = None.

(** ** What a computation leaves in place *)

(** [respects R m]: every run of [m] takes a state to one related by [R],
    whether it returns or raises. *)
Definition respects {A} (R : State -> State -> Prop) (m : M A) : Prop :=
  forall s, R s (snd (m s)).

(** The states agree on what [f] reads. *)
Definition same {X} (f : State -> X) : State -> State -> Prop :=
  fun s s' => f s' = f s.

(** ** Concrete inputs *)

Module Demo.

Fixpoint replicate_char (n : nat) (c : ascii) : string :=
  match n with
  | O => EmptyString
  | S n => String c (replicate_char n c)
  end.

(** A row as [create_post] writes it, with the columns that matter here. *)
Definition row (id : Z) (topic summary link image_url status priority created_at : string)
    (scheduled_for : option string) : Db.Post :=
  Db.mkPost id topic summary "" link image_url "" status priority
    None None None None "webhook" [] created_at created_at scheduled_for None None 0.

(** A long summary and a link of 40 characters. *)
Definition long_link_post : Db.Post :=
  row 1 "T" (replicate_char 300 "a") "https://example.com/articles/2024/launch" ""
    "approved" "normal" "2024-01-01T09:00:00+00:00" None.

(** A short post with a link of 19 characters. *)
Definition short_link_post : Db.Post :=
  row 2 "News" "Something happened" "https://example.com" ""
    "approved" "normal" "2024-01-01T09:00:00+00:00" None.

(** The store of the tests: facebook and twitter enabled, one post
    created and pending. *)
Definition db_created : Db.DB :=
  snd (Db.create_post ["facebook"; "twitter"] "2024-01-01T09:00:00+00:00"
         "Topic" "Summary" "" "" "" "" "normal" "webhook" None None Db.init_db).

(** The same post approved by hand and taken up by the dispatch. *)
Definition db_posting : Db.DB :=
  default db_created
    (d ← Db.update_post_status "2024-01-01T09:01:00+00:00" 1 "approved"
           (Some "telegram_user") (Some "manual") None None db_created;
     Db.update_post_status "2024-01-01T09:02:00+00:00" 1 "posting"
       None None None None d).

(** [int] on a plain decimal literal, the form of the ids in the callback
    data that [send_approval_request] writes. *)
Fixpoint digits (s : string) (acc : Z) : option Z :=
  match s with
  | EmptyString => Some acc
  | String c rest =>
      let n := Z.of_nat (nat_of_ascii c) in
      if (48 <=? n) && (n <=? 57) then digits rest (10 * acc + (n - 48)) else None
  end.

Definition decimal_int (s : string) : option Z :=
  match s with
  | EmptyString => None
  | String _ _ => digits s 0
  end.

(** An adapter whose two methods raise whatever they are given. *)
Definition raising (name e : string) : Platforms.Platform :=
  Platforms.mkPlatform name (fun _ _ => Raise e) (fun _ _ _ => Raise e).

(** An adapter that publishes whatever it is given. *)
Definition publishing (name : string) : Platforms.Platform :=
  Platforms.mkPlatform name
    (fun _ _ => Ret (Platforms.mkPostResult true name (Some "1") None None))
    (fun _ _ _ => Ret (Platforms.mkPostResult true name (Some "1") None None)).

(** A world where nothing outside fails, with the given enabled names and
    registry. *)
Definition world (enabled : list string)
    (registry : string -> option Platforms.Platform) : World :=
  mkWorld (fun _ => "2024-01-01T12:00:00+00:00") (fun _ => None) enabled registry true
    (fun _ => Ret ∅) (fun _ => None) (fun _ => None) (fun _ => Some 42) decimal_int.


(** No platform is configured. *)
Definition silent_world : World := world [] (fun _ => None).

(** Facebook raises an exception without text, Twitter publishes. *)
Definition flaky_world : World :=
  world ["facebook"; "twitter"]
    (fun n => if String.eqb n "facebook" then Some (raising "facebook" "")
              else if String.eqb n "twitter" then Some (publishing "twitter")
              else None).

Definition state_of (d : Db.DB) : State := mkState d ∅ ∅ ∅ [] 0.

(** A fresh process that received one post through the webhook: the post
    is pending, its approval request is message 42 and the timer is
    armed. *)
Definition awaiting_approval : State :=
  snd (Poster.process_incoming silent_world "Topic" "Summary" "" "" "" "" "normal"
         "webhook" None (state_of Db.init_db)).

(** The same after the reviewer pressed the third button of the request,
    whose callback data is [info:1]. *)
Definition after_info_click : State :=
  snd (Poster.process_callback silent_world "info:1" 42 awaiting_approval).

(** What follows the click: the timer fires, its function runs even if
    [cancel] came too late, and the reviewer presses Approve. *)
Definition after_everything_else : State :=
  let t := mkTimer 42 1 poster_on_approved in
  let s1 := snd (Poster.timer_fire silent_world t after_info_click) in
  let s2 := snd (Poster._auto_approve silent_world 42 1 poster_on_approved s1) in
  snd (Poster.process_callback silent_world "approve:1" 42 s2).

(** A process in which the dispatch of post 1 is under way. *)
Definition dispatching : State :=
  mkState db_posting {[1]} ∅ ∅ [] 0.

(** A world whose storage fails from the third call on. *)
Definition failing_storage_world : World :=
  mkWorld (fun _ => "2024-01-01T12:00:00+00:00")
    (fun n => if (2 <=? n)%nat then Some "database is locked" else None)
    [] (fun _ => None) true
    (fun _ => Ret ∅) (fun _ => None) (fun _ => None) (fun _ => Some 42) decimal_int.

(** The post of the tests, approved by hand. *)
Definition db_approved : Db.DB :=
  default db_created
    (Db.update_post_status "2024-01-01T09:01:00+00:00" 1 "approved"
       (Some "telegram_user") (Some "manual") None None db_created).

Definition approved_post : Db.Post :=
  Eval vm_compute in
    default (row 1 "" "" "" "" "" "" "" None) (Db.get_post 1 db_approved).

(** The same post after Facebook refused it once: the sequence of calls of
    the test [test_platform_failure_tracking], then the approval. *)
Definition db_refused_once : Db.DB :=
  default db_created
    (d ← Db.update_platform_status "2024-01-01T09:00:30+00:00" 1 "facebook" "failed"
           None None (Some "Rate limited") db_created;
     Db.update_post_status "2024-01-01T09:01:00+00:00" 1 "approved"
       (Some "telegram_user") (Some "manual") None None d).



(** Facebook raises a connection error, Twitter publishes. *)
Definition timeout_world : World :=
  world ["facebook"; "twitter"]
    (fun n => if String.eqb n "facebook"
              then Some (raising "facebook" "Connection timed out")
              else if String.eqb n "twitter" then Some (publishing "twitter")
              else None).

(** A world with no platform enabled whose storage fails once, at the
    fourth call. *)
Definition transient_fault_world : World :=
  mkWorld (fun _ => "2024-01-01T12:00:00+00:00")
    (fun n => if (n =? 3)%nat then Some "database is locked" else None)
    [] (fun _ => None) true
    (fun _ => Ret ∅) (fun _ => None) (fun _ => None) (fun _ => Some 42) decimal_int.

End Demo.

(** ** More of the item store *)

Module Queries.

(** [ORDER BY created_at ASC], compared as text. *)
Definition created_le (p q : Db.Post) : Prop :=
  String.leb (Db.created_at p) (Db.created_at q) = true.

#[global] Instance created_le_dec : RelDecision created_le :=
  fun p q => decide (String.leb (Db.created_at p) (Db.created_at q) = true).

(** [get_posts_needing_approval]; rows created at the same time come in an
    order SQL leaves open. *)
Definition get_posts_needing_approval (d : Db.DB) : list Db.Post :=
  merge_sort created_le
    (List.filter (fun p => String.eqb (Db.status p) "pending") (Db.posts d)).

(** [COUNT( * )] of the posts with one status. *)
Definition count_status (st : string) (ps : list Db.Post) : nat :=
  List.length (List.filter (fun p => String.eqb (Db.status p) st) ps).

(** The rows of [SELECT status, COUNT( * ) FROM posts GROUP BY status]: one
    for each status that occurs. *)
Definition status_groups (ps : list Db.Post) : list (string * nat) :=
  List.map (fun st => (st, count_status st ps)) (remove_dups (List.map Db.status ps)).

(** The dict [status_counts] that [get_stats] fills from these rows, which
    does not depend on their order, and its [total_posts]. *)
Definition by_status (d : Db.DB) : gmap string nat :=
  fold_left (fun m row => <[fst row := snd row]> m) (status_groups (Db.posts d)) ∅.

Definition total_posts (d : Db.DB) : nat := List.length (Db.posts d).

(** [ORDER BY created_at DESC], compared as text. *)
Definition created_ge (p q : Db.Post) : Prop :=
  String.leb (Db.created_at q) (Db.created_at p) = true.

#[global] Instance created_ge_dec : RelDecision created_ge :=
  fun p q => decide (String.leb (Db.created_at q) (Db.created_at p) = true).

(** [LIMIT ?]: the first rows; a negative limit is no limit in SQLite. *)
Definition limit_rows {A} (limit : Z) (rows : list A) : list A :=
  if limit <? 0 then rows else List.firstn (Z.to_nat limit) rows.

(** [get_recent_posts]: each post with its platform rows under the key
    [platforms]. *)
Definition get_recent_posts (limit : Z) (d : Db.DB)
    : list (Db.Post * list Db.PlatformPost) :=
  List.map (fun p => (p, Db.get_platform_statuses (Db.post_id p) d))
    (limit_rows limit (merge_sort created_ge (Db.posts d))).

End Queries.

(** What the tables of a database built by [db.py] satisfy: the ids of the
    posts are distinct and not above the AUTOINCREMENT counter, and every
    [platform_posts] row and audit entry belongs to a post (the two foreign
    keys). *)
Definition store_ok (d : Db.DB) : Prop :=
  List.NoDup (List.map Db.post_id (Db.posts d))
  /\ List.Forall (fun p => Db.post_id p <= Db.last_post_id d) (Db.posts d)
  /\ List.Forall (fun r => Db.post_exists (Db.pp_post_id r) d = true) (Db.platform_posts d)
  /\ List.Forall (fun a => Db.post_exists (Db.audit_post_id a) d = true) (Db.audit_log d).

(** ** What a dispatch writes *)

(** The statuses in which [_do_post] leaves an item. *)
Definition terminal (st : string) : Prop :=
  st = "completed" \/ st = "partial_failure" \/ st = "failed".

(** The columns of a post that hold its content and its approval. *)
Definition content_of (p : Db.Post)
    : Z * string * string * string * string * string * string * string * string
      * list string * string * option string :=
  (Db.post_id p, Db.topic p, Db.summary p, Db.full_content p, Db.link p,
   Db.image_url p, Db.video_url p, Db.priority p, Db.source p, Db.tags p,
   Db.created_at p, Db.scheduled_for p).

Definition approval_of (p : Db.Post)
    : option string * option string * option string * option string :=
  (Db.approved_by p, Db.approved_at p, Db.approval_type p, Db.rejection_reason p).

(** The events a call of [_do_post] for [id] may add to the trace when the
    loop runs over the platforms [names]. *)
Definition dispatch_event (id : Z) (names : list string) (ev : Event) : Prop :=
  match ev with
  | EvChannelPost name _ _ _ => In name names
  | EvSleep seconds => seconds = 2
  | EvAlertPostFailed post_id name _ => post_id = id /\ In name names
  | EvAlertAllPlatformsFailed post_id => post_id = id
  | EvAlertCrashed post_id _ => post_id = id
  | EvSlackResult post_id _ => post_id = id
  | EvTelegramSummary post_id _ => post_id = id
  | _ => False
  end.

(** The single changes of the state that such a call may make: a database
    call counted, the in-flight set changed, one of these events added, the
    status of [id] written without approval data, or the row of [id] and one
    of the platforms written. *)
Inductive dispatch_step (id : Z) (names : list string) : State -> State -> Prop :=
| step_tick (s : State) : dispatch_step id names s (tick s)
| step_in_flight (g : gset Z) (s : State) :
    dispatch_step id names s (set_posting_in_progress g s)
| step_event (ev : Event) (s : State) :
    dispatch_event id names ev -> dispatch_step id names s (add_event ev s)
| step_status (now st : string) (e : option string) (s : State) (d' : Db.DB) :
    Db.update_post_status now id st None None None e (db s) = Some d' ->
    dispatch_step id names s (set_db d' s)
| step_platform (now name st : string) (a b e : option string) (s : State) (d' : Db.DB) :
    In name names ->
    Db.update_platform_status now id name st a b e (db s) = Some d' ->
    dispatch_step id names s (set_db d' s).

(** The state in which [process_callback] has cancelled the timer of the
    request it found and removed the request. *)
Definition resolved (msg_id : Z) (a : Approval) (s : State) : State :=
  let s1 := match timer a with
            | Some t =>
                set_cancelled_timers (cancelled_timers s ∪ {[timer_msg_id t]})
                  (add_event (EvTimerCancel t) s)
            | None => s
            end in
  set_pending_approvals (delete msg_id (pending_approvals s1)) s1.

(** The names of the platforms [_do_post] loops over. *)
Definition channel_names (w : World) : list string :=
  List.map fst (enabled_channels w).

(** ** More of Python's strings, and [_escape] of the bot *)

Module PyStr.

(** [s.replace(old, new)] for a one-character [old]. *)
Fixpoint replace_char (old : ascii) (new s : string) : string :=
  match s with
  | EmptyString => EmptyString
  | String c rest =>
      if Ascii.eqb c old then new +:+ replace_char old new rest
      else String c (replace_char old new rest)
  end.

(** [c in s] for a character. *)
Fixpoint occurs (c : ascii) (s : string) : bool :=
  match s with
  | EmptyString => false
  | String x rest => Ascii.eqb x c || occurs c rest
  end.

End PyStr.

(** [_escape] of [approval/telegram_bot.py]. *)
Definition _escape (text : string) : string :=
  PyStr.replace_char ">" "&gt;"
    (PyStr.replace_char "<" "&lt;"
       (PyStr.replace_char "&" "&amp;" text)).

(** ** Checking the configuration: [config.validate] and [main.run_service] *)

Module Startup.

(** [config.validate]: the list of problems. *)
Definition validate (TELEGRAM_BOT_TOKEN TELEGRAM_CHAT_ID WEBHOOK_SECRET : string)
    (ENABLED_PLATFORMS POST_TIMES : list string) : list string :=
  (if Py.truthy TELEGRAM_BOT_TOKEN then [] else ["TELEGRAM_BOT_TOKEN is missing"])
  ++ (if Py.truthy TELEGRAM_CHAT_ID then [] else ["TELEGRAM_CHAT_ID is missing"])
  ++ (if String.eqb WEBHOOK_SECRET "change-me-please"
      then ["WEBHOOK_SECRET is still the default value"] else [])
  ++ (match ENABLED_PLATFORMS with
      | [] => ["No platforms configured (all tokens missing)"]
      | _ :: _ => []
      end)
  ++ (match POST_TIMES with
      | [] => ["No POST_TIMES configured"]
      | _ :: _ => []
      end).

(** [str.lower] on the letters A to Z; the texts it is applied to here have
    no other letters. *)
Definition lower_char (c : ascii) : ascii :=
  let n := nat_of_ascii c in
  if (65 <=? n)%nat && (n <=? 90)%nat then ascii_of_nat (n + 32) else c.

Fixpoint lower (s : string) : string :=
  match s with
  | EmptyString => EmptyString
  | String c rest => String (lower_char c) (lower rest)
  end.

(** The test of [run_service] that ends the process:
    [any("missing" in p.lower() for p in problems)]. *)
Definition refuses_to_start (problems : list string) : bool :=
  existsb (fun p => Py.contains "missing" (lower p)) problems.

End Startup.

(** [_REGISTRY] of [platforms/__init__.py] with its four classes
    instantiated; there is no entry for linkedin. *)
Definition module_registry (facebook twitter instagram youtube : Platforms.Platform)
    (n : string) : option Platforms.Platform :=
  if String.eqb n "facebook" then Some facebook
  else if String.eqb n "twitter" then Some twitter
  else if String.eqb n "instagram" then Some instagram
  else if String.eqb n "youtube" then Some youtube
  else None.

(** ** More concrete inputs *)

Module Sample.

(** A second post created in the store of the tests, scheduled for later. *)
Definition created_second : Z * Db.DB :=
  Db.create_post ["facebook"; "twitter"] "2024-01-01T10:00:00+00:00"
    "Second" "Summary two" "Body" "https://example.com" "" "" "high" "webhook"
    (Some ["tech"]) (Some "2024-01-02T00:00:00+00:00") Demo.db_created.




(** The registry of the repository with adapters that publish. *)
Definition publishing_registry : string -> option Platforms.Platform :=
  module_registry (Demo.publishing "facebook") (Demo.publishing "twitter")
    (Demo.publishing "instagram") (Demo.publishing "youtube").

(** Facebook and linkedin are configured, and nothing outside fails. *)
Definition linkedin_world : World :=
  Demo.world ["facebook"; "linkedin"] publishing_registry.

(** The store of that configuration: one post, approved by hand. *)
Definition db_linkedin : Db.DB :=
  let d := snd (Db.create_post ["facebook"; "linkedin"] "2024-01-01T09:00:00+00:00"
                  "Topic" "Summary" "" "" "" "" "normal" "webhook" None None
                  Db.init_db) in
  default d
    (Db.update_post_status "2024-01-01T09:01:00+00:00" 1 "approved"
       (Some "telegram_user") (Some "manual") None None d).




(** The request that [Demo.awaiting_approval] stores for message 42, and
    the post it is about. *)
Definition request_42 : Approval :=
  Eval vm_compute in
    default (mkApproval 0 poster_on_rejected poster_on_rejected 0 None)
      (pending_approvals Demo.awaiting_approval !! 42).

Definition pending_post : Db.Post :=
  Eval vm_compute in
    default (Demo.row 1 "" "" "" "" "" "" "" None)
      (Db.get_post 1 (db Demo.awaiting_approval)).

End Sample.

(** * Properties *)

(** ** Strings *)

Lemma length_append (s1 s2 : string) :
  String.length (s1 +:+ s2) = (String.length s1 + String.length s2)%nat.
Proof. induction s1 as [|c s1 IH]; simpl; [reflexivity|]. now rewrite IH. Qed.

Lemma append_cons (x : ascii) (a b : string) : String x a +:+ b = String x (a +:+ b).
Proof. reflexivity. Qed.

Lemma append_assoc (a b c : string) : (a +:+ b) +:+ c = a +:+ b +:+ c.
Proof.
  induction a as [|x a IH]; [reflexivity|].
  rewrite !append_cons. f_equal. exact IH.
Qed.

Lemma length_substring0 (n : nat) (s : string) :
  String.length (substring 0 n s) = Nat.min n (String.length s).
Proof.
  revert n. induction s as [|c s IH]; intros [|n]; simpl; try reflexivity.
  now rewrite IH.
Qed.

Lemma len_slice_to_le (s : string) (n : Z) :
  0 <= n -> Py.len (Py.slice_to s n) <= n.
Proof.
  intros Hn. unfold Py.slice_to, Py.len.
  destruct (Z.leb_spec 0 n); [|lia].
  rewrite length_substring0. lia.
Qed.

Lemma prefix_refl (s : string) : String.prefix s s = true.
Proof.
  induction s as [|c s IH]; simpl; [reflexivity|].
  destruct (ascii_dec c c); [exact IH|congruence].
Qed.

Lemma contains_suffix (a b : string) : Py.contains b (a +:+ b) = true.
Proof.
  induction a as [|c a IH]; simpl.
  - destruct b; simpl; [reflexivity|].
    rewrite prefix_refl. destruct (ascii_dec a a); [reflexivity|congruence].
  - rewrite IH. apply orb_true_r.
Qed.

Lemma tweet_text_with_link (post : Db.Post) :
  Py.truthy (Db.link post) = true ->
  tweet_text post = tweet_body post +:+ Poster.nl +:+ Db.link post.
Proof.
  intros H. unfold tweet_text, tweet_body, Platforms._truncate. rewrite H.
  reflexivity.
Qed.

Lemma tweet_body_len (post : Db.Post) : Py.len (tweet_body post) <= 256.
Proof.
  unfold tweet_body.
  destruct (Z.ltb_spec 256 (Py.len (Poster._build_post_text post "twitter"))); [|lia].
  pose proof (len_slice_to_le (Poster._build_post_text post "twitter") 253 ltac:(lia)) as Hs.
  unfold Py.len in *. rewrite length_append. simpl String.length. lia.
Qed.

(** ** C9: the length of a tweet *)

(** With a link of 40 characters the tweet of [Demo.long_link_post] has 294
    characters. *)
Example tweet_text_long_link :
  String.length (tweet_text Demo.long_link_post) = 294%nat.
Proof. vm_compute. reflexivity. Qed.

(** C9, counterexample: an item with a link whose tweet is longer than 280
    characters, so the bound of the claim fails for it. *)
Lemma tweet_text_over_280_characters :
  ~ (Py.truthy (Db.link Demo.long_link_post) = true ->
     Py.len (tweet_text Demo.long_link_post) <= 280
     /\ Py.contains (Db.link Demo.long_link_post) (tweet_text Demo.long_link_post) = true).
Proof.
  intros H. destruct (H eq_refl) as [Hlen _]. vm_compute in Hlen. apply Hlen. reflexivity.
Qed.

(** The text handed to the client of Twitter is [tweet_text]. *)
Example twitter_sends_tweet_text (api : Platforms.TwitterApi) (post : Db.Post) :
  Platforms.post_text (Platforms.TwitterPlatform false api)
    (Poster._build_post_text post "twitter") (Db.link post)
  = Platforms.twitter_response (Platforms.create_tweet api (tweet_text post) []).
Proof. reflexivity. Qed.

(** C9, amended: for every item that has a link, the tweet is the text cut
    to at most 256 characters, a line break and the full link. Counted the way
    the code counts, with 23 for the link whatever its length, it is at most
    280; it contains the full link; and it is at most 280 characters long
    when the link has at most 23 characters. *)
Theorem tweet_text_limit (post : Db.Post) :
  Py.truthy (Db.link post) = true ->
  Py.len (tweet_text post) - Py.len (Db.link post) + 23 <= 280
  /\ Py.contains (Db.link post) (tweet_text post) = true
  /\ (Py.len (Db.link post) <= 23 -> Py.len (tweet_text post) <= 280).
Proof.
  intros H. rewrite (tweet_text_with_link post H).
  pose proof (tweet_body_len post) as Hb.
  assert (Hlen : Py.len (tweet_body post +:+ Poster.nl +:+ Db.link post)
                 = Py.len (tweet_body post) + 1 + Py.len (Db.link post)).
  { unfold Py.len. rewrite !length_append. simpl String.length. lia. }
  rewrite Hlen. repeat split; try lia.
  rewrite <- append_assoc. apply contains_suffix.
Qed.

Lemma tweet_text_limit_witness :
  Py.len (tweet_text Demo.short_link_post) - Py.len (Db.link Demo.short_link_post) + 23 <= 280
  /\ Py.contains (Db.link Demo.short_link_post) (tweet_text Demo.short_link_post) = true
  /\ (Py.len (Db.link Demo.short_link_post) <= 23 ->
      Py.len (tweet_text Demo.short_link_post) <= 280).
Proof. apply (tweet_text_limit Demo.short_link_post). reflexivity. Defined.

(** ** The item store *)

Lemma find_map_if {A} (test : A -> bool) (f : A -> A) (l : list A) :
  (forall x, test (f x) = test x) ->
  List.find test (List.map (fun x => if test x then f x else x) l)
  = f <$> List.find test l.
Proof.
  intros Hf. induction l as [|x l IH]; simpl; [reflexivity|].
  destruct (test x) eqn:Hx.
  - now rewrite Hf, Hx.
  - now rewrite Hx.
Qed.

Lemma get_post_exists (id : Z) (d : Db.DB) (p : Db.Post) :
  Db.get_post id d = Some p -> Db.post_exists id d = true.
Proof.
  unfold Db.get_post, Db.post_exists. intros H.
  apply List.find_some in H. apply List.existsb_exists. exists p. exact H.
Qed.

Lemma get_post_id (id : Z) (d : Db.DB) (p : Db.Post) :
  Db.get_post id d = Some p -> Db.post_id p = id.
Proof.
  unfold Db.get_post. intros H. apply List.find_some in H. lia.
Qed.

(** What [update_post_status] does to an existing post. *)
Lemma update_post_status_existing (now : string) (id : Z) (st : string)
    (ab aty rr em : option string) (d : Db.DB) (p : Db.Post) :
  Db.get_post id d = Some p ->
  exists d',
    Db.update_post_status now id st ab aty rr em d = Some d'
    /\ Db.get_post id d' = Some (Db.set_post_status now st ab aty rr em p)
    /\ Db.platform_posts d' = Db.platform_posts d
    /\ Db.audit_log d' = Db.audit_log d ++ [Db.mkAudit id st (Db.DStatus ab aty rr) now].
Proof.
  intros Hp. unfold Db.update_post_status. rewrite (get_post_exists _ _ _ Hp).
  eexists. split; [reflexivity|]. repeat split.
  unfold Db.get_post in *. simpl.
  rewrite (find_map_if (fun q => Db.post_id q =? id)); [|reflexivity].
  now rewrite Hp.
Qed.

(** What [update_platform_status] does when the post exists. *)
Lemma update_platform_status_existing (now : string) (id : Z) (name st : string)
    (ppid url em : option string) (d : Db.DB) (p : Db.Post) :
  Db.get_post id d = Some p ->
  exists d',
    Db.update_platform_status now id name st ppid url em d = Some d'
    /\ Db.posts d' = Db.posts d
    /\ Db.audit_log d' = Db.audit_log d
                          ++ [Db.mkAudit id ("platform_" +:+ st) (Db.DPlatform name ppid em) now].
Proof.
  intros Hp. unfold Db.update_platform_status. rewrite (get_post_exists _ _ _ Hp).
  eexists. split; [reflexivity|]. split; reflexivity.
Qed.

(** ** C1: transitions are not validated *)

(** C1, counterexample: the pending post of [Demo.db_created] is moved
    straight to completed, which the state machine does not allow; the call
    succeeds, the row and the audit trail record it. *)
Lemma unreachable_transition_accepted :
  Spec.allowed "pending" "completed" = false
  /\ exists d',
       Db.update_post_status "2024-01-01T10:00:00+00:00" 1 "completed"
         None None None None Demo.db_created = Some d'
       /\ (Db.status <$> Db.get_post 1 Demo.db_created) = Some "pending"
       /\ (Db.status <$> Db.get_post 1 d') = Some "completed"
       /\ status_trail 1 d' = ["completed"]
       /\ Spec.valid_path "pending" (status_trail 1 d') = false.
Proof. split; [reflexivity|]. eexists. repeat split. Qed.

(** The dispatch itself leaves the state machine when the storage fails once
    after the aggregate status was written: the [except] clause of [_do_post]
    writes failed over completed. *)
Example transient_fault_overwrites_completed :
  status_trail 1
    (db (snd (Poster._do_post Demo.transient_fault_world 1
                (Demo.state_of Demo.db_approved))))
  = ["approved"; "posting"; "completed"; "failed"]
  /\ Spec.allowed "completed" "failed" = false.
Proof. vm_compute. split; reflexivity. Qed.

(** C1, amended: [update_post_status] makes no check of the current status.
    For every existing item and every requested status it succeeds, sets the
    status of the item to the requested one and appends one audit entry
    whose action is that status. *)
Theorem update_post_status_unconditional (now : string) (id : Z) (st : string)
    (ab aty rr em : option string) (d : Db.DB) (p : Db.Post) :
  Db.get_post id d = Some p ->
  exists d',
    Db.update_post_status now id st ab aty rr em d = Some d'
    /\ (Db.status <$> Db.get_post id d') = Some st
    /\ Db.audit_log d' = Db.audit_log d ++ [Db.mkAudit id st (Db.DStatus ab aty rr) now]
    /\ status_trail id d' = status_trail id d ++ [st].
Proof.
  intros Hp.
  destruct (update_post_status_existing now id st ab aty rr em d p Hp)
    as (d' & Hd' & Hget & _ & Haudit).
  exists d'. repeat split; try assumption.
  - now rewrite Hget.
  - unfold status_trail, Db.audit_of. rewrite Haudit.
    rewrite !List.filter_app, List.map_app. simpl. now rewrite Z.eqb_refl.
Qed.

Lemma update_post_status_unconditional_witness :
  exists d',
    Db.update_post_status "2024-01-01T10:00:00+00:00" 1 "rejected"
      None None (Some "no") None Demo.db_posting = Some d'
    /\ (Db.status <$> Db.get_post 1 d') = Some "rejected"
    /\ Db.audit_log d'
       = Db.audit_log Demo.db_posting
         ++ [Db.mkAudit 1 "rejected" (Db.DStatus None None (Some "no"))
               "2024-01-01T10:00:00+00:00"]
    /\ status_trail 1 d' = status_trail 1 Demo.db_posting ++ ["rejected"].
Proof.
  apply (update_post_status_unconditional _ 1 "rejected" None None (Some "no") None
           Demo.db_posting
           (Db.set_post_status "2024-01-01T09:02:00+00:00" "posting" None None None None
              (Db.set_post_status "2024-01-01T09:01:00+00:00" "approved"
                 (Some "telegram_user") (Some "manual") None None
                 (Demo.row 1 "Topic" "Summary" "" "" "pending" "normal"
                    "2024-01-01T09:00:00+00:00" None)))).
  reflexivity.
Defined.

(** ** C8: the completion stamp *)

(** C8, counterexample: the post of [Demo.db_posting] enters failed and its
    [completed_at] stays empty. *)
Lemma failed_leaves_completed_at_empty :
  exists d',
    Db.update_post_status "2024-01-01T10:00:00+00:00" 1 "failed"
      None None None None Demo.db_posting = Some d'
    /\ (Db.status <$> Db.get_post 1 d') = Some "failed"
    /\ (Db.completed_at <$> Db.get_post 1 d') = Some None.
Proof. eexists. repeat split. Qed.

(** C8, amended: whenever [update_post_status] moves an item into completed
    or partial_failure, [completed_at] is set to the time of that call;
    moving it into failed leaves [completed_at] as it was. *)
Theorem completed_at_stamped (now : string) (id : Z) (st : string)
    (ab aty rr em : option string) (d : Db.DB) (p : Db.Post) :
  Db.get_post id d = Some p ->
  exists d' p',
    Db.update_post_status now id st ab aty rr em d = Some d'
    /\ Db.get_post id d' = Some p'
    /\ Db.status p' = st
    /\ (st = "completed" \/ st = "partial_failure" -> Db.completed_at p' = Some now)
    /\ (st = "failed" -> Db.completed_at p' = Db.completed_at p).
Proof.
  intros Hp.
  destruct (update_post_status_existing now id st ab aty rr em d p Hp)
    as (d' & Hd' & Hget & _).
  exists d', (Db.set_post_status now st ab aty rr em p).
  repeat split; try assumption.
  - intros [-> | ->]; reflexivity.
  - intros ->; reflexivity.
Qed.

Lemma completed_at_stamped_witness :
  exists d' p',
    Db.update_post_status "2024-01-01T10:00:00+00:00" 1 "completed"
      None None None None Demo.db_posting = Some d'
    /\ Db.get_post 1 d' = Some p'
    /\ Db.status p' = "completed"
    /\ ("completed" = "completed" \/ "completed" = "partial_failure" ->
        Db.completed_at p' = Some "2024-01-01T10:00:00+00:00")
    /\ ("completed" = "failed" ->
        Db.completed_at p'
        = Db.completed_at
            (Db.set_post_status "2024-01-01T09:02:00+00:00" "posting" None None None None
              (Db.set_post_status "2024-01-01T09:01:00+00:00" "approved"
                 (Some "telegram_user") (Some "manual") None None
                 (Demo.row 1 "Topic" "Summary" "" "" "pending" "normal"
                    "2024-01-01T09:00:00+00:00" None)))).
Proof.
  apply (completed_at_stamped _ 1 "completed" None None None None Demo.db_posting).
  reflexivity.
Defined.

(** ** C7: the approved posts that are due *)

Lemma rank_ltb_trans (a b c : option nat) :
  Db.rank_ltb a b = true -> Db.rank_ltb b c = true -> Db.rank_ltb a c = true.
Proof.
  destruct a, b, c; simpl; try congruence.
  rewrite !Nat.ltb_lt. lia.
Qed.

Lemma rank_eqb_eq (a b : option nat) : Db.rank_eqb a b = true <-> a = b.
Proof.
  destruct a, b; simpl; try (split; congruence).
  rewrite Nat.eqb_eq. split; congruence.
Qed.

Lemma rank_trichotomy (a b : option nat) :
  Db.rank_ltb a b = true \/ a = b \/ Db.rank_ltb b a = true.
Proof.
  destruct a as [x|], b as [y|]; simpl; auto.
  destruct (Nat.lt_trichotomy x y) as [H | [H | H]].
  - left. now apply Nat.ltb_lt.
  - right. left. now subst.
  - right. right. now apply Nat.ltb_lt.
Qed.

Lemma string_leb_trans (a b c : string) :
  String.leb a b = true -> String.leb b c = true -> String.leb a c = true.
Proof.
  intros H1 H2. apply Is_true_true.
  change (String.le a c). transitivity b; apply Is_true_true; assumption.
Qed.

(** The ORDER BY clause spelled out. *)
Lemma pending_le_iff (p q : Db.Post) :
  Db.pending_le p q <->
  Db.rank_ltb (Db.priority_rank (Db.priority p)) (Db.priority_rank (Db.priority q)) = true
  \/ (Db.priority_rank (Db.priority p) = Db.priority_rank (Db.priority q)
      /\ String.leb (Db.created_at p) (Db.created_at q) = true).
Proof.
  unfold Db.pending_le, Db.pending_leb.
  rewrite orb_true_iff, andb_true_iff, rank_eqb_eq. reflexivity.
Qed.

Lemma pending_le_total : Total Db.pending_le.
Proof.
  intros p q. rewrite !pending_le_iff.
  destruct (rank_trichotomy (Db.priority_rank (Db.priority p))
              (Db.priority_rank (Db.priority q))) as [H | [H | H]]; auto.
  destruct (String.leb_total (Db.created_at p) (Db.created_at q)); auto.
Qed.

#[global] Existing Instance pending_le_total.

Lemma pending_le_trans : Transitive Db.pending_le.
Proof.
  intros p q r. rewrite !pending_le_iff.
  intros [H1 | [E1 L1]] [H2 | [E2 L2]].
  - left. eapply rank_ltb_trans; eassumption.
  - left. now rewrite <- E2.
  - left. now rewrite E1.
  - right. split; [congruence|]. eapply string_leb_trans; eassumption.
Qed.

#[global] Existing Instance pending_le_trans.

Lemma StronglySorted_weaken {A} (R1 R2 : A -> A -> Prop) (l : list A) :
  (forall x y, R1 x y -> R2 x y) -> StronglySorted R1 l -> StronglySorted R2 l.
Proof.
  intros HR. induction 1 as [|x l Hl IH Hx]; constructor; [exact IH|].
  eapply List.Forall_impl; [|exact Hx]. intros y. apply HR.
Qed.

(** The order of the test [test_priority_ordering]. *)
Example priority_ordering :
  List.map Db.topic
    (Db.get_pending_posts "2024-01-01T12:00:00+00:00"
       (Db.mkDB
          [Demo.row 1 "Low" "S" "" "" "approved" "low" "2024-01-01T09:00:00+00:00" None;
           Demo.row 2 "High" "S" "" "" "approved" "high" "2024-01-01T09:00:01+00:00" None;
           Demo.row 3 "Normal" "S" "" "" "approved" "normal" "2024-01-01T09:00:02+00:00" None;
           Demo.row 4 "Later" "S" "" "" "approved" "high" "2024-01-01T09:00:03+00:00"
             (Some "2024-01-02T00:00:00+00:00");
           Demo.row 5 "Pending" "S" "" "" "pending" "high" "2024-01-01T09:00:04+00:00" None;
           Demo.row 6 "High too" "S" "" "" "auto_approved" "high"
             "2024-01-01T08:00:00+00:00" None]
          [] [] 6))
  = ["High too"; "High"; "Normal"; "Low"].
Proof. vm_compute. reflexivity. Qed.

(** C7: [get_pending_posts] returns exactly the rows whose status is
    approved or auto_approved and whose [scheduled_for] is empty or not after
    [now], each once; they are ordered by priority, high before normal before
    low, and within one priority by ascending [created_at]; a row scheduled
    after [now] is not returned. Times are compared as the stored text. *)
Theorem get_pending_posts_ready_and_ordered (now : string) (d : Db.DB) :
  Db.get_pending_posts now d
    ≡ₚ List.filter (fun p => Db.is_approved p && Db.is_due now p) (Db.posts d)
  /\ (forall p, In p (Db.get_pending_posts now d) <->
        In p (Db.posts d)
        /\ (Db.status p = "approved" \/ Db.status p = "auto_approved")
        /\ (Db.scheduled_for p = None
            \/ exists t, Db.scheduled_for p = Some t /\ String.leb t now = true))
  /\ StronglySorted
       (fun p q =>
          Db.rank_ltb (Db.priority_rank (Db.priority p))
                      (Db.priority_rank (Db.priority q)) = true
          \/ (Db.priority_rank (Db.priority p) = Db.priority_rank (Db.priority q)
              /\ String.leb (Db.created_at p) (Db.created_at q) = true))
       (Db.get_pending_posts now d)
  /\ (Db.rank_ltb (Db.priority_rank "high") (Db.priority_rank "normal") = true
      /\ Db.rank_ltb (Db.priority_rank "normal") (Db.priority_rank "low") = true)
  /\ (forall p t, Db.scheduled_for p = Some t -> String.ltb now t = true ->
        ~ In p (Db.get_pending_posts now d)).
Proof.
  assert (Hperm : Db.get_pending_posts now d
            ≡ₚ List.filter (fun p => Db.is_approved p && Db.is_due now p) (Db.posts d))
    by apply merge_sort_Permutation.
  assert (Hin : forall p, In p (Db.get_pending_posts now d) <->
        In p (Db.posts d)
        /\ (Db.status p = "approved" \/ Db.status p = "auto_approved")
        /\ (Db.scheduled_for p = None
            \/ exists t, Db.scheduled_for p = Some t /\ String.leb t now = true)).
  { intros p.
    transitivity (In p (List.filter (fun p => Db.is_approved p && Db.is_due now p)
                          (Db.posts d))).
    { rewrite <- !list_elem_of_In. now rewrite Hperm. }
    rewrite List.filter_In, andb_true_iff. unfold Db.is_approved, Db.is_due.
    rewrite orb_true_iff, !String.eqb_eq.
    destruct (Db.scheduled_for p) as [t|].
    - split.
      + intros (H1 & H2 & H3). split; [exact H1|]. split; [exact H2|].
        right. exists t. split; [reflexivity|exact H3].
      + intros (H1 & H2 & [H3 | (t' & H3 & H4)]); [discriminate|].
        injection H3 as <-. auto.
    - split.
      + intros (H1 & H2 & _). auto.
      + intros (H1 & H2 & _). auto. }
  split; [exact Hperm|]. split; [exact Hin|]. split; [|split; [split; reflexivity|]].
  - eapply StronglySorted_weaken; [|apply (StronglySorted_merge_sort Db.pending_le)].
    intros p q H. now apply pending_le_iff.
  - intros p t Ht Hlt Hp. apply Hin in Hp as (_ & _ & [Hn | (t' & Ht' & Hle)]).
    + congruence.
    + rewrite Ht in Ht'. injection Ht' as <-.
      unfold String.ltb, String.leb in *. rewrite String.compare_antisym in Hle.
      destruct (String.compare now t); simpl in *; congruence.
Qed.

(** ** C5: a decision for a request that is gone *)

(** C5: when the handle is not in [_pending_approvals], [process_callback]
    changes nothing: the tables, the audit trail and the trace are as before,
    so no continuation ran and no status moved; and for callback data that
    carries an id, as every button of a request does, it returns without an
    exception. *)
Theorem late_decision_dropped (w : World) (call : Callback -> Z -> M unit)
    (callback_data : string) (msg_id : Z) (s : State) :
  pending_approvals s !! msg_id = None ->
  snd (Telegram.process_callback w call callback_data msg_id s) = s
  /\ (forall p n, Py.split ":" callback_data !! 1%nat = Some p -> py_int w p = Some n ->
        Telegram.process_callback w call callback_data msg_id s = (Ret tt, s)).
Proof.
  intros Hgone. unfold Telegram.process_callback, Telegram.parse_callback, bind, gets.
  destruct (Py.split ":" callback_data !! 1%nat) as [p|] eqn:Hp.
  - destruct (py_int w p) as [n|] eqn:Hn.
    + unfold ret at 1. simpl. rewrite Hgone. split; [reflexivity|].
      intros p' n' _ _. reflexivity.
    + split; [reflexivity|]. intros p' n' [= <-] Hn'. congruence.
  - split; [reflexivity|]. intros p' n' [=].
Qed.

Lemma late_decision_dropped_witness :
  snd (Telegram.process_callback Demo.silent_world (Poster.run_callback Demo.silent_world)
         "approve:1" 42 Demo.after_info_click) = Demo.after_info_click
  /\ (forall p n, Py.split ":" "approve:1" !! 1%nat = Some p ->
        py_int Demo.silent_world p = Some n ->
        Telegram.process_callback Demo.silent_world (Poster.run_callback Demo.silent_world)
          "approve:1" 42 Demo.after_info_click = (Ret tt, Demo.after_info_click)).
Proof.
  apply (late_decision_dropped Demo.silent_world (Poster.run_callback Demo.silent_world)
           "approve:1" 42 Demo.after_info_click).
  vm_compute. reflexivity.
Defined.

(** ** C4: the third button of an approval request *)

(** C4, the failing input evaluated: a request is pending with its timer
    armed; the click on the button with callback data [info:1] cancels the
    timer and removes the request without calling a continuation; after it
    neither the timer nor a click on Approve does anything, so no continuation
    is ever called and the post stays pending. *)
Lemma info_click_runs_no_continuation :
  (timer <$> pending_approvals Demo.awaiting_approval !! 42)
    = Some (Some (mkTimer 42 1 poster_on_approved))
  /\ pending_approvals Demo.after_info_click !! 42 = None
  /\ elements (cancelled_timers Demo.after_info_click) = [42]
  /\ continuation_calls (events Demo.after_info_click) = []
  /\ continuation_calls (events Demo.after_everything_else) = []
  /\ (Db.status <$> Db.get_post 1 (db Demo.after_everything_else)) = Some "pending".
Proof. vm_compute. repeat split. Qed.

(** ** Relations that a computation respects *)

Lemma same_refl {X} (f : State -> X) : Reflexive (same f).
Proof. intros s. reflexivity. Qed.

#[global] Existing Instance same_refl.

Lemma same_trans {X} (f : State -> X) : Transitive (same f).
Proof. intros s1 s2 s3 H1 H2. unfold same in *. congruence. Qed.

#[global] Existing Instance same_trans.

Section Respects.
Context (R : State -> State -> Prop) `{!Reflexive R, !Transitive R}.

Lemma respects_ret {A} (a : A) : respects R (ret a).
Proof. intros s. reflexivity. Qed.

Lemma respects_raise {A} (e : string) : respects R (@raise A e).
Proof. intros s. reflexivity. Qed.

Lemma respects_gets {A} (f : State -> A) : respects R (gets f).
Proof. intros s. reflexivity. Qed.

Lemma respects_lift {A} (o : outcome A) : respects R (lift o).
Proof. intros s. reflexivity. Qed.

Lemma respects_modify (f : State -> State) :
  (forall s, R s (f s)) -> respects R (modify f).
Proof. intros H s. apply H. Qed.

Lemma respects_bind {A B} (m : M A) (k : A -> M B) :
  respects R m -> (forall a, respects R (k a)) -> respects R (bind m k).
Proof.
  intros Hm Hk s. unfold bind. specialize (Hm s).
  destruct (m s) as [[a|e] s1]; simpl in *; [|exact Hm].
  etransitivity; [exact Hm|apply Hk].
Qed.

Lemma respects_try_except {A} (m : M A) (h : string -> M A) :
  respects R m -> (forall e, respects R (h e)) -> respects R (try_except m h).
Proof.
  intros Hm Hh s. unfold try_except. specialize (Hm s).
  destruct (m s) as [[a|e] s1]; simpl in *; [exact Hm|].
  etransitivity; [exact Hm|apply Hh].
Qed.

Lemma respects_for_each {A B} (body : A -> B -> M B) (xs : list A) :
  (forall x acc, respects R (body x acc)) ->
  forall acc, respects R (for_each body xs acc).
Proof.
  intros Hbody. induction xs as [|x xs IH]; intros acc; simpl.
  - apply respects_ret.
  - apply respects_bind; [apply Hbody|apply IH].
Qed.

(** The primitive steps, from what [R] allows. *)
Context (Rtick : forall s, R s (tick s)).

Lemma respects_db_read {A} (w : World) (f : string -> Db.DB -> A) :
  respects R (db_read w f).
Proof.
  intros s. unfold db_read. destruct (db_fault w (ticks s)); apply Rtick.
Qed.

Lemma respects_db_write (w : World) (f : string -> Db.DB -> option Db.DB) :
  (forall now s d', f now (db s) = Some d' -> R s (set_db d' s)) ->
  respects R (db_write w f).
Proof.
  intros Hf s. unfold db_write.
  destruct (db_fault w (ticks s)); [apply Rtick|].
  destruct (f _ _) eqn:E; simpl; [|apply Rtick].
  etransitivity; [apply (Hf _ _ _ E)|apply Rtick].
Qed.

(** [R] allows the writes of [update_post_status], the events other than
    channel calls, and changes of the in-flight set. *)
Context (Rstatus : forall now id st a b c e s d',
            Db.update_post_status now id st a b c e (db s) = Some d' ->
            R s (set_db d' s)).
Context (Remit : forall ev s,
            match ev with EvChannelPost _ _ _ _ => False | _ => True end ->
            R s (add_event ev s)).
Context (Rinflight : forall g s, R s (set_posting_in_progress g s)).

Lemma respects_update_post_status (w : World) (id : Z) (st : string)
    (a b c e : option string) :
  respects R (update_post_status w id st a b c e).
Proof. apply respects_db_write. intros now s d'. apply Rstatus. Qed.

Lemma respects_emit (ev : Event) :
  match ev with EvChannelPost _ _ _ _ => False | _ => True end ->
  respects R (emit ev).
Proof. intros H s. apply Remit, H. Qed.

Section Body.
Context (w : World) (id : Z).

(** The loop over the enabled platforms is taken as given. *)
Context (Rloop : forall post imgs acc,
            respects R
              (for_each (Poster.post_to_platform w id post imgs)
                 (Platforms.get_all_enabled (ENABLED_PLATFORMS w) (_REGISTRY w))
                 acc)).

Lemma respects_conclude (tally : Poster.Tally) :
  respects R (Poster.conclude w id tally).
Proof.
  unfold Poster.conclude.
  repeat first
    [ apply respects_bind; [|intros ?]
    | apply respects_update_post_status
    | apply respects_emit; exact I
    | match goal with |- respects _ (if ?b then _ else _) => destruct b end ].
Qed.

Lemma respects_report (tally : Poster.Tally) :
  respects R (Poster.report w id tally).
Proof.
  unfold Poster.report, get_post, Poster.slack_send_result,
    Poster.telegram_send_summary.
  repeat first
    [ apply respects_bind; [|intros ?]
    | apply respects_db_read
    | apply respects_emit; exact I
    | apply respects_ret
    | apply respects_raise
    | match goal with
      | |- respects _ (match ?x with _ => _ end) => destruct x
      end ].
Qed.

Lemma respects_dispatch : respects R (Poster.dispatch w id).
Proof.
  unfold Poster.dispatch, get_post, Poster.process_media.
  repeat first
    [ apply respects_conclude
    | apply respects_report
    | apply respects_bind; [|intros ?]
    | apply respects_update_post_status
    | apply respects_db_read
    | apply respects_emit; exact I
    | apply respects_ret
    | apply respects_raise
    | apply respects_lift
    | apply Rloop
    | match goal with
      | |- respects _ (if ?b then _ else _) => destruct b
      | |- respects _ (match ?x with _ => _ end) => destruct x
      end ].
Qed.

Lemma respects_crashed (e : string) : respects R (Poster.crashed w id e).
Proof.
  unfold Poster.crashed.
  apply respects_bind; [apply respects_update_post_status|].
  intros ?. apply respects_emit. exact I.
Qed.

Lemma respects_do_post : respects R (Poster._do_post w id).
Proof.
  intros s. unfold Poster._do_post, bind, gets, modify, try_finally. simpl.
  destruct (decide (id ∈ posting_in_progress s)); [reflexivity|].
  pose proof (respects_try_except _ _ respects_dispatch respects_crashed
                (set_posting_in_progress (posting_in_progress s ∪ {[id]}) s)) as H.
  destruct (try_except (Poster.dispatch w id) (Poster.crashed w id) _) as [o s2].
  simpl in *.
  etransitivity; [apply Rinflight|]. etransitivity; [exact H|apply Rinflight].
Qed.

End Body.

(** With the writes of [update_platform_status] and every event allowed as
    well, the loop needs no assumption. *)
Context (Rplatform : forall now id name st a b e s d',
            Db.update_platform_status now id name st a b e (db s) = Some d' ->
            R s (set_db d' s)).
Context (Revent : forall ev s, R s (add_event ev s)).

Lemma respects_post_to_platform (w : World) (id : Z) (post : Db.Post)
    (imgs : gmap string (option string)) (np : string * Platforms.Platform)
    (acc : Poster.Tally) :
  respects R (Poster.post_to_platform w id post imgs np acc).
Proof.
  assert (Hw : forall name st a b e,
             respects R (update_platform_status w id name st a b e)).
  { intros. apply respects_db_write. intros now s d'. apply Rplatform. }
  assert (He : forall ev, respects R (emit ev)).
  { intros ev s. apply Revent. }
  unfold Poster.post_to_platform.
  repeat first
    [ apply respects_bind; [|intros ?]
    | apply Hw
    | apply He
    | apply respects_ret
    | match goal with |- respects _ (if ?b then _ else _) => destruct b end ].
Qed.

Lemma respects_loop (w : World) (id : Z) (post : Db.Post)
    (imgs : gmap string (option string)) (chans : list (string * Platforms.Platform))
    (acc : Poster.Tally) :
  respects R (for_each (Poster.post_to_platform w id post imgs) chans acc).
Proof. apply respects_for_each. intros. apply respects_post_to_platform. Qed.

End Respects.

(** ** C3: the in-flight guard *)

Lemma discard_added (X : gset Z) (id : Z) : id ∉ X -> (X ∪ {[id]}) ∖ {[id]} = X.
Proof.
  intros H. apply set_eq. intros x.
  rewrite elem_of_difference, elem_of_union, elem_of_singleton.
  split; [tauto|]. intros Hx. split; [auto|]. intros ->. contradiction.
Qed.

Lemma body_keeps_in_progress (w : World) (id : Z) :
  respects (same posting_in_progress)
    (try_except (Poster.dispatch w id) (Poster.crashed w id)).
Proof.
  apply respects_try_except; try apply _.
  - apply respects_dispatch; try apply _; try (intros; reflexivity).
    intros. apply respects_loop; try apply _; intros; reflexivity.
  - intros e. apply respects_crashed; try apply _; intros; reflexivity.
Qed.

(** C3: a call of [_do_post] for an id that is in [_posting_in_progress]
    returns at once: no exception, and the state (tables, audit trail, trace
    of channel calls) is untouched. A call that passes the guard removes the
    id from the set on every way out, with or without an exception, and
    leaves the other members as they were. *)
Theorem in_flight_guard (w : World) (id : Z) (s : State) :
  (id ∈ posting_in_progress s -> Poster._do_post w id s = (Ret tt, s))
  /\ (id ∉ posting_in_progress s ->
      (id ∉ posting_in_progress (snd (Poster._do_post w id s)))
      /\ posting_in_progress (snd (Poster._do_post w id s)) = posting_in_progress s).
Proof.
  unfold Poster._do_post, bind, gets, modify, try_finally. simpl. split; intros Hid.
  - destruct (decide (id ∈ posting_in_progress s)); [reflexivity|contradiction].
  - destruct (decide (id ∈ posting_in_progress s)); [contradiction|].
    pose proof (body_keeps_in_progress w id
                  (set_posting_in_progress (posting_in_progress s ∪ {[id]}) s)) as Hkeep.
    unfold same in Hkeep. simpl in Hkeep.
    destruct (try_except (Poster.dispatch w id) (Poster.crashed w id)
                (set_posting_in_progress (posting_in_progress s ∪ {[id]}) s))
      as [o s2]. simpl in *. rewrite Hkeep, (discard_added _ _ Hid). auto.
Qed.

Lemma in_flight_guard_witness :
  Poster._do_post Demo.silent_world 1 Demo.dispatching = (Ret tt, Demo.dispatching)
  /\ ((1 ∉ posting_in_progress
            (snd (Poster._do_post Demo.failing_storage_world 1 (Demo.state_of Demo.db_posting))))
      /\ posting_in_progress
           (snd (Poster._do_post Demo.failing_storage_world 1 (Demo.state_of Demo.db_posting)))
         = posting_in_progress (Demo.state_of Demo.db_posting)).
Proof.
  split.
  - apply (proj1 (in_flight_guard Demo.silent_world 1 Demo.dispatching)).
    simpl. now apply elem_of_singleton.
  - apply (proj2 (in_flight_guard Demo.failing_storage_world 1
                    (Demo.state_of Demo.db_posting))).
    simpl. apply not_elem_of_empty.
Defined.

(** The run of the witness leaves [_do_post] through the [except] clause,
    whose own database call raises as well. *)
Example failing_storage_run :
  fst (Poster._do_post Demo.failing_storage_world 1 (Demo.state_of Demo.db_posting))
  = Raise "database is locked".
Proof. vm_compute. reflexivity. Qed.

(** ** Steps of a run *)

Lemma bind_ret_run {A B} (m : M A) (k : A -> M B) (s s1 : State) (a : A) :
  m s = (Ret a, s1) -> bind m k s = k a s1.
Proof. intros H. unfold bind. now rewrite H. Qed.

Lemma bind_raise_run {A B} (m : M A) (k : A -> M B) (s s1 : State) (e : string) :
  m s = (Raise e, s1) -> bind m k s = (Raise e, s1).
Proof. intros H. unfold bind. now rewrite H. Qed.

(** ** The handle of a request is used once *)

Lemma do_post_keeps_pending (w : World) (id : Z) :
  respects (same pending_approvals) (Poster._do_post w id).
Proof.
  apply respects_do_post; try apply _; try (intros; reflexivity).
  intros. apply respects_loop; try apply _; intros; reflexivity.
Qed.

Lemma run_callback_keeps_pending (w : World) (cb : Callback) (id : Z) :
  respects (same pending_approvals) (Poster.run_callback w cb id).
Proof.
  destruct cb; simpl.
  - apply do_post_keeps_pending.
  - unfold Poster._on_rejected. apply respects_bind; try apply _.
    + apply respects_db_read; try apply _. intros; reflexivity.
    + intros [p|]; intros s; reflexivity.
Qed.

Lemma invoke_keeps_pending (w : World) (cb : Callback) (id : Z) :
  respects (same pending_approvals) (Telegram.invoke (Poster.run_callback w) cb id).
Proof.
  unfold Telegram.invoke. apply respects_bind; try apply _.
  - intros s. reflexivity.
  - intros _. apply run_callback_keeps_pending.
Qed.

Lemma approve_keeps_pending (w : World) (msg_id id : Z) (note st : string)
    (a b c : option string) (cb : Callback) :
  respects (same pending_approvals)
    (Telegram.edit_message msg_id note id ;;;
     update_post_status w id st a b c None ;;;
     Telegram.invoke (Poster.run_callback w) cb id).
Proof.
  apply respects_bind; try apply _; [intros s; reflexivity|]. intros _.
  apply respects_bind; try apply _.
  - apply respects_update_post_status; try apply _; intros; reflexivity.
  - intros _. apply invoke_keeps_pending.
Qed.

(** The timer function does nothing for a handle that is gone. *)
Lemma auto_approve_after_resolution (w : World) (call : Callback -> Z -> M unit)
    (msg_id post_id : Z) (cb : Callback) (s : State) :
  pending_approvals s !! msg_id = None ->
  Telegram._auto_approve w call msg_id post_id cb s = (Ret tt, s).
Proof.
  intros H. unfold Telegram._auto_approve, bind, gets. simpl. now rewrite H.
Qed.

(** After the timer function the handle is gone. *)
Lemma auto_approve_removes_handle (w : World) (msg_id post_id : Z) (cb : Callback)
    (s : State) :
  pending_approvals (snd (Poster._auto_approve w msg_id post_id cb s)) !! msg_id = None.
Proof.
  unfold Poster._auto_approve, Telegram._auto_approve, bind at 1, gets. simpl.
  destruct (pending_approvals s !! msg_id) eqn:E; [|exact E].
  unfold bind at 1, modify.
  rewrite (approve_keeps_pending w msg_id post_id "auto_approved" "auto_approved"
             (Some "system") (Some "timeout") None cb _).
  simpl. apply lookup_delete_eq.
Qed.

(** After a click whose callback data carries an id the handle is gone,
    whatever the action. *)
Lemma click_removes_handle (w : World) (callback_data p : string) (n msg_id : Z)
    (s : State) :
  Py.split ":" callback_data !! 1%nat = Some p ->
  py_int w p = Some n ->
  pending_approvals (snd (Poster.process_callback w callback_data msg_id s)) !! msg_id
  = None.
Proof.
  intros Hp Hn.
  unfold Poster.process_callback, Telegram.process_callback, Telegram.parse_callback.
  rewrite Hp, Hn. unfold bind at 1, ret at 1. unfold bind at 1, gets. simpl.
  destruct (pending_approvals s !! msg_id) as [a|] eqn:E; [|exact E].
  assert (Hcancel : forall s0,
            pending_approvals
              (snd ((match timer a with
                     | Some t => Telegram.cancel t
                     | None => ret tt
                     end) s0)) = pending_approvals s0
            /\ exists s1, (match timer a with
                           | Some t => Telegram.cancel t
                           | None => ret tt
                           end) s0 = (Ret tt, s1)).
  { intros s0. destruct (timer a); simpl; split; try reflexivity; eexists; reflexivity. }
  destruct (Hcancel s) as [Hsame [s1 Hs1]]. rewrite Hs1 in Hsame. simpl in Hsame.
  rewrite (bind_ret_run _ _ _ _ _ Hs1).
  unfold bind at 1, modify.
  destruct (String.eqb (List.hd EmptyString (Py.split ":" callback_data)) "approve").
  - rewrite (approve_keeps_pending w msg_id n "approved" "approved"
               (Some "telegram_user") (Some "manual") None (on_approved a) _).
    simpl. apply lookup_delete_eq.
  - destruct (String.eqb (List.hd EmptyString (Py.split ":" callback_data)) "reject").
    + rewrite (approve_keeps_pending w msg_id n "rejected" "rejected"
                 None None (Some "Manually rejected via Telegram") (on_rejected a) _).
      simpl. apply lookup_delete_eq.
    + simpl. apply lookup_delete_eq.
Qed.

(** ** Running the dispatch when the storage answers *)

Lemma run_get_post (w : World) (id : Z) (s : State) :
  db_fault w (ticks s) = None ->
  get_post w id s = (Ret (Db.get_post id (db s)), tick s).
Proof. intros H. unfold get_post, db_read. now rewrite H. Qed.

Lemma run_update_post_status (w : World) (id : Z) (st : string)
    (a b c e : option string) (s : State) (p : Db.Post) :
  db_fault w (ticks s) = None ->
  Db.get_post id (db s) = Some p ->
  exists d',
    update_post_status w id st a b c e s = (Ret tt, tick (set_db d' s))
    /\ Db.get_post id d' = Some (Db.set_post_status (clock w (ticks s)) st a b c e p)
    /\ Db.platform_posts d' = Db.platform_posts (db s)
    /\ Db.audit_log d'
       = Db.audit_log (db s) ++ [Db.mkAudit id st (Db.DStatus a b c) (clock w (ticks s))].
Proof.
  intros Hf Hp.
  destruct (update_post_status_existing (clock w (ticks s)) id st a b c e (db s) p Hp)
    as (d' & Hd' & Hrest).
  exists d'. split; [|exact Hrest].
  unfold update_post_status, db_write. now rewrite Hf, Hd'.
Qed.

Lemma run_update_platform_status (w : World) (id : Z) (name st : string)
    (a b e : option string) (s : State) :
  db_fault w (ticks s) = None ->
  Db.post_exists id (db s) = true ->
  update_platform_status w id name st a b e s
  = (Ret tt,
     tick (set_db
             (Db.mkDB (Db.posts (db s))
                (List.map (fun r =>
                   if (Db.pp_post_id r =? id) && String.eqb (Db.pp_platform r) name
                   then Db.set_platform_status (clock w (ticks s)) st a b e r
                   else r) (Db.platform_posts (db s)))
                (Db.audit_log (db s)
                   ++ [Db.mkAudit id ("platform_" +:+ st) (Db.DPlatform name a e)
                         (clock w (ticks s))])
                (Db.last_post_id (db s))) s)).
Proof.
  intros Hf Hex. unfold update_platform_status, db_write, Db.update_platform_status.
  now rewrite Hf, Hex.
Qed.

Lemma run_process_media (w : World) (post : Db.Post) :
  media_returns w ->
  exists imgs, forall s, Poster.process_media w post s = (Ret imgs, s).
Proof.
  intros Hmedia. unfold Poster.process_media.
  destruct (Py.truthy (Db.image_url post)).
  - destruct (Hmedia (Db.image_url post)) as [imgs Himgs]. exists imgs.
    intros s. unfold lift. now rewrite Himgs.
  - exists ∅. reflexivity.
Qed.

(** The dispatch of an existing post with no platform enabled. *)
Lemma dispatch_empty_run (w : World) (id : Z) (s : State) (post : Db.Post) :
  Platforms.get_all_enabled (ENABLED_PLATFORMS w) (_REGISTRY w) = [] ->
  no_db_faults w -> media_returns w -> summaries_return w ->
  Db.get_post id (db s) = Some post ->
  exists s',
    Poster.dispatch w id s = (Ret tt, s')
    /\ (Db.status <$> Db.get_post id (db s')) = Some "completed".
Proof.
  intros Hen Hnf Hmedia Hsum Hpost. unfold Poster.dispatch.
  rewrite (bind_ret_run _ _ _ _ _ (run_get_post w id s (Hnf _))), Hpost.
  destruct (run_update_post_status w id "posting" None None None None (tick s) post
              (Hnf _) Hpost) as (d1 & Hrun1 & Hget1 & _).
  rewrite (bind_ret_run _ _ _ _ _ Hrun1).
  destruct (run_process_media w post Hmedia) as [imgs Himgs].
  rewrite (bind_ret_run _ _ _ _ _ (Himgs _)), Hen.
  rewrite (bind_ret_run _ _ _ _ (Poster.mkTally [] 0 0) eq_refl).
  unfold Poster.conclude, Poster.report.
  cbn [Poster.success_count Poster.total_count Poster.results Z.eqb].
  destruct (run_update_post_status w id "completed" None None None None
              (tick (set_db d1 (tick s))) _ (Hnf _) Hget1) as (d2 & Hrun2 & Hget2 & _).
  rewrite (bind_ret_run _ _ _ _ _ Hrun2).
  rewrite (bind_ret_run _ _ _ _ _ (run_get_post w id _ (Hnf _))).
  cbn [db tick set_db]. rewrite Hget2.
  destruct (Hsum id) as [Hslack Htele].
  unfold Poster.slack_send_result, Poster.telegram_send_summary.
  rewrite Hslack, Htele.
  eexists. split; [reflexivity|].
  cbn. rewrite Hget2. reflexivity.
Qed.

(** ** C10: no platform enabled *)

Lemma update_post_status_frame (now : string) (id : Z) (st : string)
    (a b c e : option string) (d d' : Db.DB) :
  Db.update_post_status now id st a b c e d = Some d' ->
  Db.platform_posts d' = Db.platform_posts d /\ channel_audit d' = channel_audit d.
Proof.
  unfold Db.update_post_status. destruct (Db.post_exists id d); [|discriminate].
  intros [= <-]. split; [reflexivity|].
  unfold channel_audit. simpl. rewrite List.filter_app. simpl. apply app_nil_r.
Qed.

Lemma channel_posts_other (ev : Event) (evs : list Event) :
  match ev with EvChannelPost _ _ _ _ => False | _ => True end ->
  channel_posts (evs ++ [ev]) = channel_posts evs.
Proof.
  intros H. unfold channel_posts. rewrite List.filter_app. simpl.
  destruct ev; try apply app_nil_r. contradiction.
Qed.

(** With no platform enabled a call of [_do_post] calls no adapter and
    writes nothing about channels, whatever else happens. *)
Lemma empty_dispatch_is_silent (w : World) (id : Z) :
  Platforms.get_all_enabled (ENABLED_PLATFORMS w) (_REGISTRY w) = [] ->
  respects (same (fun s => channel_posts (events s))) (Poster._do_post w id)
  /\ respects (same (fun s => Db.platform_posts (db s))) (Poster._do_post w id)
  /\ respects (same (fun s => channel_audit (db s))) (Poster._do_post w id).
Proof.
  intros Hen.
  assert (Hloop : forall (R : State -> State -> Prop), Reflexive R ->
            forall post imgs acc,
              respects R (for_each (Poster.post_to_platform w id post imgs)
                            (Platforms.get_all_enabled (ENABLED_PLATFORMS w) (_REGISTRY w))
                            acc)).
  { intros R HR post imgs acc. rewrite Hen. simpl. now apply respects_ret. }
  repeat split.
  - apply respects_do_post; try apply _; try (intros; reflexivity).
    + intros ev s H. unfold same. simpl. now apply channel_posts_other.
    + apply Hloop, _.
  - apply respects_do_post; try apply _; try (intros; reflexivity).
    + intros now id' st a b c e s d' H. unfold same. simpl.
      now apply update_post_status_frame in H as [-> _].
    + apply Hloop, _.
  - apply respects_do_post; try apply _; try (intros; reflexivity).
    + intros now id' st a b c e s d' H. unfold same. simpl.
      now apply update_post_status_frame in H as [_ ->].
    + apply Hloop, _.
Qed.

(** C10: when no platform is enabled, [_do_post] makes no channel call and
    records no channel outcome (the [platform_posts] rows and the channel
    entries of the audit trail are as before); and when the item exists, is
    not already being dispatched and nothing outside fails, the call returns
    and the item is completed. *)
Theorem empty_dispatch_completes (w : World) (id : Z) (s : State) (post : Db.Post) :
  Platforms.get_all_enabled (ENABLED_PLATFORMS w) (_REGISTRY w) = [] ->
  no_db_faults w -> media_returns w -> summaries_return w ->
  id ∉ posting_in_progress s ->
  Db.get_post id (db s) = Some post ->
  fst (Poster._do_post w id s) = Ret tt
  /\ (Db.status <$> Db.get_post id (db (snd (Poster._do_post w id s)))) = Some "completed"
  /\ channel_posts (events (snd (Poster._do_post w id s))) = channel_posts (events s)
  /\ Db.platform_posts (db (snd (Poster._do_post w id s))) = Db.platform_posts (db s)
  /\ channel_audit (db (snd (Poster._do_post w id s))) = channel_audit (db s).
Proof.
  intros Hen Hnf Hmedia Hsum Hid Hpost.
  destruct (empty_dispatch_is_silent w id Hen) as (H1 & H2 & H3).
  split; [|split; [|split; [apply H1|split; [apply H2|apply H3]]]].
  - unfold Poster._do_post, bind, gets, modify, try_finally, try_except. simpl.
    destruct (decide (id ∈ posting_in_progress s)); [contradiction|].
    destruct (dispatch_empty_run w id
                (set_posting_in_progress (posting_in_progress s ∪ {[id]}) s) post
                Hen Hnf Hmedia Hsum Hpost) as (s' & Hrun & _).
    now rewrite Hrun.
  - unfold Poster._do_post, bind, gets, modify, try_finally, try_except. simpl.
    destruct (decide (id ∈ posting_in_progress s)); [contradiction|].
    destruct (dispatch_empty_run w id
                (set_posting_in_progress (posting_in_progress s ∪ {[id]}) s) post
                Hen Hnf Hmedia Hsum Hpost) as (s' & Hrun & Hst).
    now rewrite Hrun.
Qed.

Lemma empty_dispatch_completes_witness :
  fst (Poster._do_post Demo.silent_world 1 (Demo.state_of Demo.db_approved)) = Ret tt
  /\ (Db.status <$> Db.get_post 1
        (db (snd (Poster._do_post Demo.silent_world 1 (Demo.state_of Demo.db_approved)))))
     = Some "completed"
  /\ channel_posts
       (events (snd (Poster._do_post Demo.silent_world 1 (Demo.state_of Demo.db_approved))))
     = channel_posts (events (Demo.state_of Demo.db_approved))
  /\ Db.platform_posts
       (db (snd (Poster._do_post Demo.silent_world 1 (Demo.state_of Demo.db_approved))))
     = Db.platform_posts (db (Demo.state_of Demo.db_approved))
  /\ channel_audit
       (db (snd (Poster._do_post Demo.silent_world 1 (Demo.state_of Demo.db_approved))))
     = channel_audit (db (Demo.state_of Demo.db_approved)).
Proof.
  apply (empty_dispatch_completes Demo.silent_world 1 (Demo.state_of Demo.db_approved)
           Demo.approved_post).
  - reflexivity.
  - intros n. reflexivity.
  - intros url. exists ∅. reflexivity.
  - intros id. split; reflexivity.
  - simpl. apply not_elem_of_empty.
  - reflexivity.
Defined.

(** Without credentials [config.py] enables no platform. *)
Example no_credentials_no_platforms :
  Config.ENABLED_PLATFORMS (Config.mkCredentials "" "" "" "" "" "" "" "") = [].
Proof. reflexivity. Qed.

(** ** The loop over the enabled platforms *)

Lemma set_platform_status_keys (now st : string) (a b e : option string)
    (r : Db.PlatformPost) (id : Z) (name : string) :
  is_row id name (Db.set_platform_status now st a b e r) = is_row id name r.
Proof. reflexivity. Qed.

Lemma record_outcome_keys (t1 t2 : string) (res : Platforms.PostResult)
    (r : Db.PlatformPost) (id : Z) (name : string) :
  is_row id name (record_outcome t1 t2 res r) = is_row id name r.
Proof. unfold record_outcome. destruct (Platforms.success res); reflexivity. Qed.

Lemma is_row_other (id : Z) (name name' : string) (r : Db.PlatformPost) :
  name' <> name -> is_row id name r = true -> is_row id name' r = false.
Proof.
  unfold is_row. intros Hne H. apply andb_true_iff in H as [_ H].
  apply String.eqb_eq in H. rewrite H.
  apply andb_false_iff. right. apply String.eqb_neq. congruence.
Qed.

Lemma filter_map_same (id : Z) (name : string)
    (g : Db.PlatformPost -> Db.PlatformPost) (l : list Db.PlatformPost) :
  (forall r, is_row id name (g r) = is_row id name r) ->
  List.filter (is_row id name) (List.map (fun r => if is_row id name r then g r else r) l)
  = List.map g (List.filter (is_row id name) l).
Proof.
  intros Hg. induction l as [|r l IH]; simpl; [reflexivity|].
  destruct (is_row id name r) eqn:E.
  - rewrite Hg, E. simpl. now rewrite IH.
  - now rewrite E.
Qed.

Lemma filter_map_other (id : Z) (name name' : string)
    (g : Db.PlatformPost -> Db.PlatformPost) (l : list Db.PlatformPost) :
  name' <> name ->
  (forall r, is_row id name' (g r) = is_row id name' r) ->
  List.filter (is_row id name') (List.map (fun r => if is_row id name r then g r else r) l)
  = List.filter (is_row id name') l.
Proof.
  intros Hne Hg. induction l as [|r l IH]; simpl; [reflexivity|].
  destruct (is_row id name r) eqn:E.
  - rewrite Hg, (is_row_other id name name' r Hne E). exact IH.
  - now rewrite IH.
Qed.

(** One round of the loop when the storage answers and the post exists. *)
Lemma round_run (w : World) (id : Z) (post : Db.Post)
    (imgs : gmap string (option string)) (np : string * Platforms.Platform)
    (acc : Poster.Tally) (s : State) :
  no_db_faults w ->
  Db.post_exists id (db s) = true ->
  exists s' t1 t2,
    Poster.post_to_platform w id post imgs np acc s
    = (Ret (Poster.tally_step (fst np) (Poster.channel_result post imgs np) acc), s')
    /\ Db.posts (db s') = Db.posts (db s)
    /\ channel_posts (events s')
       = channel_posts (events s) ++ [Poster.channel_call post imgs np]
    /\ Db.platform_posts (db s')
       = List.map (fun r => if is_row id (fst np) r
                            then record_outcome t1 t2 (Poster.channel_result post imgs np) r
                            else r) (Db.platform_posts (db s))
    /\ Db.audit_log (db s')
       = Db.audit_log (db s)
         ++ [Db.mkAudit id "platform_posting" (Db.DPlatform (fst np) None None) t1;
             outcome_entry id (fst np) t2 (Poster.channel_result post imgs np)].
Proof.
  intros Hnf Hex. unfold Poster.post_to_platform.
  rewrite (bind_ret_run _ _ _ _ _ (run_update_platform_status w id (fst np) "posting"
                                     None None None s (Hnf _) Hex)).
  set (s1 := tick (set_db _ s)).
  rewrite (bind_ret_run _ _ s1 (add_event (Poster.channel_call post imgs np) s1) tt eq_refl).
  set (s2 := add_event _ s1).
  assert (Hex2 : Db.post_exists id (db s2) = true) by exact Hex.
  unfold outcome_entry, record_outcome.
  destruct (Platforms.success (Poster.channel_result post imgs np)) eqn:Hs.
  - rewrite (bind_ret_run _ _ _ _ _ (run_update_platform_status w id (fst np) "published"
                                       _ _ None s2 (Hnf _) Hex2)).
    eexists. exists (clock w (ticks s)), (clock w (ticks s2)).
    split; [reflexivity|]. split; [reflexivity|]. split; [|split].
    + subst s2 s1. cbn [events add_event tick set_db].
      rewrite channel_posts_other by exact I.
      unfold channel_posts. rewrite List.filter_app. reflexivity.
    + subst s2 s1. cbn [db add_event tick set_db Db.platform_posts].
      rewrite List.map_map. apply List.map_ext. intros r. unfold is_row.
      destruct ((Db.pp_post_id r =? id) && String.eqb (Db.pp_platform r) (fst np)) eqn:E.
      * cbn [Db.pp_post_id Db.pp_platform Db.set_platform_status]. now rewrite E.
      * now rewrite E.
    + subst s2 s1. cbn [db add_event tick set_db Db.audit_log]. now rewrite <- app_assoc.
  - rewrite (bind_ret_run _ _ s2 _ tt
               (bind_ret_run _ _ _ _ _
                  (run_update_platform_status w id (fst np) "failed"
                     None None _ s2 (Hnf _) Hex2))).
    eexists. exists (clock w (ticks s)), (clock w (ticks s2)).
    split; [reflexivity|]. split; [reflexivity|]. split; [|split].
    + subst s2 s1. cbn [events add_event tick set_db].
      rewrite !channel_posts_other by exact I.
      unfold channel_posts. rewrite List.filter_app. reflexivity.
    + subst s2 s1. cbn [db add_event tick set_db Db.platform_posts].
      rewrite List.map_map. apply List.map_ext. intros r. unfold is_row.
      destruct ((Db.pp_post_id r =? id) && String.eqb (Db.pp_platform r) (fst np)) eqn:E.
      * cbn [Db.pp_post_id Db.pp_platform Db.set_platform_status]. now rewrite E.
      * now rewrite E.
    + subst s2 s1. cbn [db add_event tick set_db Db.audit_log]. now rewrite <- app_assoc.
Qed.

Lemma post_exists_posts (id : Z) (d d' : Db.DB) :
  Db.posts d' = Db.posts d -> Db.post_exists id d' = Db.post_exists id d.
Proof. unfold Db.post_exists. now intros ->. Qed.

(** The whole loop: it returns, calls every platform once and in order, and
    records for each the outcome of its call. *)
Lemma loop_run (w : World) (id : Z) (post : Db.Post)
    (imgs : gmap string (option string)) :
  no_db_faults w ->
  forall (chans : list (string * Platforms.Platform)) (acc : Poster.Tally) (s : State),
    Db.post_exists id (db s) = true ->
    exists s',
      for_each (Poster.post_to_platform w id post imgs) chans acc s
      = (Ret (tally_after post imgs chans acc), s')
      /\ Db.posts (db s') = Db.posts (db s)
      /\ channel_posts (events s')
         = channel_posts (events s) ++ List.map (Poster.channel_call post imgs) chans
      /\ (exists extra, Db.audit_log (db s') = Db.audit_log (db s) ++ extra)
      /\ (forall name, ~ In name (List.map fst chans) ->
            rows_of id name (db s') = rows_of id name (db s))
      /\ (List.NoDup (List.map fst chans) ->
          forall np, In np chans ->
            exists t1 t2,
              rows_of id (fst np) (db s')
              = List.map (record_outcome t1 t2 (Poster.channel_result post imgs np))
                  (rows_of id (fst np) (db s))
              /\ In (outcome_entry id (fst np) t2 (Poster.channel_result post imgs np))
                   (Db.audit_log (db s'))).
Proof.
  intros Hnf chans. induction chans as [|np rest IH]; intros acc s Hex.
  - exists s. simpl. split; [reflexivity|]. split; [reflexivity|].
    split; [now rewrite app_nil_r|]. split; [exists []; now rewrite app_nil_r|].
    split; [reflexivity|]. intros _ np [].
  - destruct (round_run w id post imgs np acc s Hnf Hex)
      as (s1 & t1 & t2 & Hrun1 & Hposts1 & Hev1 & Hrows1 & Haudit1).
    assert (Hex1 : Db.post_exists id (db s1) = true).
    { now rewrite (post_exists_posts id _ _ Hposts1). }
    destruct (IH (Poster.tally_step (fst np) (Poster.channel_result post imgs np) acc)
                s1 Hex1)
      as (s' & Hrun & Hposts & Hev & [extra Haudit] & Hother & Hsame).
    assert (Hhead_other : forall name, name <> fst np ->
              rows_of id name (db s1) = rows_of id name (db s)).
    { intros name Hne. unfold rows_of. rewrite Hrows1.
      apply filter_map_other; [exact Hne|]. intros r. apply record_outcome_keys. }
    assert (Hhead_same :
              rows_of id (fst np) (db s1)
              = List.map (record_outcome t1 t2 (Poster.channel_result post imgs np))
                  (rows_of id (fst np) (db s))).
    { unfold rows_of. rewrite Hrows1.
      apply filter_map_same. intros r. apply record_outcome_keys. }
    exists s'. simpl for_each. rewrite (bind_ret_run _ _ _ _ _ Hrun1).
    split; [exact Hrun|]. split; [congruence|].
    split; [rewrite Hev, Hev1; simpl; now rewrite <- app_assoc|].
    split; [exists ([Db.mkAudit id "platform_posting" (Db.DPlatform (fst np) None None) t1;
                     outcome_entry id (fst np) t2 (Poster.channel_result post imgs np)]
                    ++ extra);
            rewrite Haudit, Haudit1; now rewrite <- app_assoc|].
    split.
    + intros name Hname. simpl in Hname.
      rewrite Hother by tauto. apply Hhead_other. intros ->. tauto.
    + intros Hnd np' Hin. simpl in Hnd. apply List.NoDup_cons_iff in Hnd as [Hfresh Hnd].
      destruct Hin as [<- | Hin].
      * exists t1, t2. split.
        -- rewrite (Hother _ Hfresh). exact Hhead_same.
        -- rewrite Haudit, Haudit1. apply List.in_or_app. left.
           apply List.in_or_app. right. simpl. auto.
      * destruct (Hsame Hnd np' Hin) as (t1' & t2' & Hrows' & Hentry').
        exists t1', t2'. split; [|exact Hentry'].
        rewrite Hrows'. f_equal. apply Hhead_other.
        intros Heq. apply Hfresh. rewrite <- Heq. now apply List.in_map.
Qed.

(** [dict_set] and [get_all_enabled] keep the names distinct. *)
Lemma dict_set_keys {V} (k : string) (v : V) (d : list (string * V)) :
  List.NoDup (List.map fst d) ->
  List.NoDup (List.map fst (Platforms.dict_set k v d))
  /\ (forall k', In k' (List.map fst (Platforms.dict_set k v d)) <->
               k' = k \/ In k' (List.map fst d)).
Proof.
  intros Hnd. unfold Platforms.dict_set.
  destruct (existsb (fun kv => String.eqb (fst kv) k) d) eqn:E.
  - assert (Hmap : List.map fst
                     (List.map (fun kv => if String.eqb (fst kv) k then (k, v) else kv) d)
                   = List.map fst d).
    { rewrite List.map_map. apply List.map_ext. intros [k0 v0]. simpl.
      destruct (String.eqb k0 k) eqn:E0; [|reflexivity].
      simpl. symmetry. now apply String.eqb_eq. }
    rewrite Hmap. split; [exact Hnd|]. intros k'. split; [tauto|].
    intros [-> | H]; [|exact H].
    apply List.existsb_exists in E as ([k0 v0] & Hin & Hk). simpl in Hk.
    apply String.eqb_eq in Hk. subst k0.
    apply List.in_map_iff. exists (k, v0). auto.
  - rewrite List.map_app. simpl. split.
    + apply List.NoDup_app; [exact Hnd|constructor; [intros []|constructor]|].
      intros k' Hin [<- | []].
      apply List.in_map_iff in Hin as ([k0 v0] & Hk & Hin). simpl in Hk. subst k0.
      assert (existsb (fun kv => String.eqb (fst kv) k) d = true) as Habs.
      { apply List.existsb_exists. exists (k, v0). split; [exact Hin|].
        simpl. apply String.eqb_refl. }
      congruence.
    + intros k'. rewrite List.in_app_iff. simpl. intuition.
Qed.

Lemma enabled_channels_nodup (w : World) : List.NoDup (List.map fst (enabled_channels w)).
Proof.
  unfold enabled_channels, Platforms.get_all_enabled.
  generalize (ENABLED_PLATFORMS w) at 2. intros names.
  assert (H : forall acc : list (string * Platforms.Platform),
             List.NoDup (List.map fst acc) ->
             List.NoDup (List.map fst
               (fold_left (fun result n =>
                  match Platforms.get_platform (ENABLED_PLATFORMS w) (_REGISTRY w) n with
                  | Some p => Platforms.dict_set n p result
                  | None => result
                  end) names acc))).
  { induction names as [|n names IH]; intros acc Hacc; simpl; [exact Hacc|].
    apply IH. destruct (Platforms.get_platform _ _ n); [|exact Hacc].
    now apply dict_set_keys. }
  apply H. constructor.
Qed.

(** ** A whole run of [_do_post] when the storage answers *)

Lemma tally_after_counts (post : Db.Post) (imgs : gmap string (option string))
    (chans : list (string * Platforms.Platform)) (acc : Poster.Tally) :
  Poster.total_count (tally_after post imgs chans acc)
  = Poster.total_count acc + Z.of_nat (List.length chans)
  /\ ((forall np, In np chans ->
         Platforms.success (Poster.channel_result post imgs np) = false) ->
      Poster.success_count (tally_after post imgs chans acc) = Poster.success_count acc).
Proof.
  revert acc. induction chans as [|np rest IH]; intros acc.
  - simpl. split; [lia|reflexivity].
  - unfold tally_after in *. cbn [fold_left List.length].
    destruct (IH (Poster.tally_step (fst np) (Poster.channel_result post imgs np) acc))
      as [Htot Hsucc].
    split.
    + rewrite Htot. simpl. lia.
    + intros Hall. rewrite Hsucc by (intros; apply Hall; now right).
      simpl. now rewrite (Hall np (or_introl eq_refl)).
Qed.

(** From the entry of [_do_post] to the end of the loop. *)
Lemma do_post_run (w : World) (id : Z) (s : State) (post : Db.Post)
    (imgs : gmap string (option string)) :
  no_db_faults w ->
  (forall s0, Poster.process_media w post s0 = (Ret imgs, s0)) ->
  id ∉ posting_in_progress s ->
  Db.get_post id (db s) = Some post ->
  exists sL pL,
    Poster._do_post w id s
    = (fst (finish w id (tally_after post imgs (enabled_channels w) (Poster.mkTally [] 0 0)) sL),
       set_posting_in_progress (posting_in_progress s)
         (snd (finish w id
                 (tally_after post imgs (enabled_channels w) (Poster.mkTally [] 0 0)) sL)))
    /\ Db.get_post id (db sL) = Some pL
    /\ channel_posts (events sL)
       = channel_posts (events s)
         ++ List.map (Poster.channel_call post imgs) (enabled_channels w)
    /\ (forall np, In np (enabled_channels w) ->
          exists t1 t2,
            rows_of id (fst np) (db sL)
            = List.map (record_outcome t1 t2 (Poster.channel_result post imgs np))
                (rows_of id (fst np) (db s))
            /\ In (outcome_entry id (fst np) t2 (Poster.channel_result post imgs np))
                 (Db.audit_log (db sL))).
Proof.
  intros Hnf Himgs Hid Hpost.
  set (s0 := set_posting_in_progress (posting_in_progress s ∪ {[id]}) s).
  destruct (run_update_post_status w id "posting" None None None None (tick s0) post
              (Hnf _) Hpost) as (d1 & Hrun1 & Hget1 & Hpp1 & Haudit1).
  destruct (loop_run w id post imgs Hnf (enabled_channels w) (Poster.mkTally [] 0 0)
              (tick (set_db d1 (tick s0)))
              (get_post_exists _ _ _ Hget1))
    as (sL & Hloop & Hposts & Hev & _ & _ & Hrows).
  exists sL, (Db.set_post_status (clock w (ticks (tick s0))) "posting" None None None None post).
  assert (Hdispatch :
            Poster.dispatch w id s0
            = (Poster.conclude w id
                 (tally_after post imgs (enabled_channels w) (Poster.mkTally [] 0 0)) ;;;
               Poster.report w id
                 (tally_after post imgs (enabled_channels w) (Poster.mkTally [] 0 0))) sL).
  { unfold Poster.dispatch.
    rewrite (bind_ret_run _ _ _ _ _ (run_get_post w id s0 (Hnf _))).
    change (db s0) with (db s). rewrite Hpost.
    rewrite (bind_ret_run _ _ _ _ _ Hrun1).
    rewrite (bind_ret_run _ _ _ _ _ (Himgs _)).
    now rewrite (bind_ret_run _ _ _ _ _ Hloop). }
  split; [|split; [|split]].
  - assert (Hfin : finish w id
                     (tally_after post imgs (enabled_channels w) (Poster.mkTally [] 0 0)) sL
                   = try_except (Poster.dispatch w id) (Poster.crashed w id) s0).
    { unfold finish, try_except. now rewrite Hdispatch. }
    rewrite Hfin.
    unfold Poster._do_post, bind at 1, gets. simpl.
    destruct (decide (id ∈ posting_in_progress s)); [contradiction|].
    unfold bind at 1, modify, try_finally. fold s0.
    pose proof (body_keeps_in_progress w id s0) as Hkeep. unfold same in Hkeep.
    destruct (try_except (Poster.dispatch w id) (Poster.crashed w id) s0) as [o s2].
    simpl in *. f_equal. unfold set_posting_in_progress. f_equal.
    rewrite Hkeep. now apply discard_added.
  - unfold Db.get_post in *. rewrite Hposts. exact Hget1.
  - rewrite Hev. reflexivity.
  - intros np Hin.
    destruct (Hrows (enabled_channels_nodup w) np Hin) as (t1 & t2 & Hr & Hentry).
    exists t1, t2. split; [|exact Hentry].
    rewrite Hr. unfold rows_of. cbn [db tick set_db]. now rewrite Hpp1.
Qed.

(** After the loop: the aggregate status is written, and when a summary
    raises the [except] clause writes failed over it. *)
Lemma conclude_run (w : World) (id : Z) (tally : Poster.Tally) (s : State) (p : Db.Post) :
  no_db_faults w ->
  Db.get_post id (db s) = Some p ->
  exists s',
    Poster.conclude w id tally s = (Ret tt, s')
    /\ Db.get_post id (db s')
       = Some (Db.set_post_status (clock w (ticks s)) (aggregate_status tally)
                 None None None None p).
Proof.
  intros Hnf Hp. unfold Poster.conclude, aggregate_status.
  destruct (Poster.success_count tally =? Poster.total_count tally).
  - destruct (run_update_post_status w id "completed" None None None None s p (Hnf _) Hp)
      as (d & Hrun & Hget & _).
    eexists. split; [exact Hrun|exact Hget].
  - destruct (0 <? Poster.success_count tally).
    + destruct (run_update_post_status w id "partial_failure" None None None None s p
                  (Hnf _) Hp) as (d & Hrun & Hget & _).
      eexists. split; [exact Hrun|exact Hget].
    + destruct (run_update_post_status w id "failed" None None None None s p (Hnf _) Hp)
        as (d & Hrun & Hget & _).
      rewrite (bind_ret_run _ _ _ _ _ Hrun).
      eexists. split; [reflexivity|exact Hget].
Qed.

Lemma report_keeps_db (w : World) (id : Z) (tally : Poster.Tally) :
  respects (same db) (Poster.report w id tally).
Proof. apply respects_report; try apply _; intros; reflexivity. Qed.

Lemma finish_run (w : World) (id : Z) (tally : Poster.Tally) (s : State) (p : Db.Post) :
  no_db_faults w ->
  Db.get_post id (db s) = Some p ->
  exists s' p',
    finish w id tally s = (Ret tt, s')
    /\ Db.get_post id (db s') = Some p'
    /\ (Db.status p' = aggregate_status tally \/ Db.status p' = "failed").
Proof.
  intros Hnf Hp.
  destruct (conclude_run w id tally s p Hnf Hp) as (s1 & Hrun1 & Hget1).
  unfold finish, try_except. rewrite (bind_ret_run _ _ _ _ _ Hrun1).
  pose proof (report_keeps_db w id tally s1) as Hdb. unfold same in Hdb.
  destruct (Poster.report w id tally s1) as [[[]|e] s2]; simpl in Hdb.
  - exists s2. eexists. split; [reflexivity|]. rewrite Hdb. split; [exact Hget1|].
    left. reflexivity.
  - rewrite <- Hdb in Hget1. unfold Poster.crashed.
    destruct (run_update_post_status w id "failed" None None None (Some e) s2 _
                (Hnf _) Hget1) as (d & Hrun & Hget & _).
    rewrite (bind_ret_run _ _ _ _ _ Hrun).
    eexists. eexists. split; [reflexivity|]. split; [exact Hget|].
    right. reflexivity.
Qed.

Lemma finish_respects (R : State -> State -> Prop) `{!Reflexive R, !Transitive R}
    (w : World) (id : Z) (tally : Poster.Tally) :
  (forall s, R s (tick s)) ->
  (forall now id st a b c e s d',
      Db.update_post_status now id st a b c e (db s) = Some d' -> R s (set_db d' s)) ->
  (forall ev s, match ev with EvChannelPost _ _ _ _ => False | _ => True end ->
                R s (add_event ev s)) ->
  respects R (finish w id tally).
Proof.
  intros Rtick Rstatus Remit. unfold finish.
  apply respects_try_except; try assumption.
  - apply respects_bind; try assumption.
    + now apply respects_conclude.
    + intros _. now apply respects_report.
  - intros e. now apply respects_crashed.
Qed.

(** After the loop nothing about channels changes any more. *)
Lemma finish_keeps_channels (w : World) (id : Z) (tally : Poster.Tally) (s : State) :
  channel_posts (events (snd (finish w id tally s))) = channel_posts (events s)
  /\ Db.platform_posts (db (snd (finish w id tally s))) = Db.platform_posts (db s)
  /\ (forall a, In a (Db.audit_log (db s)) ->
               In a (Db.audit_log (db (snd (finish w id tally s))))).
Proof.
  split; [|split].
  - apply (finish_respects (same (fun s => channel_posts (events s)))); try apply _;
      try (intros; reflexivity).
    intros ev s0 H. unfold same. simpl. now apply channel_posts_other.
  - apply (finish_respects (same (fun s => Db.platform_posts (db s)))); try apply _;
      try (intros; reflexivity).
    intros now id' st a b c e s0 d' H. unfold same. simpl.
    now apply update_post_status_frame in H as [-> _].
  - assert (Hincl : respects (fun s s' => forall a, In a (Db.audit_log (db s)) ->
                                                   In a (Db.audit_log (db s')))
                      (finish w id tally)).
    { apply finish_respects.
      - intros s0 a. auto.
      - intros s1 s2 s3 H1 H2 a Ha. auto.
      - intros s0 a Ha. exact Ha.
      - intros now id' st a b c e s0 d' H x Hx. simpl.
        unfold Db.update_post_status in H.
        destruct (Db.post_exists id' (db s0)); [|discriminate].
        injection H as <-. simpl. apply List.in_or_app. now left.
      - intros ev s0 _ a Ha. exact Ha. }
    apply Hincl.
Qed.

(** The number of platforms whose call succeeds. *)
Lemma tally_after_successes (post : Db.Post) (imgs : gmap string (option string))
    (chans : list (string * Platforms.Platform)) (acc : Poster.Tally) :
  Poster.success_count (tally_after post imgs chans acc)
  = Poster.success_count acc
    + Z.of_nat (List.length
                  (List.filter (fun np => Platforms.success
                                            (Poster.channel_result post imgs np)) chans))
  /\ List.map result_platform (Poster.results (tally_after post imgs chans acc))
     = List.map result_platform (Poster.results acc) ++ List.map fst chans.
Proof.
  revert acc. induction chans as [|np rest IH]; intros acc.
  - simpl. split; [lia|now rewrite app_nil_r].
  - unfold tally_after in *. cbn [fold_left List.filter].
    destruct (IH (Poster.tally_step (fst np) (Poster.channel_result post imgs np) acc))
      as [Hs Hr].
    rewrite Hs, Hr. cbn [Poster.tally_step Poster.success_count Poster.results].
    split.
    + destruct (Platforms.success (Poster.channel_result post imgs np));
        cbn [List.length]; lia.
    + rewrite List.map_app. simpl. now rewrite <- app_assoc.
Qed.

(** After the loop, when the two summaries go out: the aggregate status is
    written and both summaries are sent with the collected results. *)
Lemma finish_run_quiet (w : World) (id : Z) (tally : Poster.Tally) (s : State)
    (p : Db.Post) :
  no_db_faults w -> summaries_return w ->
  Db.get_post id (db s) = Some p ->
  exists s',
    finish w id tally s = (Ret tt, s')
    /\ Db.get_post id (db s')
       = Some (Db.set_post_status (clock w (ticks s)) (aggregate_status tally)
                 None None None None p)
    /\ (exists evs, events s' = events s ++ evs
                    ++ [EvSlackResult id (Poster.results tally);
                        EvTelegramSummary id (Poster.results tally)]).
Proof.
  intros Hnf Hsum Hp.
  assert (Hconclude : exists s1 evs,
            Poster.conclude w id tally s = (Ret tt, s1)
            /\ Db.get_post id (db s1)
               = Some (Db.set_post_status (clock w (ticks s)) (aggregate_status tally)
                         None None None None p)
            /\ events s1 = events s ++ evs).
  { unfold Poster.conclude, aggregate_status.
    destruct (Poster.success_count tally =? Poster.total_count tally).
    - destruct (run_update_post_status w id "completed" None None None None s p (Hnf _) Hp)
        as (d & Hrun & Hget & _).
      eexists. exists []. split; [exact Hrun|]. split; [exact Hget|].
      simpl. now rewrite app_nil_r.
    - destruct (0 <? Poster.success_count tally).
      + destruct (run_update_post_status w id "partial_failure" None None None None s p
                    (Hnf _) Hp) as (d & Hrun & Hget & _).
        eexists. exists []. split; [exact Hrun|]. split; [exact Hget|].
        simpl. now rewrite app_nil_r.
      + destruct (run_update_post_status w id "failed" None None None None s p (Hnf _) Hp)
          as (d & Hrun & Hget & _).
        rewrite (bind_ret_run _ _ _ _ _ Hrun).
        eexists. exists [EvAlertAllPlatformsFailed id].
        split; [reflexivity|]. split; [exact Hget|]. reflexivity. }
  destruct Hconclude as (s1 & evs & Hrun1 & Hget1 & Hev1).
  unfold finish, try_except. rewrite (bind_ret_run _ _ _ _ _ Hrun1).
  unfold Poster.report.
  rewrite (bind_ret_run _ _ _ _ _ (run_get_post w id s1 (Hnf _))), Hget1.
  destruct (Hsum id) as [Hslack Htele].
  unfold Poster.slack_send_result, Poster.telegram_send_summary. rewrite Hslack, Htele.
  eexists. split; [reflexivity|]. split; [exact Hget1|].
  exists evs. cbn. rewrite Hev1. now rewrite <- !app_assoc.
Qed.

(** ** C2: channels that need an image the item does not have *)






(** ** C6: an adapter that raises *)

(** [BasePlatform.post] turns an exception of the adapter into a failed
    result that carries its text. *)
Lemma post_catches (plat : Platforms.Platform) (e text link : string)
    (image_path : option string) :
  Platforms.invoke plat text image_path link = Raise e ->
  Platforms.post plat text image_path link
  = Platforms.mkPostResult false (Platforms.name plat) None None (Some e).
Proof. intros H. unfold Platforms.post. now rewrite H. Qed.

(** C6: when the call of the adapter of an enabled channel raises for the
    item, the exception does not leave [_do_post]; every enabled channel is
    still called, once and in the enabled order; the outcome of the raising
    channel is written to the audit trail as [platform_failed] with the text
    of the exception as its error; and its [platform_posts] row ends failed,
    with that text as error message when the text is not empty. *)
Theorem adapter_exception_contained (w : World) (id : Z) (s : State) (post : Db.Post)
    (imgs : gmap string (option string))
    (name : string) (plat : Platforms.Platform) (e : string) :
  no_db_faults w ->
  (forall s0, Poster.process_media w post s0 = (Ret imgs, s0)) ->
  id ∉ posting_in_progress s ->
  Db.get_post id (db s) = Some post ->
  In (name, plat) (enabled_channels w) ->
  Platforms.invoke plat (Poster._build_post_text post name)
    (Poster.image_path_for post imgs name) (Db.link post) = Raise e ->
  fst (Poster._do_post w id s) = Ret tt
  /\ channel_posts (events (snd (Poster._do_post w id s)))
     = channel_posts (events s)
       ++ List.map (Poster.channel_call post imgs) (enabled_channels w)
  /\ (exists t,
        In (Db.mkAudit id "platform_failed" (Db.DPlatform name None (Some e)) t)
          (Db.audit_log (db (snd (Poster._do_post w id s)))))
  /\ List.length (rows_of id name (db (snd (Poster._do_post w id s))))
     = List.length (rows_of id name (db s))
  /\ List.Forall (fun r => Db.pp_status r = "failed"
                           /\ (e <> "" -> Db.pp_error_message r = Some e))
       (rows_of id name (db (snd (Poster._do_post w id s)))).
Proof.
  intros Hnf Himgs Hid Hpost Hin Hraise.
  destruct (do_post_run w id s post imgs Hnf Himgs Hid Hpost)
    as (sL & pL & Heq & HgetL & Hev & Hrows).
  set (tally := tally_after post imgs (enabled_channels w) (Poster.mkTally [] 0 0)) in *.
  destruct (finish_run w id tally sL pL Hnf HgetL) as (sF & pF & Hfin & _).
  destruct (finish_keeps_channels w id tally sL) as (Hcalls & Hpp & Haudit).
  destruct (Hrows (name, plat) Hin) as (t1 & t2 & Hr & Hentry).
  assert (Hres : Poster.channel_result post imgs (name, plat)
                 = Platforms.mkPostResult false (Platforms.name plat) None None (Some e)).
  { unfold Poster.channel_result. now apply post_catches. }
  rewrite Hres in Hr, Hentry. unfold outcome_entry in Hentry. simpl in Hr, Hentry.
  assert (Hrows' : rows_of id name (db (snd (Poster._do_post w id s)))
                   = List.map (record_outcome t1 t2
                                 (Platforms.mkPostResult false (Platforms.name plat)
                                    None None (Some e)))
                       (rows_of id name (db s))).
  { rewrite Heq. simpl. unfold rows_of in *. rewrite Hpp. exact Hr. }
  rewrite Hrows'. rewrite Heq. rewrite Hfin in *. simpl in *.
  split; [reflexivity|]. split; [now rewrite Hcalls|].
  split; [exists t2; now apply Haudit|]. split; [apply List.length_map|].
  apply List.Forall_forall. intros r Hr'. apply List.in_map_iff in Hr' as (r0 & <- & _).
  unfold record_outcome. simpl. split; [reflexivity|].
  intros He. destruct e; [contradiction|reflexivity].
Qed.

Lemma adapter_exception_contained_witness :
  fst (Poster._do_post Demo.timeout_world 1 (Demo.state_of Demo.db_approved)) = Ret tt
  /\ channel_posts
       (events (snd (Poster._do_post Demo.timeout_world 1
                       (Demo.state_of Demo.db_approved))))
     = channel_posts (events (Demo.state_of Demo.db_approved))
       ++ List.map (Poster.channel_call Demo.approved_post ∅)
            (enabled_channels Demo.timeout_world)
  /\ (exists t,
        In (Db.mkAudit 1 "platform_failed"
              (Db.DPlatform "facebook" None (Some "Connection timed out")) t)
          (Db.audit_log
             (db (snd (Poster._do_post Demo.timeout_world 1
                         (Demo.state_of Demo.db_approved))))))
  /\ List.length
       (rows_of 1 "facebook"
          (db (snd (Poster._do_post Demo.timeout_world 1
                      (Demo.state_of Demo.db_approved)))))
     = List.length (rows_of 1 "facebook" (db (Demo.state_of Demo.db_approved)))
  /\ List.Forall (fun r => Db.pp_status r = "failed"
                           /\ ("Connection timed out" <> "" ->
                               Db.pp_error_message r = Some "Connection timed out"))
       (rows_of 1 "facebook"
          (db (snd (Poster._do_post Demo.timeout_world 1
                      (Demo.state_of Demo.db_approved))))).
Proof.
  apply (adapter_exception_contained Demo.timeout_world 1
           (Demo.state_of Demo.db_approved) Demo.approved_post ∅
           "facebook" (Demo.raising "facebook" "Connection timed out")
           "Connection timed out").
  - intros n. reflexivity.
  - intros s0. reflexivity.
  - simpl. apply not_elem_of_empty.
  - reflexivity.
  - vm_compute. left. reflexivity.
  - reflexivity.
Defined.

(** The run of the witness: Facebook raised, its row is failed with the text
    of the exception, and Twitter after it was called and published. *)
Example timeout_run :
  List.map (fun r => (Db.pp_platform r, Db.pp_status r, Db.pp_error_message r))
    (Db.platform_posts
       (db (snd (Poster._do_post Demo.timeout_world 1 (Demo.state_of Demo.db_approved)))))
  = [("facebook", "failed", Some "Connection timed out"); ("twitter", "published", None)]
  /\ (Db.status <$> Db.get_post 1
        (db (snd (Poster._do_post Demo.timeout_world 1 (Demo.state_of Demo.db_approved)))))
     = Some "partial_failure".
Proof. vm_compute. split; reflexivity. Qed.

(** An exception without text: [update_platform_status] writes an error
    message only when it is not empty, so the row keeps the message of an
    earlier failure, while the audit entry has the empty text. *)
Example empty_exception_text :
  List.map (fun r => (Db.pp_platform r, Db.pp_status r, Db.pp_error_message r))
    (Db.platform_posts
       (db (snd (Poster._do_post Demo.flaky_world 1 (Demo.state_of Demo.db_refused_once)))))
  = [("facebook", "failed", Some "Rate limited"); ("twitter", "published", None)]
  /\ In (Db.mkAudit 1 "platform_failed" (Db.DPlatform "facebook" None (Some ""))
           "2024-01-01T12:00:00+00:00")
       (Db.audit_log
          (db (snd (Poster._do_post Demo.flaky_world 1
                      (Demo.state_of Demo.db_refused_once))))).
Proof. vm_compute. split; [reflexivity|]. do 5 right. left. reflexivity. Qed.

(** * Further properties *)

(** ** The tables stay consistent *)

Lemma post_exists_ids (id : Z) (d : Db.DB) :
  Db.post_exists id d = true <-> In id (List.map Db.post_id (Db.posts d)).
Proof.
  unfold Db.post_exists. rewrite List.existsb_exists, List.in_map_iff.
  split; intros (p & H1 & H2).
  - exists p. split; [lia|exact H1].
  - exists p. split; [exact H2|lia].
Qed.

Lemma get_post_none (id : Z) (d : Db.DB) :
  Db.get_post id d = None <-> Db.post_exists id d = false.
Proof.
  unfold Db.get_post, Db.post_exists.
  induction (Db.posts d) as [|p l IH]; simpl; [tauto|].
  destruct (Db.post_id p =? id); simpl; [split; discriminate|exact IH].
Qed.

Lemma get_post_in (id : Z) (d : Db.DB) (p : Db.Post) :
  Db.get_post id d = Some p -> In p (Db.posts d).
Proof. unfold Db.get_post. intros H. now apply List.find_some in H. Qed.

(** With distinct ids, [get_post] finds every row of the table. *)
Lemma in_get_post (d : Db.DB) (p : Db.Post) :
  List.NoDup (List.map Db.post_id (Db.posts d)) ->
  In p (Db.posts d) -> Db.get_post (Db.post_id p) d = Some p.
Proof.
  unfold Db.get_post. induction (Db.posts d) as [|q l IH]; simpl; [tauto|].
  intros Hnd [-> | Hin].
  - now rewrite Z.eqb_refl.
  - apply List.NoDup_cons_iff in Hnd as [Hq Hnd].
    destruct (Z.eqb_spec (Db.post_id q) (Db.post_id p)) as [E|_]; [|now apply IH].
    exfalso. apply Hq. rewrite E. now apply List.in_map.
Qed.

Lemma map_if_ids (id : Z) (f : Db.Post -> Db.Post) (l : list Db.Post) :
  (forall p, Db.post_id (f p) = Db.post_id p) ->
  List.map Db.post_id (List.map (fun p => if Db.post_id p =? id then f p else p) l)
  = List.map Db.post_id l.
Proof.
  intros Hf. rewrite List.map_map. apply List.map_ext. intros p.
  destruct (Db.post_id p =? id); [apply Hf|reflexivity].
Qed.

(** What a successful [update_post_status] leaves of the tables. *)
Lemma update_post_status_tables (now : string) (id : Z) (st : string)
    (a b c e : option string) (d d' : Db.DB) :
  Db.update_post_status now id st a b c e d = Some d' ->
  Db.post_exists id d = true
  /\ Db.posts d'
     = List.map (fun p => if Db.post_id p =? id
                          then Db.set_post_status now st a b c e p else p) (Db.posts d)
  /\ List.map Db.post_id (Db.posts d') = List.map Db.post_id (Db.posts d)
  /\ Db.platform_posts d' = Db.platform_posts d
  /\ Db.audit_log d' = Db.audit_log d ++ [Db.mkAudit id st (Db.DStatus a b c) now]
  /\ Db.last_post_id d' = Db.last_post_id d.
Proof.
  unfold Db.update_post_status. destruct (Db.post_exists id d); [|discriminate].
  intros [= <-]. simpl. repeat split. now apply map_if_ids.
Qed.

(** What a successful [update_platform_status] leaves of the tables. *)
Lemma update_platform_status_tables (now : string) (id : Z) (name st : string)
    (a b e : option string) (d d' : Db.DB) :
  Db.update_platform_status now id name st a b e d = Some d' ->
  Db.post_exists id d = true
  /\ Db.posts d' = Db.posts d
  /\ Db.platform_posts d'
     = List.map (fun r => if is_row id name r
                          then Db.set_platform_status now st a b e r else r)
         (Db.platform_posts d)
  /\ Db.audit_log d'
     = Db.audit_log d ++ [Db.mkAudit id ("platform_" +:+ st) (Db.DPlatform name a e) now]
  /\ Db.last_post_id d' = Db.last_post_id d.
Proof.
  unfold Db.update_platform_status. destruct (Db.post_exists id d); [|discriminate].
  intros [= <-]. simpl. repeat split.
Qed.

Lemma post_exists_same_ids (id : Z) (d d' : Db.DB) :
  List.map Db.post_id (Db.posts d') = List.map Db.post_id (Db.posts d) ->
  Db.post_exists id d' = Db.post_exists id d.
Proof.
  intros H. apply eq_true_iff_eq. rewrite !post_exists_ids. now rewrite H.
Qed.

(** The invariant follows the ids of the posts, the keys of the rows and
    the posts of the audit entries. *)
Lemma store_ok_same_keys (d d' : Db.DB) :
  List.map Db.post_id (Db.posts d') = List.map Db.post_id (Db.posts d) ->
  List.map Db.pp_post_id (Db.platform_posts d')
  = List.map Db.pp_post_id (Db.platform_posts d) ->
  (forall a, In a (Db.audit_log d') ->
     In a (Db.audit_log d) \/ Db.post_exists (Db.audit_post_id a) d = true) ->
  Db.last_post_id d' = Db.last_post_id d ->
  store_ok d -> store_ok d'.
Proof.
  intros Hids Hrows Haudit Hlast (Hnd & Hle & Hfk & Hau).
  unfold store_ok. rewrite Hids, Hlast. split; [exact Hnd|]. split; [|split].
  - apply (List.Forall_map Db.post_id (fun i => i <= Db.last_post_id d)).
    rewrite Hids. apply List.Forall_map. exact Hle.
  - apply (List.Forall_map Db.pp_post_id (fun i => Db.post_exists i d' = true)).
    rewrite Hrows. apply List.Forall_map.
    eapply List.Forall_impl; [|exact Hfk]. intros r Hr. simpl in *.
    now rewrite (post_exists_same_ids _ _ _ Hids).
  - apply List.Forall_forall. intros a Ha.
    rewrite (post_exists_same_ids _ _ _ Hids).
    destruct (Haudit a Ha) as [Hold | Hex]; [|exact Hex].
    rewrite List.Forall_forall in Hau. now apply Hau.
Qed.

Lemma store_ok_update_post_status (now : string) (id : Z) (st : string)
    (a b c e : option string) (d d' : Db.DB) :
  Db.update_post_status now id st a b c e d = Some d' -> store_ok d -> store_ok d'.
Proof.
  intros H. apply update_post_status_tables in H as (Hex & _ & Hids & Hpp & Hau & Hlast).
  apply store_ok_same_keys; [exact Hids|now rewrite Hpp| |exact Hlast].
  intros x Hx. rewrite Hau in Hx. apply List.in_app_or in Hx as [Hx | [<- | []]]; auto.
Qed.

Lemma store_ok_update_platform_status (now : string) (id : Z) (name st : string)
    (a b e : option string) (d d' : Db.DB) :
  Db.update_platform_status now id name st a b e d = Some d' -> store_ok d -> store_ok d'.
Proof.
  intros H.
  apply update_platform_status_tables in H as (Hex & Hposts & Hpp & Hau & Hlast).
  apply store_ok_same_keys; [now rewrite Hposts| | |exact Hlast].
  - rewrite Hpp, List.map_map. apply List.map_ext. intros r.
    destruct (is_row id name r); reflexivity.
  - intros x Hx. rewrite Hau in Hx. apply List.in_app_or in Hx as [Hx | [<- | []]]; auto.
Qed.

Lemma store_ok_fresh (d : Db.DB) :
  store_ok d -> Db.post_exists (Db.last_post_id d + 1) d = false.
Proof.
  intros (_ & Hle & _). apply not_true_is_false. rewrite post_exists_ids.
  intros Hin. apply List.in_map_iff in Hin as (p & Hp & Hin).
  rewrite List.Forall_forall in Hle. specialize (Hle p Hin). lia.
Qed.

Lemma post_exists_app (id : Z) (d : Db.DB) (l : list Db.Post) (pp : list Db.PlatformPost)
    (au : list Db.AuditEntry) (n : Z) :
  Db.post_exists id (Db.mkDB (Db.posts d ++ l) pp au n)
  = Db.post_exists id d || existsb (fun p => Db.post_id p =? id) l.
Proof. unfold Db.post_exists. simpl. apply List.existsb_app. Qed.

Lemma store_ok_create_post (enabled : list string)
    (now topic summary full_content link image_url video_url priority source : string)
    (tags : option (list string)) (scheduled_for : option string) (d : Db.DB) :
  store_ok d ->
  store_ok (snd (Db.create_post enabled now topic summary full_content link image_url
                   video_url priority source tags scheduled_for d)).
Proof.
  intros Hok. pose proof (store_ok_fresh d Hok) as Hfresh.
  destruct Hok as (Hnd & Hle & Hfk & Hau).
  unfold store_ok, Db.create_post. cbn [snd Db.posts Db.platform_posts Db.audit_log
                                         Db.last_post_id].
  assert (Hnew : forall i, Db.post_exists i d = true \/ i = Db.last_post_id d + 1 ->
            Db.post_exists i
              (Db.mkDB (Db.posts d ++ [Db.mkPost (Db.last_post_id d + 1) topic summary
                          full_content link image_url video_url "pending" priority None
                          None None None source (default [] tags) now now scheduled_for
                          None None 0])
                 (Db.platform_posts d ++
                    List.map (fun name => Db.mkPlatformPost (Db.last_post_id d + 1) name
                                            "pending" None None None None 0 now now) enabled)
                 (Db.audit_log d ++ [Db.mkAudit (Db.last_post_id d + 1) "created"
                                       (Db.DCreated source enabled priority) now])
                 (Db.last_post_id d + 1)) = true).
  { intros i Hi. rewrite post_exists_app. simpl. destruct Hi as [-> | ->]; [reflexivity|].
    rewrite Z.eqb_refl. now rewrite !orb_true_r. }
  split; [|split; [|split]].
  - rewrite List.map_app. simpl.
    apply List.NoDup_app; [exact Hnd|constructor; [intros []|constructor]|].
    intros i Hin [<- | []]. apply post_exists_ids in Hin. congruence.
  - apply List.Forall_app. split.
    + eapply List.Forall_impl; [|exact Hle]. intros p Hp. simpl in Hp. lia.
    + constructor; [simpl; lia|constructor].
  - apply List.Forall_app. split.
    + eapply List.Forall_impl; [|exact Hfk]. intros r Hr. apply Hnew. now left.
    + apply List.Forall_forall. intros r Hr. apply List.in_map_iff in Hr as (n & <- & _).
      apply Hnew. now right.
  - apply List.Forall_app. split.
    + eapply List.Forall_impl; [|exact Hau]. intros x Hx. apply Hnew. now left.
    + constructor; [|constructor]. apply Hnew. now right.
Qed.

(** X2: the tables that [init_db] creates are consistent, and every writing
    call of [db.py] keeps them so: the ids of the posts are distinct and not
    above the counter, and every platform row and audit entry belongs to a
    post. *)
Theorem store_ok_invariant :
  store_ok Db.init_db
  /\ (forall enabled now topic summary full_content link image_url video_url priority
             source tags scheduled_for d,
        store_ok d ->
        store_ok (snd (Db.create_post enabled now topic summary full_content link
                         image_url video_url priority source tags scheduled_for d)))
  /\ (forall now id st a b c e d d',
        store_ok d -> Db.update_post_status now id st a b c e d = Some d' -> store_ok d')
  /\ (forall now id name st a b e d d',
        store_ok d -> Db.update_platform_status now id name st a b e d = Some d' ->
        store_ok d').
Proof.
  split; [|split; [|split]].
  - repeat split; constructor.
  - intros. now apply store_ok_create_post.
  - intros. eapply store_ok_update_post_status; eassumption.
  - intros. eapply store_ok_update_platform_status; eassumption.
Qed.

(** ** Creating a post and reading it back *)

Lemma find_app {A} (f : A -> bool) (l1 l2 : list A) :
  List.find f (l1 ++ l2)
  = match List.find f l1 with Some x => Some x | None => List.find f l2 end.
Proof.
  induction l1 as [|x l1 IH]; simpl; [reflexivity|]. now destruct (f x).
Qed.

Lemma filter_all {A} (f : A -> bool) (l : list A) :
  (forall x, In x l -> f x = true) -> List.filter f l = l.
Proof.
  induction l as [|x l IH]; simpl; intros H; [reflexivity|].
  rewrite (H x (or_introl eq_refl)). f_equal. apply IH. intros y Hy. apply H. now right.
Qed.

Lemma filter_none {A} (f : A -> bool) (l : list A) :
  (forall x, In x l -> f x = false) -> List.filter f l = [].
Proof.
  induction l as [|x l IH]; simpl; intros H; [reflexivity|].
  rewrite (H x (or_introl eq_refl)). apply IH. intros y Hy. apply H. now right.
Qed.

(** What the queries return after [create_post]. *)
Lemma create_post_reads (enabled : list string)
    (now topic summary full_content link image_url video_url priority source : string)
    (tags : option (list string)) (scheduled_for : option string)
    (d d' : Db.DB) (id : Z) :
  store_ok d ->
  Db.create_post enabled now topic summary full_content link image_url video_url
    priority source tags scheduled_for d = (id, d') ->
  Db.get_post id d = None
  /\ Db.get_post id d'
     = Some (Db.mkPost id topic summary full_content link image_url video_url "pending"
               priority None None None None source (default [] tags) now now
               scheduled_for None None 0)
  /\ Db.get_platform_statuses id d'
     = List.map (fun name => Db.mkPlatformPost id name "pending" None None None None 0
                               now now) enabled
  /\ Db.audit_of id d' = [Db.mkAudit id "created" (Db.DCreated source enabled priority) now]
  /\ (forall id', id' <> id ->
        Db.get_post id' d' = Db.get_post id' d
        /\ Db.get_platform_statuses id' d' = Db.get_platform_statuses id' d
        /\ Db.audit_of id' d' = Db.audit_of id' d).
Proof.
  intros Hok Hc. pose proof (store_ok_fresh d Hok) as Hfresh.
  destruct Hok as (_ & _ & Hfk & Hau).
  unfold Db.create_post in Hc. injection Hc as <- <-.
  assert (Hnone : Db.get_post (Db.last_post_id d + 1) d = None) by now apply get_post_none.
  assert (Hrows : forall r, In r (Db.platform_posts d) ->
            (Db.pp_post_id r =? Db.last_post_id d + 1) = false).
  { intros r Hr. rewrite List.Forall_forall in Hfk. specialize (Hfk r Hr).
    apply Z.eqb_neq. intros E. rewrite E in Hfk. congruence. }
  assert (Hentries : forall a, In a (Db.audit_log d) ->
            (Db.audit_post_id a =? Db.last_post_id d + 1) = false).
  { intros a Ha. rewrite List.Forall_forall in Hau. specialize (Hau a Ha).
    apply Z.eqb_neq. intros E. rewrite E in Hau. congruence. }
  split; [exact Hnone|]. split; [|split; [|split]].
  - unfold Db.get_post in *. simpl. rewrite find_app, Hnone. simpl.
    now rewrite Z.eqb_refl.
  - unfold Db.get_platform_statuses. simpl. rewrite List.filter_app.
    rewrite (filter_none _ _ Hrows). simpl. apply filter_all.
    intros r Hr. apply List.in_map_iff in Hr as (n & <- & _). simpl. apply Z.eqb_refl.
  - unfold Db.audit_of. simpl. rewrite List.filter_app.
    rewrite (filter_none _ _ Hentries). simpl. now rewrite Z.eqb_refl.
  - intros id' Hne. assert (Hno : (Db.last_post_id d + 1 =? id') = false).
    { apply Z.eqb_neq. congruence. }
    split; [|split].
    + unfold Db.get_post. simpl. rewrite find_app. simpl. rewrite Hno.
      now destruct (List.find _ (Db.posts d)).
    + unfold Db.get_platform_statuses. simpl. rewrite List.filter_app.
      rewrite (filter_none _ (List.map _ enabled)); [apply app_nil_r|].
      intros r Hr. apply List.in_map_iff in Hr as (n & <- & _). exact Hno.
    + unfold Db.audit_of. simpl. rewrite List.filter_app. simpl. rewrite Hno.
      apply app_nil_r.
Qed.

(** X1: [create_post] on consistent tables returns an id that no post had;
    [get_post] of that id then gives the row with the arguments, status
    pending and both timestamps at the time of the call;
    [get_platform_statuses] gives one pending row for each enabled platform,
    in order; the audit trail of the post is the one entry [created]; and
    what the three queries return for any other id is as before. *)
Theorem create_post_round_trip (enabled : list string)
    (now topic summary full_content link image_url video_url priority source : string)
    (tags : option (list string)) (scheduled_for : option string)
    (d d' : Db.DB) (id : Z) :
  store_ok d ->
  Db.create_post enabled now topic summary full_content link image_url video_url
    priority source tags scheduled_for d = (id, d') ->
  Db.get_post id d = None
  /\ Db.get_post id d'
     = Some (Db.mkPost id topic summary full_content link image_url video_url "pending"
               priority None None None None source (default [] tags) now now
               scheduled_for None None 0)
  /\ Db.get_platform_statuses id d'
     = List.map (fun name => Db.mkPlatformPost id name "pending" None None None None 0
                               now now) enabled
  /\ Db.audit_of id d' = [Db.mkAudit id "created" (Db.DCreated source enabled priority) now]
  /\ (forall id', id' <> id ->
        Db.get_post id' d' = Db.get_post id' d
        /\ Db.get_platform_statuses id' d' = Db.get_platform_statuses id' d
        /\ Db.audit_of id' d' = Db.audit_of id' d).
Proof. apply create_post_reads. Qed.

Lemma create_post_round_trip_witness :
  Db.get_post 2 Demo.db_created = None
  /\ (Db.topic <$> Db.get_post 2 (snd Sample.created_second)) = Some "Second"
  /\ List.map Db.pp_platform (Db.get_platform_statuses 2 (snd Sample.created_second))
     = ["facebook"; "twitter"]
  /\ Db.get_post 1 (snd Sample.created_second) = Db.get_post 1 Demo.db_created.
Proof.
  destruct (create_post_round_trip ["facebook"; "twitter"] "2024-01-01T10:00:00+00:00"
              "Second" "Summary two" "Body" "https://example.com" "" "" "high" "webhook"
              (Some ["tech"]) (Some "2024-01-02T00:00:00+00:00") Demo.db_created
              (snd Sample.created_second) 2)
    as (H1 & H2 & H3 & _ & H5).
  - apply store_ok_create_post. repeat split; constructor.
  - reflexivity.
  - split; [exact H1|]. split; [now rewrite H2|]. split; [now rewrite H3|].
    apply (H5 1). lia.
Defined.

(** ** Writes to one platform row *)

Lemma is_row_apart (id id' : Z) (name name' : string) (r : Db.PlatformPost) :
  id' <> id \/ name' <> name -> is_row id name r = true -> is_row id' name' r = false.
Proof.
  unfold is_row. intros Hne H. apply andb_true_iff in H as [Hi Hn].
  apply Z.eqb_eq in Hi. apply String.eqb_eq in Hn. rewrite Hi, Hn.
  apply andb_false_iff. destruct Hne as [Hne | Hne].
  - left. apply Z.eqb_neq. congruence.
  - right. apply String.eqb_neq. congruence.
Qed.

Lemma filter_map_apart (id id' : Z) (name name' : string)
    (g : Db.PlatformPost -> Db.PlatformPost) (l : list Db.PlatformPost) :
  id' <> id \/ name' <> name ->
  (forall r, is_row id' name' (g r) = is_row id' name' r) ->
  List.filter (is_row id' name') (List.map (fun r => if is_row id name r then g r else r) l)
  = List.filter (is_row id' name') l.
Proof.
  intros Hne Hg. induction l as [|r l IH]; simpl; [reflexivity|].
  destruct (is_row id name r) eqn:E.
  - rewrite Hg, (is_row_apart id id' name name' r Hne E). exact IH.
  - now rewrite IH.
Qed.



(** ** Writes to one post *)

Lemma find_map_other (id id' : Z) (f : Db.Post -> Db.Post) (l : list Db.Post) :
  id' <> id ->
  (forall p, Db.post_id (f p) = Db.post_id p) ->
  List.find (fun p => Db.post_id p =? id')
    (List.map (fun p => if Db.post_id p =? id then f p else p) l)
  = List.find (fun p => Db.post_id p =? id') l.
Proof.
  intros Hne Hf. induction l as [|p l IH]; simpl; [reflexivity|].
  destruct (Z.eqb_spec (Db.post_id p) id) as [E|E].
  - rewrite Hf. destruct (Z.eqb_spec (Db.post_id p) id'); [congruence|exact IH].
  - now rewrite IH.
Qed.

(** X4: a successful [update_post_status] changes the row of this id and
    no other: [get_post] of any other id and the platform rows of every post
    are as before, no post appears or disappears, and in no row, this one
    included, do the content, the priority, the source, the tags, the creation
    and schedule times or the retry counter change. *)
Theorem update_post_status_isolated (now : string) (id : Z) (st : string)
    (a b c e : option string) (d d' : Db.DB) :
  Db.update_post_status now id st a b c e d = Some d' ->
  (forall id', id' <> id -> Db.get_post id' d' = Db.get_post id' d)
  /\ Db.platform_posts d' = Db.platform_posts d
  /\ List.map content_of (Db.posts d') = List.map content_of (Db.posts d)
  /\ List.map Db.retry_count (Db.posts d') = List.map Db.retry_count (Db.posts d)
  /\ (forall p', Db.get_post id d' = Some p' -> Db.status p' = st /\ Db.updated_at p' = now).
Proof.
  intros H. apply update_post_status_tables in H as (Hex & Hposts & _ & Hpp & _ & _).
  split; [|split; [|split; [|split]]].
  - intros id' Hne. unfold Db.get_post. rewrite Hposts.
    apply find_map_other; [exact Hne|reflexivity].
  - exact Hpp.
  - rewrite Hposts, List.map_map. apply List.map_ext. intros p.
    destruct (Db.post_id p =? id); reflexivity.
  - rewrite Hposts, List.map_map. apply List.map_ext. intros p.
    destruct (Db.post_id p =? id); reflexivity.
  - intros p'. unfold Db.get_post. rewrite Hposts.
    rewrite (find_map_if (fun q => Db.post_id q =? id)); [|reflexivity].
    destruct (List.find _ (Db.posts d)); simpl; [|discriminate].
    intros [= <-]. split; reflexivity.
Qed.

Lemma update_post_status_isolated_witness :
  Db.get_post 1 (default (snd Sample.created_second)
                   (Db.update_post_status "2024-01-01T10:05:00+00:00" 2 "rejected" None None
                      (Some "Manually rejected via Telegram") None
                      (snd Sample.created_second)))
  = Db.get_post 1 (snd Sample.created_second).
Proof.
  destruct (update_post_status_isolated "2024-01-01T10:05:00+00:00" 2 "rejected" None None
              (Some "Manually rejected via Telegram") None (snd Sample.created_second)
              (default (snd Sample.created_second)
                 (Db.update_post_status "2024-01-01T10:05:00+00:00" 2 "rejected" None None
                    (Some "Manually rejected via Telegram") None
                    (snd Sample.created_second))))
    as (H1 & _).
  - reflexivity.
  - apply (H1 1). lia.
Defined.

(** ** The posts that wait for a decision *)

(** X5: [get_posts_needing_approval] returns exactly the rows whose status
    is pending, each once, ordered by ascending [created_at] compared as the
    stored text; none of them is returned by [get_pending_posts]. *)
Theorem get_posts_needing_approval_pending_oldest_first (d : Db.DB) :
  Queries.get_posts_needing_approval d
    ≡ₚ List.filter (fun p => String.eqb (Db.status p) "pending") (Db.posts d)
  /\ (forall p, In p (Queries.get_posts_needing_approval d) <->
        In p (Db.posts d) /\ Db.status p = "pending")
  /\ StronglySorted
       (fun p q => String.leb (Db.created_at p) (Db.created_at q) = true)
       (Queries.get_posts_needing_approval d)
  /\ (forall now p, In p (Queries.get_posts_needing_approval d) ->
        ~ In p (Db.get_pending_posts now d)).
Proof.
  assert (Hperm : Queries.get_posts_needing_approval d
            ≡ₚ List.filter (fun p => String.eqb (Db.status p) "pending") (Db.posts d))
    by apply merge_sort_Permutation.
  assert (Hin : forall p, In p (Queries.get_posts_needing_approval d) <->
            In p (Db.posts d) /\ Db.status p = "pending").
  { intros p.
    transitivity (In p (List.filter (fun p => String.eqb (Db.status p) "pending")
                          (Db.posts d))).
    { rewrite <- !list_elem_of_In. now rewrite Hperm. }
    rewrite List.filter_In, String.eqb_eq. reflexivity. }
  assert (Htrans : Transitive Queries.created_le).
  { intros p q r. apply string_leb_trans. }
  assert (Htotal : Total Queries.created_le).
  { intros p q. unfold Queries.created_le.
    destruct (String.leb_total (Db.created_at p) (Db.created_at q)); auto. }
  split; [exact Hperm|]. split; [exact Hin|]. split.
  - apply (StronglySorted_merge_sort Queries.created_le).
  - intros now p Hp Hq. apply Hin in Hp as [_ Hst].
    assert (Hq' : In p (List.filter (fun p => Db.is_approved p && Db.is_due now p)
                          (Db.posts d))).
    { rewrite <- list_elem_of_In in *. unfold Db.get_pending_posts in Hq.
      now rewrite merge_sort_Permutation in Hq. }
    apply List.filter_In in Hq' as [_ Hq']. apply andb_true_iff in Hq' as [Hq' _].
    unfold Db.is_approved in Hq'. rewrite Hst in Hq'. discriminate.
Qed.

(** ** Texts without a link *)

Lemma len_append (a b : string) : Py.len (a +:+ b) = Py.len a + Py.len b.
Proof. unfold Py.len. rewrite length_append. lia. Qed.

Lemma len_slice_to_short (s : string) (n : Z) :
  0 <= n <= Py.len s -> Py.len (Py.slice_to s n) = n.
Proof.
  intros Hn. unfold Py.slice_to, Py.len in *.
  destruct (Z.leb_spec 0 n); [|lia].
  rewrite length_substring0. lia.
Qed.

(** Without a link the result of [_truncate] is the text or its cut. *)
Lemma truncate_no_link (text : string) (max_len : Z) :
  3 <= max_len ->
  Platforms._truncate text "" max_len
  = (if max_len <? Py.len text then Py.slice_to text (max_len - 3) +:+ "..." else text)
  /\ Py.len (Platforms._truncate text "" max_len) = Z.min max_len (Py.len text).
Proof.
  intros Hmax. unfold Platforms._truncate. simpl Py.truthy. cbv iota.
  split; [reflexivity|].
  destruct (Z.ltb_spec max_len (Py.len text)) as [Hlong|Hshort]; [|lia].
  rewrite len_append, len_slice_to_short by lia.
  change (Py.len "...") with 3. lia.
Qed.

(** X6: without a link, [_truncate] with a limit of at least three returns
    a text no longer than the limit: the text itself when it fits, and
    otherwise its first [max_len - 3] characters followed by three dots,
    which is exactly [max_len] characters. *)
Theorem truncate_without_link (text : string) (max_len : Z) :
  3 <= max_len ->
  Py.len (Platforms._truncate text "" max_len) <= max_len
  /\ (Py.len text <= max_len -> Platforms._truncate text "" max_len = text)
  /\ (max_len < Py.len text ->
      Platforms._truncate text "" max_len = Py.slice_to text (max_len - 3) +:+ "..."
      /\ Py.len (Platforms._truncate text "" max_len) = max_len).
Proof.
  intros Hmax. destruct (truncate_no_link text max_len Hmax) as [Heq Hlen].
  split; [lia|]. split.
  - intros Hshort. rewrite Heq. destruct (Z.ltb_spec max_len (Py.len text)); [lia|reflexivity].
  - intros Hlong. split; [|lia].
    rewrite Heq. destruct (Z.ltb_spec max_len (Py.len text)); [reflexivity|lia].
Qed.

Lemma truncate_without_link_witness :
  Py.len (Platforms._truncate (Demo.replicate_char 300 "a") "" 280) <= 280.
Proof.
  apply (truncate_without_link (Demo.replicate_char 300 "a") 280). lia.
Defined.

(** X7: the tweet of an item without a link has at most 280 characters,
    whatever the lengths of the topic and the summary; it is the text of
    [_build_post_text] when that has at most 280 characters, as it has
    whenever the topic has at most 275. *)
Theorem tweet_without_link_fits (post : Db.Post) :
  Py.truthy (Db.link post) = false ->
  Py.len (tweet_text post) <= 280
  /\ (Py.len (Db.topic post) <= 275 ->
      tweet_text post = Poster._build_post_text post "twitter").
Proof.
  intros H. unfold tweet_text.
  destruct (Db.link post) as [|c l] eqn:Hl; [|discriminate].
  destruct (truncate_no_link (Poster._build_post_text post "twitter") 280 ltac:(lia))
    as [Heq Hlen].
  split; [lia|]. intros Htopic. rewrite Heq.
  destruct (Z.ltb_spec 280 (Py.len (Poster._build_post_text post "twitter")))
    as [Hlong|]; [|reflexivity].
  exfalso. revert Hlong. unfold Poster._build_post_text. rewrite Hl. simpl Py.truthy.
  cbv iota. rewrite String.eqb_refl.
  destruct (Z.ltb_spec 280 (Py.len (Db.topic post +:+ Poster.nl +:+ Poster.nl
                                     +:+ Db.summary post))) as [Hcut|Hfit]; [|lia].
  rewrite !len_append.
  pose proof (len_slice_to_le (Db.summary post) (280 - Py.len (Db.topic post) - 5)
                ltac:(lia)) as Hs.
  change (Py.len Poster.nl) with 1. change (Py.len "...") with 3. lia.
Qed.

Lemma tweet_without_link_fits_witness :
  Py.len (tweet_text (Demo.row 3 "T" (Demo.replicate_char 300 "a") "" "" "approved"
                        "normal" "2024-01-01T09:00:00+00:00" None)) <= 280.
Proof.
  apply (tweet_without_link_fits
           (Demo.row 3 "T" (Demo.replicate_char 300 "a") "" "" "approved" "normal"
              "2024-01-01T09:00:00+00:00" None)).
  reflexivity.
Defined.

(** ** The length of the texts for the platforms *)

(** X8: [_build_post_text] keeps to the limit of the platform: 2200
    characters for instagram, 3000 for linkedin and 5000 for every other name
    but twitter; for twitter the limit is 253 with a link and 280 without,
    and the text keeps to it when the topic leaves room for the five
    characters around the summary. A text that fits is the topic, an empty
    line and the summary. *)
Theorem build_post_text_limits (post : Db.Post) (platform : string) :
  (platform = "instagram" -> Py.len (Poster._build_post_text post platform) <= 2200)
  /\ (platform = "linkedin" -> Py.len (Poster._build_post_text post platform) <= 3000)
  /\ (platform <> "twitter" -> Py.len (Poster._build_post_text post platform) <= 5000)
  /\ (platform = "twitter" ->
      let max_text := if Py.truthy (Db.link post) then 253 else 280 in
      (Py.len (Db.topic post) + 5 <= max_text ->
       Py.len (Poster._build_post_text post platform) <= max_text)
      /\ (Py.len (Db.topic post) + 2 + Py.len (Db.summary post) <= max_text ->
          Poster._build_post_text post platform
          = Db.topic post +:+ Poster.nl +:+ Poster.nl +:+ Db.summary post)).
Proof.
  split; [|split; [|split]].
  - intros ->. unfold Poster._build_post_text. simpl String.eqb. cbv iota.
    apply len_slice_to_le. lia.
  - intros ->. unfold Poster._build_post_text. simpl String.eqb. cbv iota.
    apply len_slice_to_le. lia.
  - intros Hne. unfold Poster._build_post_text.
    destruct (String.eqb_spec platform "twitter") as [|_]; [contradiction|].
    destruct (String.eqb platform "instagram");
      [etransitivity; [apply len_slice_to_le; lia|lia]|].
    destruct (String.eqb platform "linkedin");
      [etransitivity; [apply len_slice_to_le; lia|lia]|].
    apply len_slice_to_le. lia.
  - intros ->. unfold Poster._build_post_text. simpl String.eqb. cbv iota zeta.
    assert (Hbase : Py.len (Db.topic post +:+ Poster.nl +:+ Poster.nl +:+ Db.summary post)
                    = Py.len (Db.topic post) + 2 + Py.len (Db.summary post)).
    { rewrite !len_append. change (Py.len Poster.nl) with 1. lia. }
    rewrite Hbase.
    set (max_text := if Py.truthy (Db.link post) then 253 else 280).
    destruct (Z.ltb_spec max_text (Py.len (Db.topic post) + 2 + Py.len (Db.summary post)))
      as [Hcut|Hfit].
    + split; [|lia]. intros Htopic. rewrite !len_append.
      pose proof (len_slice_to_le (Db.summary post) (max_text - Py.len (Db.topic post) - 5)
                    ltac:(lia)) as Hs.
      change (Py.len Poster.nl) with 1. change (Py.len "...") with 3. lia.
    + split; [|reflexivity]. intros _. rewrite Hbase. exact Hfit.
Qed.

(** ** Escaping for Telegram *)

Lemma occurs_append (c : ascii) (a b : string) :
  PyStr.occurs c (a +:+ b) = PyStr.occurs c a || PyStr.occurs c b.
Proof.
  induction a as [|x a IH]; [reflexivity|].
  rewrite append_cons. simpl. rewrite IH. apply orb_assoc.
Qed.

Lemma replace_char_removes (old : ascii) (new s : string) :
  PyStr.occurs old new = false -> PyStr.occurs old (PyStr.replace_char old new s) = false.
Proof.
  intros Hnew. induction s as [|x s IH]; [reflexivity|]. simpl.
  destruct (Ascii.eqb x old) eqn:E.
  - rewrite occurs_append, Hnew, IH. reflexivity.
  - simpl. now rewrite E, IH.
Qed.

Lemma replace_char_keeps_out (c old : ascii) (new s : string) :
  PyStr.occurs c new = false -> PyStr.occurs c s = false ->
  PyStr.occurs c (PyStr.replace_char old new s) = false.
Proof.
  intros Hnew. induction s as [|x s IH]; [reflexivity|]. simpl.
  intros H. apply orb_false_iff in H as [Hx Hs].
  destruct (Ascii.eqb x old).
  - rewrite occurs_append, Hnew. now apply IH.
  - simpl. rewrite Hx. now apply IH.
Qed.

Lemma replace_char_absent (old : ascii) (new s : string) :
  PyStr.occurs old s = false -> PyStr.replace_char old new s = s.
Proof.
  induction s as [|x s IH]; [reflexivity|]. simpl.
  intros H. apply orb_false_iff in H as [Hx Hs]. rewrite Hx. f_equal. now apply IH.
Qed.

Lemma replace_char_longer (old : ascii) (new s : string) :
  (1 <= String.length new)%nat ->
  (String.length s <= String.length (PyStr.replace_char old new s))%nat.
Proof.
  intros Hnew. induction s as [|x s IH]; simpl; [lia|].
  destruct (Ascii.eqb x old); [rewrite length_append|simpl]; lia.
Qed.

(** X9: the text that [_escape] returns contains neither [<] nor [>]; it is
    the text itself when that has none of the characters ampersand, [<] and
    [>], and it is never shorter than the text. *)
Theorem escape_removes_markup (text : string) :
  PyStr.occurs "<" (_escape text) = false
  /\ PyStr.occurs ">" (_escape text) = false
  /\ (PyStr.occurs "&" text = false -> PyStr.occurs "<" text = false ->
      PyStr.occurs ">" text = false -> _escape text = text)
  /\ Py.len text <= Py.len (_escape text).
Proof.
  unfold _escape. split; [|split; [|split]].
  - apply replace_char_keeps_out; [reflexivity|].
    apply replace_char_removes. reflexivity.
  - apply replace_char_removes. reflexivity.
  - intros Ha Hl Hg. rewrite (replace_char_absent "&" _ text Ha).
    rewrite (replace_char_absent "<" _ text Hl). now apply replace_char_absent.
  - unfold Py.len.
    pose proof (replace_char_longer "&" "&amp;" text ltac:(simpl; lia)).
    pose proof (replace_char_longer "<" "&lt;" (PyStr.replace_char "&" "&amp;" text)
                  ltac:(simpl; lia)).
    pose proof (replace_char_longer ">" "&gt;"
                  (PyStr.replace_char "<" "&lt;" (PyStr.replace_char "&" "&amp;" text))
                  ltac:(simpl; lia)).
    lia.
Qed.

(** ** The enabled platforms *)

Lemma get_platform_enabled (enabled : list string)
    (registry : string -> option Platforms.Platform) (n : string) :
  In n enabled -> Platforms.get_platform enabled registry n = registry n.
Proof.
  intros Hin. unfold Platforms.get_platform.
  assert (H : existsb (String.eqb n) enabled = true).
  { apply List.existsb_exists. exists n. split; [exact Hin|apply String.eqb_refl]. }
  now rewrite H.
Qed.

Lemma dict_set_new {V} (k : string) (v : V) (d : list (string * V)) :
  ~ In k (List.map fst d) -> Platforms.dict_set k v d = d ++ [(k, v)].
Proof.
  intros Hk. unfold Platforms.dict_set.
  destruct (existsb (fun kv => String.eqb (fst kv) k) d) eqn:E; [|reflexivity].
  exfalso. apply Hk. apply List.existsb_exists in E as ([k0 v0] & Hin & Hk0).
  simpl in Hk0. apply String.eqb_eq in Hk0. subst k0.
  apply List.in_map_iff. exists (k, v0). auto.
Qed.

Lemma get_all_enabled_fold (enabled : list string)
    (registry : string -> option Platforms.Platform) (names : list string) :
  forall acc : list (string * Platforms.Platform),
    (forall n, In n names -> In n enabled) ->
    List.NoDup (List.map fst acc ++ names) ->
    fold_left (fun result n =>
                 match Platforms.get_platform enabled registry n with
                 | Some p => Platforms.dict_set n p result
                 | None => result
                 end) names acc
    = acc ++ omap (fun n => pair n <$> registry n) names.
Proof.
  induction names as [|n names IH]; intros acc Hsub Hnd; simpl.
  - now rewrite app_nil_r.
  - rewrite (get_platform_enabled enabled registry n (Hsub n (or_introl eq_refl))).
    assert (Hfresh : ~ In n (List.map fst acc)).
    { intros Hin. apply List.NoDup_remove_2 in Hnd. apply Hnd.
      apply List.in_or_app. now left. }
    destruct (registry n) as [p|]; simpl.
    + rewrite (dict_set_new n p acc Hfresh). rewrite IH.
      * now rewrite <- app_assoc.
      * intros m Hm. apply Hsub. now right.
      * rewrite List.map_app. simpl. rewrite <- app_assoc. exact Hnd.
    + apply IH.
      * intros m Hm. apply Hsub. now right.
      * now apply List.NoDup_remove_1 in Hnd.
Qed.

(** X10: for a list of enabled names without repetition, as [config.py]
    builds it, [get_all_enabled] is the list of the names that have a class in
    the registry, each with its instance, in the order of the configuration;
    the names without a class are left out. *)
Theorem get_all_enabled_registered (enabled : list string)
    (registry : string -> option Platforms.Platform) :
  List.NoDup enabled ->
  Platforms.get_all_enabled enabled registry
  = omap (fun n => pair n <$> registry n) enabled
  /\ (forall n p, In (n, p) (Platforms.get_all_enabled enabled registry) <->
        In n enabled /\ registry n = Some p).
Proof.
  intros Hnd.
  assert (Heq : Platforms.get_all_enabled enabled registry
                = omap (fun n => pair n <$> registry n) enabled).
  { unfold Platforms.get_all_enabled.
    now rewrite (get_all_enabled_fold enabled registry enabled []). }
  split; [exact Heq|]. intros n p. rewrite Heq, <- !list_elem_of_In, list_elem_of_omap.
  split.
  - intros (m & Hm & Hp). destruct (registry m) as [q|] eqn:E; simpl in Hp; [|discriminate].
    injection Hp as <- <-. auto.
  - intros [Hn Hp]. exists n. split; [exact Hn|]. now rewrite Hp.
Qed.

Lemma get_all_enabled_registered_witness :
  List.map fst (Platforms.get_all_enabled ["facebook"; "linkedin"; "twitter"]
                  (module_registry (Demo.publishing "facebook") (Demo.publishing "twitter")
                     (Demo.publishing "instagram") (Demo.publishing "youtube")))
  = ["facebook"; "twitter"].
Proof.
  destruct (get_all_enabled_registered ["facebook"; "linkedin"; "twitter"]
              (module_registry (Demo.publishing "facebook") (Demo.publishing "twitter")
                 (Demo.publishing "instagram") (Demo.publishing "youtube"))) as [H _].
  - repeat constructor; simpl; intuition discriminate.
  - rewrite H. reflexivity.
Defined.

(** X11: the list [ENABLED_PLATFORMS] that [config.py] computes has no
    repetition and keeps the order facebook, instagram, twitter, youtube,
    linkedin; a name is in it exactly when its credentials are set: both
    values for facebook, instagram and twitter, the one value for youtube and
    linkedin. *)
Theorem enabled_platforms_from_credentials (c : Config.Credentials) :
  List.NoDup (Config.ENABLED_PLATFORMS c)
  /\ sublist (Config.ENABLED_PLATFORMS c)
       ["facebook"; "instagram"; "twitter"; "youtube"; "linkedin"]
  /\ (In "facebook" (Config.ENABLED_PLATFORMS c) <->
        Py.truthy (Config.FACEBOOK_ACCESS_TOKEN c) = true
        /\ Py.truthy (Config.FACEBOOK_PAGE_ID c) = true)
  /\ (In "instagram" (Config.ENABLED_PLATFORMS c) <->
        Py.truthy (Config.INSTAGRAM_ACCESS_TOKEN c) = true
        /\ Py.truthy (Config.INSTAGRAM_BUSINESS_ACCOUNT_ID c) = true)
  /\ (In "twitter" (Config.ENABLED_PLATFORMS c) <->
        Py.truthy (Config.TWITTER_API_KEY c) = true
        /\ Py.truthy (Config.TWITTER_ACCESS_TOKEN c) = true)
  /\ (In "youtube" (Config.ENABLED_PLATFORMS c) <->
        Py.truthy (Config.YOUTUBE_REFRESH_TOKEN c) = true)
  /\ (In "linkedin" (Config.ENABLED_PLATFORMS c) <->
        Py.truthy (Config.LINKEDIN_ACCESS_TOKEN c) = true).
Proof.
  unfold Config.ENABLED_PLATFORMS.
  rewrite <- !andb_true_iff.
  destruct (Py.truthy (Config.FACEBOOK_ACCESS_TOKEN c) && Py.truthy (Config.FACEBOOK_PAGE_ID c)),
    (Py.truthy (Config.INSTAGRAM_ACCESS_TOKEN c)
     && Py.truthy (Config.INSTAGRAM_BUSINESS_ACCOUNT_ID c)),
    (Py.truthy (Config.TWITTER_API_KEY c) && Py.truthy (Config.TWITTER_ACCESS_TOKEN c)),
    (Py.truthy (Config.YOUTUBE_REFRESH_TOKEN c)),
    (Py.truthy (Config.LINKEDIN_ACCESS_TOKEN c));
    (split; [repeat constructor; simpl; intuition discriminate|]);
    (split; [repeat constructor|]);
    simpl; intuition (try discriminate; try congruence).
Qed.

(** ** What a dispatch can touch *)

Lemma respects_for_each_in (R : State -> State -> Prop) `{!Reflexive R, !Transitive R}
    {A B} (body : A -> B -> M B) (xs : list A) :
  (forall x acc, In x xs -> respects R (body x acc)) ->
  forall acc, respects R (for_each body xs acc).
Proof.
  induction xs as [|x xs IH]; intros Hbody acc; simpl.
  - now apply respects_ret.
  - apply respects_bind; [exact _|apply Hbody; now left|].
    intros acc'. apply IH. intros y acc'' Hy. apply Hbody. now right.
Qed.

Section Footprint.
Context (w : World) (id : Z).

Local Abbreviation R := (rtc (dispatch_step id (channel_names w))).

Lemma footprint_tick (s : State) : R s (tick s).
Proof. apply rtc_once. constructor. Qed.

Lemma footprint_status (st : string) (e : option string) :
  respects R (update_post_status w id st None None None e).
Proof.
  apply respects_db_write; [exact _|exact footprint_tick|].
  intros now s d' H. apply rtc_once. eapply step_status. exact H.
Qed.

Lemma footprint_platform (name st : string) (a b e : option string) :
  In name (channel_names w) ->
  respects R (update_platform_status w id name st a b e).
Proof.
  intros Hname. apply respects_db_write; [exact _|exact footprint_tick|].
  intros now s d' H. apply rtc_once. eapply step_platform; eassumption.
Qed.

Lemma footprint_emit (ev : Event) :
  dispatch_event id (channel_names w) ev -> respects R (emit ev).
Proof. intros H s. apply rtc_once. now constructor. Qed.

Lemma footprint_round (post : Db.Post) (imgs : gmap string (option string))
    (np : string * Platforms.Platform) (acc : Poster.Tally) :
  In np (enabled_channels w) ->
  respects R (Poster.post_to_platform w id post imgs np acc).
Proof.
  intros Hin.
  assert (Hname : In (fst np) (channel_names w)) by now apply List.in_map.
  unfold Poster.post_to_platform.
  repeat first
    [ apply respects_bind; [exact _| |intros ?]
    | apply footprint_platform; exact Hname
    | apply footprint_emit; simpl; auto
    | apply respects_ret; exact _
    | match goal with |- respects _ (if ?b then _ else _) => destruct b end ].
Qed.

Lemma footprint_conclude (tally : Poster.Tally) : respects R (Poster.conclude w id tally).
Proof.
  unfold Poster.conclude.
  repeat first
    [ apply respects_bind; [exact _| |intros ?]
    | apply footprint_status
    | apply footprint_emit; reflexivity
    | match goal with |- respects _ (if ?b then _ else _) => destruct b end ].
Qed.

Lemma footprint_report (tally : Poster.Tally) : respects R (Poster.report w id tally).
Proof.
  unfold Poster.report, get_post, Poster.slack_send_result, Poster.telegram_send_summary.
  repeat first
    [ apply respects_bind; [exact _| |intros ?]
    | apply respects_db_read; exact footprint_tick
    | apply footprint_emit; reflexivity
    | apply respects_ret; exact _
    | apply respects_raise; exact _
    | match goal with
      | |- respects _ (match ?x with _ => _ end) => destruct x
      end ].
Qed.

Lemma footprint_dispatch : respects R (Poster.dispatch w id).
Proof.
  unfold Poster.dispatch, get_post, Poster.process_media.
  repeat first
    [ apply footprint_conclude
    | apply footprint_report
    | apply respects_bind; [exact _| |intros ?]
    | apply footprint_status
    | apply respects_db_read; exact footprint_tick
    | apply respects_ret; exact _
    | apply respects_lift; exact _
    | apply respects_for_each_in; [exact _|exact _|intros; now apply footprint_round]
    | match goal with
      | |- respects _ (if ?b then _ else _) => destruct b
      | |- respects _ (match ?x with _ => _ end) => destruct x
      end ].
Qed.

Lemma footprint_crashed (e : string) : respects R (Poster.crashed w id e).
Proof.
  unfold Poster.crashed.
  apply respects_bind; [exact _|apply footprint_status|].
  intros ?. apply footprint_emit. reflexivity.
Qed.

(** Every run of [_do_post], whatever fails in it, is a sequence of such
    changes. *)
Lemma footprint_do_post : respects R (Poster._do_post w id).
Proof.
  intros s. unfold Poster._do_post, bind, gets, modify, try_finally. simpl.
  destruct (decide (id ∈ posting_in_progress s)); [reflexivity|].
  pose proof (respects_try_except R _ _ footprint_dispatch footprint_crashed
                (set_posting_in_progress (posting_in_progress s ∪ {[id]}) s)) as H.
  destruct (try_except (Poster.dispatch w id) (Poster.crashed w id) _) as [o s2].
  simpl in *.
  etransitivity; [apply rtc_once, step_in_flight|].
  etransitivity; [exact H|apply rtc_once, step_in_flight].
Qed.

End Footprint.

(** What a single change leaves in place is left in place by a run. *)
Lemma steps_keep {X} (id : Z) (names : list string) (f : State -> X) :
  (forall s s', dispatch_step id names s s' -> f s' = f s) ->
  forall s s', rtc (dispatch_step id names) s s' -> f s' = f s.
Proof.
  intros Hstep s s' H. induction H as [|s1 s2 s3 H12 _ IH]; [reflexivity|].
  rewrite IH. now apply Hstep.
Qed.

Lemma filter_app_none {A} (f : A -> bool) (l : list A) (x : A) :
  f x = false -> List.filter f (l ++ [x]) = List.filter f l.
Proof. intros H. rewrite List.filter_app. simpl. rewrite H. apply app_nil_r. Qed.

Lemma get_platform_statuses_map (id id' : Z) (name : string)
    (g : Db.PlatformPost -> Db.PlatformPost) (l : list Db.PlatformPost) :
  id' <> id ->
  (forall r, Db.pp_post_id (g r) = Db.pp_post_id r) ->
  List.filter (fun r => Db.pp_post_id r =? id')
    (List.map (fun r => if is_row id name r then g r else r) l)
  = List.filter (fun r => Db.pp_post_id r =? id') l.
Proof.
  intros Hne Hg. induction l as [|r l IH]; simpl; [reflexivity|].
  destruct (is_row id name r) eqn:E; [|now rewrite IH].
  unfold is_row in E. apply andb_true_iff in E as [E _]. apply Z.eqb_eq in E.
  assert (Hr : (Db.pp_post_id r =? id') = false) by (apply Z.eqb_neq; congruence).
  now rewrite Hg, Hr.
Qed.

(** One change made for [id] leaves the other posts as they are. *)
Lemma step_leaves_others (id id' : Z) (names : list string) (s s' : State) :
  id' <> id -> dispatch_step id names s s' ->
  Db.get_post id' (db s') = Db.get_post id' (db s)
  /\ Db.get_platform_statuses id' (db s') = Db.get_platform_statuses id' (db s)
  /\ Db.audit_of id' (db s') = Db.audit_of id' (db s).
Proof.
  intros Hne Hstep.
  assert (Hno : (id =? id') = false) by (apply Z.eqb_neq; congruence).
  destruct Hstep as [s|g s|ev s Hev|now st e s d' H|now name st a b e s d' Hname H];
    try (repeat split; reflexivity); cbn [db set_db].
  - apply update_post_status_tables in H as (_ & Hposts & _ & Hpp & Hau & _).
    split; [|split].
    + unfold Db.get_post. rewrite Hposts. apply find_map_other; [exact Hne|reflexivity].
    + unfold Db.get_platform_statuses. now rewrite Hpp.
    + unfold Db.audit_of. rewrite Hau. now apply filter_app_none.
  - apply update_platform_status_tables in H as (_ & Hposts & Hpp & Hau & _).
    split; [|split].
    + unfold Db.get_post. now rewrite Hposts.
    + unfold Db.get_platform_statuses. rewrite Hpp.
      apply get_platform_statuses_map; [exact Hne|reflexivity].
    + unfold Db.audit_of. rewrite Hau. now apply filter_app_none.
Qed.

(** One change leaves the rows of the platforms outside the loop. *)
Lemma step_leaves_unlisted (id id' : Z) (names : list string) (name : string)
    (s s' : State) :
  ~ In name names -> dispatch_step id names s s' ->
  rows_of id' name (db s') = rows_of id' name (db s).
Proof.
  intros Hname Hstep.
  destruct Hstep as [s|g s|ev s Hev|now st e s d' H|now name0 st a b e s d' Hname0 H];
    try reflexivity; cbn [db set_db].
  - apply update_post_status_tables in H as (_ & _ & _ & Hpp & _).
    unfold rows_of. now rewrite Hpp.
  - apply update_platform_status_tables in H as (_ & _ & Hpp & _).
    unfold rows_of. rewrite Hpp. apply filter_map_apart; [|reflexivity].
    right. intros ->. contradiction.
Qed.

(** One change leaves the content and the approval of every post. *)
Lemma step_keeps_columns (id : Z) (names : list string) (s s' : State) :
  dispatch_step id names s s' ->
  List.map (fun p => (content_of p, approval_of p, Db.retry_count p)) (Db.posts (db s'))
  = List.map (fun p => (content_of p, approval_of p, Db.retry_count p)) (Db.posts (db s)).
Proof.
  intros Hstep.
  destruct Hstep as [s|g s|ev s Hev|now st e s d' H|now name0 st a b e s d' Hname0 H];
    try reflexivity; cbn [db set_db].
  - apply update_post_status_tables in H as (_ & Hposts & _).
    rewrite Hposts, List.map_map. apply List.map_ext. intros p.
    destruct (Db.post_id p =? id); reflexivity.
  - apply update_platform_status_tables in H as (_ & Hposts & _). now rewrite Hposts.
Qed.

Lemma step_keeps_ids (id : Z) (names : list string) (s s' : State) :
  dispatch_step id names s s' ->
  List.map Db.post_id (Db.posts (db s')) = List.map Db.post_id (Db.posts (db s)).
Proof.
  intros Hstep.
  destruct Hstep as [s|g s|ev s Hev|now st e s d' H|now name0 st a b e s d' Hname0 H];
    try reflexivity; cbn [db set_db].
  - now apply update_post_status_tables in H as (_ & _ & Hids & _).
  - apply update_platform_status_tables in H as (_ & Hposts & _). now rewrite Hposts.
Qed.

Lemma find_same_columns {X} (f : Db.Post -> X) (id : Z) (l l' : list Db.Post) :
  (forall p q, f p = f q -> Db.post_id p = Db.post_id q) ->
  List.map f l' = List.map f l ->
  f <$> List.find (fun p => Db.post_id p =? id) l'
  = f <$> List.find (fun p => Db.post_id p =? id) l.
Proof.
  intros Hf. revert l'. induction l as [|p l IH]; intros [|p' l'] H; try discriminate;
    [reflexivity|].
  simpl in H. injection H as Hp Hl. simpl. rewrite (Hf _ _ Hp).
  destruct (Db.post_id p =? id); simpl; [now rewrite Hp|now apply IH].
Qed.

(** A run made for [id] leaves the other posts as they are. *)
Lemma steps_leave_others (id id' : Z) (names : list string) (s s' : State) :
  id' <> id -> rtc (dispatch_step id names) s s' ->
  Db.get_post id' (db s') = Db.get_post id' (db s)
  /\ Db.get_platform_statuses id' (db s') = Db.get_platform_statuses id' (db s)
  /\ Db.audit_of id' (db s') = Db.audit_of id' (db s).
Proof.
  intros Hne Hrun.
  pose proof (steps_keep id names
                (fun s0 => (Db.get_post id' (db s0), Db.get_platform_statuses id' (db s0),
                            Db.audit_of id' (db s0)))) as Hkeep.
  simpl in Hkeep.
  specialize (Hkeep (fun s1 s2 Hstep =>
                       match step_leaves_others id id' _ s1 s2 Hne Hstep with
                       | conj H1 (conj H2 H3) =>
                           f_equal3 (fun x y z => (x, y, z)) H1 H2 H3
                       end)
                s s' Hrun).
  injection Hkeep as H1 H2 H3. auto.
Qed.

(** X12: a call of [_do_post] for one item, whatever fails in it, leaves
    every other item as it was: its row, its platform rows and its audit
    trail. *)
Theorem do_post_leaves_other_items (w : World) (id id' : Z) (s : State) :
  id' <> id ->
  Db.get_post id' (db (snd (Poster._do_post w id s))) = Db.get_post id' (db s)
  /\ Db.get_platform_statuses id' (db (snd (Poster._do_post w id s)))
     = Db.get_platform_statuses id' (db s)
  /\ Db.audit_of id' (db (snd (Poster._do_post w id s))) = Db.audit_of id' (db s).
Proof.
  intros Hne. apply (steps_leave_others id id' (channel_names w)); [exact Hne|].
  apply footprint_do_post.
Qed.

Lemma do_post_leaves_other_items_witness :
  Db.get_post 2 (db (snd (Poster._do_post Demo.flaky_world 1
                            (Demo.state_of (snd Sample.created_second)))))
  = Db.get_post 2 (snd Sample.created_second).
Proof.
  apply (do_post_leaves_other_items Demo.flaky_world 1 2
           (Demo.state_of (snd Sample.created_second))).
  lia.
Defined.

(** A run leaves the content, the approval data and the retry counter of
    every post. *)
Lemma steps_keep_post_columns (id id' : Z) (names : list string) (s s' : State) :
  rtc (dispatch_step id names) s s' ->
  (content_of <$> Db.get_post id' (db s')) = (content_of <$> Db.get_post id' (db s))
  /\ (approval_of <$> Db.get_post id' (db s')) = (approval_of <$> Db.get_post id' (db s))
  /\ (Db.retry_count <$> Db.get_post id' (db s'))
     = (Db.retry_count <$> Db.get_post id' (db s)).
Proof.
  intros Hrun.
  pose proof (steps_keep id names
                (fun s0 => List.map (fun p => (content_of p, approval_of p, Db.retry_count p))
                             (Db.posts (db s0)))
                (step_keeps_columns id names) s s' Hrun) as Hkeep.
  simpl in Hkeep.
  pose proof (find_same_columns (fun p => (content_of p, approval_of p, Db.retry_count p))
                id' _ _ ltac:(intros p q [=]; assumption) Hkeep) as Hfind.
  fold (Db.get_post id' (db s')) in Hfind. fold (Db.get_post id' (db s)) in Hfind.
  destruct (Db.get_post id' (db s')), (Db.get_post id' (db s)); simpl in *;
    repeat split; congruence.
Qed.

(** X13: a call of [_do_post], whatever fails in it, creates and deletes
    no post and changes in no post the content (topic, summary, text, link,
    media, priority, source, tags, creation and schedule times), the approval
    data (who approved, when, how, the reason of a rejection) or the retry
    counter: what it writes to a post is the status, the times of the update
    and of the completion, and the error text. *)
Theorem do_post_keeps_content_and_approval (w : World) (id id' : Z) (s : State) :
  (content_of <$> Db.get_post id' (db (snd (Poster._do_post w id s))))
  = (content_of <$> Db.get_post id' (db s))
  /\ (approval_of <$> Db.get_post id' (db (snd (Poster._do_post w id s))))
     = (approval_of <$> Db.get_post id' (db s))
  /\ (Db.retry_count <$> Db.get_post id' (db (snd (Poster._do_post w id s))))
     = (Db.retry_count <$> Db.get_post id' (db s))
  /\ List.map Db.post_id (Db.posts (db (snd (Poster._do_post w id s))))
     = List.map Db.post_id (Db.posts (db s)).
Proof.
  destruct (steps_keep_post_columns id id' (channel_names w) s _ (footprint_do_post w id s))
    as (H1 & H2 & H3).
  split; [exact H1|]. split; [exact H2|]. split; [exact H3|].
  apply (steps_keep id (channel_names w)
           (fun s0 => List.map Db.post_id (Db.posts (db s0)))
           (step_keeps_ids id (channel_names w)) s _ (footprint_do_post w id s)).
Qed.

(** ** What a dispatch adds to the trace and to the audit trail *)

Lemma step_keeps_requests (id : Z) (names : list string) (s s' : State) :
  dispatch_step id names s s' ->
  (pending_approvals s', cancelled_timers s') = (pending_approvals s, cancelled_timers s).
Proof. intros Hstep. destruct Hstep; reflexivity. Qed.

Lemma steps_extend_trace (id : Z) (names : list string) (s s' : State) :
  rtc (dispatch_step id names) s s' ->
  exists evs, events s' = events s ++ evs /\ List.Forall (dispatch_event id names) evs.
Proof.
  intros H. induction H as [s|s1 s2 s3 H12 _ (evs & Hevs & Hall)].
  - exists []. split; [now rewrite app_nil_r|constructor].
  - destruct H12 as [s|g s|ev s Hev|now st e s d' H|now name0 st a b e s d' Hname0 H];
      try (exists evs; split; [exact Hevs|exact Hall]).
    exists (ev :: evs). split; [|now constructor].
    rewrite Hevs. simpl. now rewrite <- app_assoc.
Qed.

Lemma steps_extend_audit (id : Z) (names : list string) (s s' : State) :
  rtc (dispatch_step id names) s s' ->
  exists entries,
    Db.audit_log (db s') = Db.audit_log (db s) ++ entries
    /\ List.Forall (fun a => Db.audit_post_id a = id) entries.
Proof.
  intros H. induction H as [s|s1 s2 s3 H12 _ (entries & Hentries & Hall)].
  - exists []. split; [now rewrite app_nil_r|constructor].
  - destruct H12 as [s|g s|ev s Hev|now st e s d' H|now name0 st a b e s d' Hname0 H];
      try (exists entries; split; [exact Hentries|exact Hall]); cbn [db set_db] in *.
    + apply update_post_status_tables in H as (_ & _ & _ & _ & Hau & _).
      eexists (_ :: entries). split; [|constructor; [|exact Hall]].
      * rewrite Hentries, Hau. now rewrite <- app_assoc.
      * reflexivity.
    + apply update_platform_status_tables in H as (_ & _ & _ & Hau & _).
      eexists (_ :: entries). split; [|constructor; [|exact Hall]].
      * rewrite Hentries, Hau. now rewrite <- app_assoc.
      * reflexivity.
Qed.

Lemma continuation_calls_app (evs evs' : list Event) :
  continuation_calls (evs ++ evs') = continuation_calls evs ++ continuation_calls evs'.
Proof.
  unfold continuation_calls. apply omap_app.
Qed.

Lemma dispatch_events_no_calls (id : Z) (names : list string) (evs : list Event) :
  List.Forall (dispatch_event id names) evs -> continuation_calls evs = [].
Proof.
  intros Hall. induction Hall as [|ev evs Hev _ IH]; [reflexivity|].
  change (ev :: evs) with ([ev] ++ evs).
  rewrite (continuation_calls_app [ev] evs), IH.
  destruct ev; try reflexivity. contradiction.
Qed.

(** X14: a call of [_do_post] for an item, whatever fails in it, only adds
    to the trace, and what it adds are calls of the adapters it loops over,
    the pauses of two seconds, alerts about this item and its two summaries:
    it calls no continuation, sends no approval request, edits no message and
    starts or cancels no timer; the pending approval requests and the
    cancelled timers are as before. *)
Theorem do_post_trace (w : World) (id : Z) (s : State) :
  (exists evs,
     events (snd (Poster._do_post w id s)) = events s ++ evs
     /\ List.Forall (dispatch_event id (channel_names w)) evs)
  /\ continuation_calls (events (snd (Poster._do_post w id s)))
     = continuation_calls (events s)
  /\ pending_approvals (snd (Poster._do_post w id s)) = pending_approvals s
  /\ cancelled_timers (snd (Poster._do_post w id s)) = cancelled_timers s.
Proof.
  pose proof (footprint_do_post w id s) as Hrun.
  destruct (steps_extend_trace _ _ _ _ Hrun) as (evs & Hevs & Hall).
  pose proof (steps_keep id (channel_names w) _ (step_keeps_requests id (channel_names w))
                s _ Hrun) as Hreq.
  simpl in Hreq. injection Hreq as Hp Hc.
  split; [exists evs; split; assumption|]. split; [|split; assumption].
  rewrite Hevs, continuation_calls_app, (dispatch_events_no_calls _ _ _ Hall).
  apply app_nil_r.
Qed.

Lemma steps_keep_store_ok (id : Z) (names : list string) (s s' : State) :
  rtc (dispatch_step id names) s s' -> store_ok (db s) -> store_ok (db s').
Proof.
  intros H. induction H as [s|s1 s2 s3 H12 _ IH]; [auto|].
  intros Hok. apply IH.
  destruct H12 as [s|g s|ev s Hev|now st e s d' H|now name0 st a b e s d' Hname0 H];
    try exact Hok; cbn [db set_db].
  - eapply store_ok_update_post_status; eassumption.
  - eapply store_ok_update_platform_status; eassumption.
Qed.

(** X15: a call of [_do_post] for an item, whatever fails in it, only
    appends to the audit trail, and every entry it appends is about this
    item; consistent tables stay consistent. *)
Theorem do_post_audit (w : World) (id : Z) (s : State) :
  (exists entries,
     Db.audit_log (db (snd (Poster._do_post w id s))) = Db.audit_log (db s) ++ entries
     /\ List.Forall (fun a => Db.audit_post_id a = id) entries)
  /\ (store_ok (db s) -> store_ok (db (snd (Poster._do_post w id s)))).
Proof.
  split.
  - apply (steps_extend_audit id (channel_names w)), footprint_do_post.
  - apply (steps_keep_store_ok id (channel_names w)), footprint_do_post.
Qed.

(** ** Platforms without an adapter *)

Lemma get_all_enabled_keys (enabled : list string)
    (registry : string -> option Platforms.Platform) (n : string) :
  In n (List.map fst (Platforms.get_all_enabled enabled registry)) ->
  In n enabled /\ registry n <> None.
Proof.
  unfold Platforms.get_all_enabled. generalize enabled at 2 3. intros names.
  assert (H : forall acc : list (string * Platforms.Platform),
             List.NoDup (List.map fst acc) ->
             (forall k, In k (List.map fst acc) -> In k names /\ registry k <> None) ->
             forall names',
               (forall k, In k names' -> In k names) ->
               List.NoDup (List.map fst
                 (fold_left (fun result n =>
                    match Platforms.get_platform enabled registry n with
                    | Some p => Platforms.dict_set n p result
                    | None => result
                    end) names' acc))
               /\ (forall k, In k (List.map fst
                 (fold_left (fun result n =>
                    match Platforms.get_platform enabled registry n with
                    | Some p => Platforms.dict_set n p result
                    | None => result
                    end) names' acc)) -> In k names /\ registry k <> None)).
  { intros acc Hnd Hacc names'. revert acc Hnd Hacc.
    induction names' as [|m names' IH]; intros acc Hnd Hacc Hsub; simpl; [auto|].
    assert (Hsub' : forall k, In k names' -> In k names) by (intros; apply Hsub; now right).
    destruct (Platforms.get_platform enabled registry m) as [p|] eqn:E.
    - destruct (dict_set_keys m p acc Hnd) as [Hnd' Hkeys].
      apply IH; [exact Hnd'| |exact Hsub'].
      intros k Hk. apply Hkeys in Hk as [-> | Hk]; [|now apply Hacc].
      split; [apply Hsub; now left|].
      unfold Platforms.get_platform in E.
      destruct (existsb (String.eqb m) enabled); congruence.
    - now apply IH. }
  intros Hin. apply (H [] ltac:(constructor) ltac:(intros k []) names ltac:(auto)). exact Hin.
Qed.

(** X16: a platform that is enabled but has no class in the registry is
    never dispatched to: its rows, which [create_post] wrote as pending, are
    left as they are by every call of [_do_post], and no adapter is called
    under its name. With the registry of [platforms/__init__.py] this is the
    case of linkedin, which [config.py] enables when its token is set. *)
Theorem unregistered_platform_never_dispatched (w : World) (name : string) (id id' : Z)
    (s : State) :
  _REGISTRY w name = None ->
  rows_of id' name (db (snd (Poster._do_post w id s))) = rows_of id' name (db s)
  /\ (forall text image_path link,
        In (EvChannelPost name text image_path link)
          (events (snd (Poster._do_post w id s))) ->
        In (EvChannelPost name text image_path link) (events s))
  /\ (forall facebook twitter instagram youtube,
        module_registry facebook twitter instagram youtube "linkedin" = None).
Proof.
  intros Hreg.
  assert (Hname : ~ In name (channel_names w)).
  { intros Hin. apply get_all_enabled_keys in Hin as [_ Hin]. contradiction. }
  pose proof (footprint_do_post w id s) as Hrun.
  split; [|split].
  - apply (steps_keep id (channel_names w) (fun s0 => rows_of id' name (db s0))
             (fun s1 s2 => step_leaves_unlisted id id' _ name s1 s2 Hname) s _ Hrun).
  - intros text image_path link Hin.
    destruct (steps_extend_trace _ _ _ _ Hrun) as (evs & Hevs & Hall).
    rewrite Hevs in Hin. apply List.in_app_or in Hin as [Hin|Hin]; [exact Hin|].
    rewrite List.Forall_forall in Hall. specialize (Hall _ Hin). simpl in Hall.
    contradiction.
  - reflexivity.
Qed.

Lemma unregistered_platform_never_dispatched_witness :
  rows_of 1 "linkedin"
    (db (snd (Poster._do_post Sample.linkedin_world 1 (Demo.state_of Sample.db_linkedin))))
  = rows_of 1 "linkedin" Sample.db_linkedin.
Proof.
  apply (unregistered_platform_never_dispatched Sample.linkedin_world "linkedin" 1 1
           (Demo.state_of Sample.db_linkedin)).
  reflexivity.
Defined.

(** The run of the witness: facebook publishes, the item is completed, and
    the row of linkedin is still pending. *)
Example linkedin_row_stays_pending :
  (Db.status <$> Db.get_post 1
     (db (snd (Poster._do_post Sample.linkedin_world 1 (Demo.state_of Sample.db_linkedin)))))
  = Some "completed"
  /\ List.map (fun r => (Db.pp_platform r, Db.pp_status r))
       (Db.get_platform_statuses 1
          (db (snd (Poster._do_post Sample.linkedin_world 1
                      (Demo.state_of Sample.db_linkedin)))))
     = [("facebook", "published"); ("linkedin", "pending")].
Proof. vm_compute. split; reflexivity. Qed.

(** ** Where a dispatch ends *)

Lemma aggregate_status_terminal (t : Poster.Tally) : terminal (aggregate_status t).
Proof.
  unfold aggregate_status, terminal.
  destruct (_ =? _); [auto|]. destruct (0 <? _); auto.
Qed.

(** A dispatch of an existing item that is not in flight returns when the
    storage answers and the image processing returns; the item then has one
    of the three final statuses. *)
Lemma do_post_terminal_run (w : World) (id : Z) (s : State) (post : Db.Post) :
  no_db_faults w -> media_returns w ->
  id ∉ posting_in_progress s ->
  Db.get_post id (db s) = Some post ->
  exists s' p',
    Poster._do_post w id s = (Ret tt, s')
    /\ Db.get_post id (db s') = Some p'
    /\ terminal (Db.status p')
    /\ posting_in_progress s' = posting_in_progress s.
Proof.
  intros Hnf Hmedia Hid Hpost.
  destruct (run_process_media w post Hmedia) as [imgs Himgs].
  destruct (do_post_run w id s post imgs Hnf Himgs Hid Hpost)
    as (sL & pL & Heq & HgetL & _).
  destruct (finish_run w id
              (tally_after post imgs (enabled_channels w) (Poster.mkTally [] 0 0))
              sL pL Hnf HgetL) as (sF & pF & Hfin & HgetF & Hst).
  rewrite Hfin in Heq. simpl in Heq.
  exists (set_posting_in_progress (posting_in_progress s) sF), pF.
  split; [exact Heq|]. split; [exact HgetF|]. split; [|reflexivity].
  destruct Hst as [-> | ->]; [apply aggregate_status_terminal|].
  right. right. reflexivity.
Qed.

Lemma terminal_not_queued (p : Db.Post) :
  terminal (Db.status p) ->
  Db.is_approved p = false /\ String.eqb (Db.status p) "pending" = false.
Proof.
  unfold Db.is_approved. intros [-> | [-> | ->]]; split; reflexivity.
Qed.

(** X17: a call of [_do_post] for an existing item that is not in flight,
    when the storage answers and the image processing returns, returns
    without an exception, whatever the adapters and the summaries do; the
    item is then completed, partial_failure or failed, the in-flight set is
    as before, and with consistent tables no row of this id is returned by
    [get_pending_posts] or [get_posts_needing_approval] any more, so that
    the scan does not dispatch it again. *)
Theorem do_post_settles (w : World) (id : Z) (s : State) (post : Db.Post) :
  no_db_faults w -> media_returns w ->
  store_ok (db s) ->
  id ∉ posting_in_progress s ->
  Db.get_post id (db s) = Some post ->
  fst (Poster._do_post w id s) = Ret tt
  /\ (exists p', Db.get_post id (db (snd (Poster._do_post w id s))) = Some p'
                 /\ terminal (Db.status p'))
  /\ posting_in_progress (snd (Poster._do_post w id s)) = posting_in_progress s
  /\ (forall now q, In q (Db.get_pending_posts now (db (snd (Poster._do_post w id s)))) ->
        Db.post_id q <> id)
  /\ (forall q, In q (Queries.get_posts_needing_approval (db (snd (Poster._do_post w id s)))) ->
        Db.post_id q <> id).
Proof.
  intros Hnf Hmedia Hok Hid Hpost.
  pose proof (steps_keep_store_ok id (channel_names w) s _ (footprint_do_post w id s) Hok)
    as Hok'.
  destruct (do_post_terminal_run w id s post Hnf Hmedia Hid Hpost)
    as (s' & p' & Hrun & Hget & Hterm & Hfl).
  rewrite Hrun in *. simpl in *.
  destruct (terminal_not_queued p' Hterm) as [Hna Hnp].
  assert (Hrow : forall q, In q (Db.posts (db s')) -> Db.post_id q = id -> q = p').
  { intros q Hq Hqid. destruct Hok' as [Hnd _].
    pose proof (in_get_post (db s') q Hnd Hq) as Hq'. rewrite Hqid in Hq'. congruence. }
  split; [reflexivity|]. split; [eauto|]. split; [exact Hfl|]. split.
  - intros now q Hq Hqid.
    assert (Hq' : In q (List.filter (fun p => Db.is_approved p && Db.is_due now p)
                          (Db.posts (db s')))).
    { rewrite <- list_elem_of_In in *. unfold Db.get_pending_posts in Hq.
      now rewrite merge_sort_Permutation in Hq. }
    apply List.filter_In in Hq' as [Hin Hq']. apply andb_true_iff in Hq' as [Hq' _].
    rewrite (Hrow q Hin Hqid) in Hq'. congruence.
  - intros q Hq Hqid.
    assert (Hq' : In q (List.filter (fun p => String.eqb (Db.status p) "pending")
                          (Db.posts (db s')))).
    { rewrite <- list_elem_of_In in *. unfold Queries.get_posts_needing_approval in Hq.
      now rewrite merge_sort_Permutation in Hq. }
    apply List.filter_In in Hq' as [Hin Hq'].
    rewrite (Hrow q Hin Hqid) in Hq'. congruence.
Qed.

Lemma store_ok_init : store_ok Db.init_db.
Proof. repeat split; constructor. Qed.

Lemma store_ok_db_created : store_ok Demo.db_created.
Proof. apply store_ok_create_post, store_ok_init. Qed.

Lemma store_ok_db_approved : store_ok Demo.db_approved.
Proof.
  apply (store_ok_update_post_status "2024-01-01T09:01:00+00:00" 1 "approved"
           (Some "telegram_user") (Some "manual") None None Demo.db_created).
  - reflexivity.
  - apply store_ok_db_created.
Qed.

Lemma do_post_settles_witness :
  fst (Poster._do_post Demo.flaky_world 1 (Demo.state_of Demo.db_approved)) = Ret tt
  /\ (exists p',
        Db.get_post 1 (db (snd (Poster._do_post Demo.flaky_world 1
                                  (Demo.state_of Demo.db_approved)))) = Some p'
        /\ terminal (Db.status p')).
Proof.
  destruct (do_post_settles Demo.flaky_world 1 (Demo.state_of Demo.db_approved)
              Demo.approved_post) as (H1 & H2 & _).
  - intros n. reflexivity.
  - intros url. eexists. reflexivity.
  - apply store_ok_db_approved.
  - simpl. apply not_elem_of_empty.
  - reflexivity.
  - split; [exact H1|exact H2].
Defined.

(** ** The aggregate status counts the platforms that published *)

(** X18: when the storage answers and neither the image processing nor the
    two summaries raise, a call of [_do_post] for an existing item that is not
    in flight returns, and the status it leaves counts the platforms whose
    call succeeded: completed when all did (also when there is none),
    partial_failure when some but not all did, failed when none of at least
    one did. The row of each platform is published or failed as its own call
    went, and the last two events are the summaries for Slack and Telegram,
    which list the platforms in the order of the calls. *)
Theorem do_post_status_by_count (w : World) (id : Z) (s : State) (post : Db.Post)
    (imgs : gmap string (option string)) :
  no_db_faults w -> summaries_return w ->
  (forall s0, Poster.process_media w post s0 = (Ret imgs, s0)) ->
  id ∉ posting_in_progress s ->
  Db.get_post id (db s) = Some post ->
  fst (Poster._do_post w id s) = Ret tt
  /\ (Db.status <$> Db.get_post id (db (snd (Poster._do_post w id s))))
     = Some (if List.length
                  (List.filter (fun np => Platforms.success
                                            (Poster.channel_result post imgs np))
                     (enabled_channels w))
                =? List.length (enabled_channels w)
             then "completed"
             else if 0 <? List.length
                            (List.filter (fun np => Platforms.success
                                                      (Poster.channel_result post imgs np))
                               (enabled_channels w))
                  then "partial_failure" else "failed")%nat
  /\ (forall np, In np (enabled_channels w) ->
        List.Forall (fun r => Db.pp_status r
                              = if Platforms.success (Poster.channel_result post imgs np)
                                then "published" else "failed")
          (rows_of id (fst np) (db (snd (Poster._do_post w id s)))))
  /\ (exists evs results,
        events (snd (Poster._do_post w id s))
        = evs ++ [EvSlackResult id results; EvTelegramSummary id results]
        /\ List.map result_platform results = channel_names w).
Proof.
  intros Hnf Hsum Himgs Hid Hpost.
  destruct (do_post_run w id s post imgs Hnf Himgs Hid Hpost)
    as (sL & pL & Heq & HgetL & _ & Hrows).
  set (tally := tally_after post imgs (enabled_channels w) (Poster.mkTally [] 0 0)) in *.
  destruct (finish_run_quiet w id tally sL pL Hnf Hsum HgetL)
    as (sF & Hfin & HgetF & evs & Hevs).
  destruct (finish_keeps_channels w id tally sL) as (_ & Hpp & _).
  destruct (tally_after_counts post imgs (enabled_channels w) (Poster.mkTally [] 0 0))
    as [Htot _].
  destruct (tally_after_successes post imgs (enabled_channels w) (Poster.mkTally [] 0 0))
    as [Hsucc Hres].
  fold tally in Htot, Hsucc, Hres. simpl in Htot, Hsucc, Hres.
  rewrite Heq. rewrite Hfin in *. simpl in *.
  split; [reflexivity|]. split; [|split].
  - rewrite HgetF. simpl. f_equal. unfold aggregate_status. rewrite Hsucc, Htot.
    rewrite !Z.add_0_l.
    set (k := List.length (List.filter _ (enabled_channels w))).
    set (n := List.length (enabled_channels w)).
    destruct (Nat.eqb_spec k n) as [E|E].
    + rewrite E, Z.eqb_refl. reflexivity.
    + destruct (Z.eqb_spec (Z.of_nat k) (Z.of_nat n)) as [E'|_]; [lia|].
      destruct (Nat.ltb_spec 0 k), (Z.ltb_spec 0 (Z.of_nat k)); try reflexivity; lia.
  - intros np Hin. destruct (Hrows np Hin) as (t1 & t2 & Hr & _).
    unfold rows_of in *. rewrite Hpp, Hr.
    apply List.Forall_forall. intros r Hr'. apply List.in_map_iff in Hr' as (r0 & <- & _).
    unfold record_outcome.
    destruct (Platforms.success (Poster.channel_result post imgs np)); reflexivity.
  - exists (events sL ++ evs), (Poster.results tally).
    split; [rewrite Hevs; now rewrite <- app_assoc|exact Hres].
Qed.

Lemma do_post_status_by_count_witness :
  (Db.status <$> Db.get_post 1
     (db (snd (Poster._do_post Demo.flaky_world 1 (Demo.state_of Demo.db_approved)))))
  = Some "partial_failure".
Proof.
  destruct (do_post_status_by_count Demo.flaky_world 1 (Demo.state_of Demo.db_approved)
              Demo.approved_post ∅) as (_ & H & _).
  - intros n. reflexivity.
  - intros i. split; reflexivity.
  - intros s0. reflexivity.
  - simpl. apply not_elem_of_empty.
  - reflexivity.
  - rewrite H. reflexivity.
Defined.

(** ** When the image processing raises *)



(** ** An id without a post *)

(** A call that passes the guard runs the body and takes the id out of the
    in-flight set. *)
Lemma do_post_body_run (w : World) (id : Z) (s s1 : State) (o : outcome unit) :
  id ∉ posting_in_progress s ->
  try_except (Poster.dispatch w id) (Poster.crashed w id)
    (set_posting_in_progress (posting_in_progress s ∪ {[id]}) s) = (o, s1) ->
  Poster._do_post w id s
  = (o, set_posting_in_progress (posting_in_progress s1 ∖ {[id]}) s1).
Proof.
  intros Hout Hbody. unfold Poster._do_post, bind at 1, gets. simpl.
  destruct (decide (id ∈ posting_in_progress s)); [contradiction|].
  unfold bind at 1, modify, try_finally. now rewrite Hbody.
Qed.

Lemma restore_in_flight (id : Z) (s : State) (n : nat) :
  id ∉ posting_in_progress s ->
  set_posting_in_progress
    (posting_in_progress
       (Nat.iter n tick (set_posting_in_progress (posting_in_progress s ∪ {[id]}) s))
     ∖ {[id]})
    (Nat.iter n tick (set_posting_in_progress (posting_in_progress s ∪ {[id]}) s))
  = Nat.iter n tick s.
Proof.
  intros Hout. induction n as [|n IH].
  - change (set_posting_in_progress ((posting_in_progress s ∪ {[id]}) ∖ {[id]}) s = s).
    rewrite (discard_added _ _ Hout). now destruct s.
  - set (s0 := set_posting_in_progress (posting_in_progress s ∪ {[id]}) s) in *.
    change (tick (set_posting_in_progress
                    (posting_in_progress (Nat.iter n tick s0) ∖ {[id]})
                    (Nat.iter n tick s0)) = tick (Nat.iter n tick s)).
    now rewrite IH.
Qed.

(** X20: for an id that no post has, [_do_post] writes nothing and calls
    nothing: the tables, the trace and the in-flight set are as before. It
    returns when the id is in flight or its first database call is answered;
    when that call fails, the [except] clause tries to mark the missing post
    as failed, which fails too, and the call raises. *)
Theorem do_post_unknown_item (w : World) (id : Z) (s : State) :
  Db.get_post id (db s) = None ->
  db (snd (Poster._do_post w id s)) = db s
  /\ events (snd (Poster._do_post w id s)) = events s
  /\ posting_in_progress (snd (Poster._do_post w id s)) = posting_in_progress s
  /\ (id ∈ posting_in_progress s \/ db_fault w (ticks s) = None ->
      fst (Poster._do_post w id s) = Ret tt)
  /\ (id ∉ posting_in_progress s -> db_fault w (ticks s) <> None ->
      exists e, fst (Poster._do_post w id s) = Raise e).
Proof.
  intros Hnone.
  assert (Hcases :
            ((id ∈ posting_in_progress s) /\ Poster._do_post w id s = (Ret tt, s))
            \/ ((id ∉ posting_in_progress s) /\ db_fault w (ticks s) = None
                /\ Poster._do_post w id s = (Ret tt, tick s))
            \/ ((id ∉ posting_in_progress s) /\ db_fault w (ticks s) <> None
                /\ exists e, Poster._do_post w id s = (Raise e, tick (tick s)))).
  { destruct (decide (id ∈ posting_in_progress s)) as [Hin|Hout].
    { left. split; [exact Hin|]. unfold Poster._do_post, bind, gets. simpl.
      destruct (decide (id ∈ posting_in_progress s)); [reflexivity|contradiction]. }
    right.
    set (s0 := set_posting_in_progress (posting_in_progress s ∪ {[id]}) s).
    destruct (db_fault w (ticks s)) as [e|] eqn:Hfault.
    - right. split; [exact Hout|]. split; [discriminate|].
      assert (Hget : get_post w id s0 = (Raise e, tick s0)).
      { unfold get_post, db_read. change (ticks s0) with (ticks s). now rewrite Hfault. }
      assert (Hcrash : exists e', Poster.crashed w id e (tick s0)
                                  = (Raise e', tick (tick s0))).
      { assert (Hw : exists e', update_post_status w id "failed" None None None (Some e)
                                  (tick s0) = (Raise e', tick (tick s0))).
        { unfold update_post_status, db_write.
          destruct (db_fault w (ticks (tick s0))); [eexists; reflexivity|].
          unfold Db.update_post_status. change (db (tick s0)) with (db s).
          apply get_post_none in Hnone. rewrite Hnone. eexists. reflexivity. }
        destruct Hw as [e' Hw]. exists e'. unfold Poster.crashed.
        now apply bind_raise_run. }
      destruct Hcrash as [e' Hcrash]. exists e'.
      rewrite (do_post_body_run w id s (tick (tick s0)) (Raise e') Hout).
      + f_equal. apply (restore_in_flight id s 2 Hout).
      + unfold try_except, Poster.dispatch.
        rewrite (bind_raise_run _ _ _ _ _ Hget). exact Hcrash.
    - left. split; [exact Hout|]. split; [reflexivity|].
      rewrite (do_post_body_run w id s (tick s0) (Ret tt) Hout).
      + f_equal. apply (restore_in_flight id s 1 Hout).
      + unfold try_except, Poster.dispatch.
        rewrite (bind_ret_run _ _ _ _ _ (run_get_post w id s0 Hfault)).
        change (db s0) with (db s). now rewrite Hnone. }
  destruct Hcases as [[Hin ->] | [(Hout & Hfault & ->) | (Hout & Hfault & e & ->)]]; simpl.
  - repeat split. intros Hout. contradiction.
  - repeat split. intros _ H. contradiction.
  - repeat split.
    + intros [Hin | Hok]; contradiction.
    + intros _ _. exists e. reflexivity.
Qed.

Lemma do_post_unknown_item_witness :
  db (snd (Poster._do_post Demo.flaky_world 7 (Demo.state_of Demo.db_approved)))
  = Demo.db_approved
  /\ events (snd (Poster._do_post Demo.flaky_world 7 (Demo.state_of Demo.db_approved))) = [].
Proof.
  destruct (do_post_unknown_item Demo.flaky_world 7 (Demo.state_of Demo.db_approved))
    as (H1 & H2 & _).
  - reflexivity.
  - split; [exact H1|exact H2].
Defined.

(** ** The scan for approved posts *)

Lemma nodup_map_filter {A B} (f : A -> B) (g : A -> bool) (l : list A) :
  List.NoDup (List.map f l) -> List.NoDup (List.map f (List.filter g l)).
Proof.
  induction l as [|x l IH]; simpl; [auto|].
  intros Hnd. apply List.NoDup_cons_iff in Hnd as [Hx Hnd].
  destruct (g x); simpl; [|now apply IH].
  constructor; [|now apply IH].
  intros Hin. apply Hx. apply List.in_map_iff in Hin as (y & Hy & Hin).
  apply List.filter_In in Hin as [Hin _]. rewrite <- Hy. now apply List.in_map.
Qed.

Lemma pending_ids_nodup (now : string) (d : Db.DB) :
  List.NoDup (List.map Db.post_id (Db.posts d)) ->
  List.NoDup (List.map Db.post_id (Db.get_pending_posts now d)).
Proof.
  intros Hnd. unfold Db.get_pending_posts.
  eapply Permutation.Permutation_NoDup.
  - apply Permutation.Permutation_map. symmetry. apply merge_sort_Permutation.
  - now apply nodup_map_filter.
Qed.

Lemma pending_in_posts (now : string) (d : Db.DB) (p : Db.Post) :
  In p (Db.get_pending_posts now d) -> In p (Db.posts d).
Proof.
  intros Hp.
  assert (Hp' : In p (List.filter (fun p => Db.is_approved p && Db.is_due now p)
                        (Db.posts d))).
  { rewrite <- list_elem_of_In in *. unfold Db.get_pending_posts in Hp.
    now rewrite merge_sort_Permutation in Hp. }
  now apply List.filter_In in Hp' as [Hin _].
Qed.

(** The loop of [process_pending] over posts with distinct ids. *)
Lemma drain_run (w : World) :
  no_db_faults w -> media_returns w ->
  forall (l : list Db.Post) (s : State),
    List.NoDup (List.map Db.post_id l) ->
    (forall p, In p l -> exists q, Db.get_post (Db.post_id p) (db s) = Some q) ->
    (forall p, In p l -> Db.post_id p ∉ posting_in_progress s) ->
    exists s',
      for_each (fun post (_ : unit) => Poster._do_post w (Db.post_id post)) l tt s
      = (Ret tt, s')
      /\ (forall p, In p l ->
            exists p', Db.get_post (Db.post_id p) (db s') = Some p'
                       /\ terminal (Db.status p'))
      /\ (forall id', ~ In id' (List.map Db.post_id l) ->
            Db.get_post id' (db s') = Db.get_post id' (db s)
            /\ Db.get_platform_statuses id' (db s') = Db.get_platform_statuses id' (db s))
      /\ posting_in_progress s' = posting_in_progress s.
Proof.
  intros Hnf Hmedia l. induction l as [|p l IH]; intros s Hnd Hex Hfl.
  - exists s. split; [reflexivity|]. split; [intros p []|]. split; [auto|reflexivity].
  - simpl in Hnd. apply List.NoDup_cons_iff in Hnd as [Hp Hnd].
    destruct (Hex p (or_introl eq_refl)) as [q Hq].
    destruct (do_post_terminal_run w (Db.post_id p) s q Hnf Hmedia
                (Hfl p (or_introl eq_refl)) Hq)
      as (s1 & p1 & Hrun1 & Hget1 & Hterm1 & Hfl1).
    assert (Hothers : forall id', id' <> Db.post_id p ->
              Db.get_post id' (db s1) = Db.get_post id' (db s)
              /\ Db.get_platform_statuses id' (db s1)
                 = Db.get_platform_statuses id' (db s)).
    { intros id' Hne.
      destruct (steps_leave_others (Db.post_id p) id' (channel_names w) s _ Hne
                  (footprint_do_post w (Db.post_id p) s)) as (H1 & H2 & _).
      rewrite Hrun1 in H1, H2. auto. }
    assert (Hne : forall p', In p' l -> Db.post_id p' <> Db.post_id p).
    { intros p' Hin E. apply Hp. rewrite <- E. now apply List.in_map. }
    destruct (IH s1 Hnd) as (s' & Hrun & Hdone & Hrest & Hfl').
    { intros p' Hin. destruct (Hex p' (or_intror Hin)) as [q' Hq'].
      exists q'. now rewrite (proj1 (Hothers _ (Hne p' Hin))). }
    { intros p' Hin. rewrite Hfl1. apply Hfl. now right. }
    exists s'. simpl for_each. rewrite (bind_ret_run _ _ _ _ _ Hrun1).
    split; [exact Hrun|]. split; [|split].
    + intros p' [<- | Hin]; [|now apply Hdone].
      exists p1. split; [|exact Hterm1].
      now rewrite (proj1 (Hrest (Db.post_id p) Hp)).
    + intros id' Hid'. simpl in Hid'.
      destruct (Hrest id' ltac:(tauto)) as [H1 H2].
      destruct (Hothers id' ltac:(intros ->; tauto)) as [H3 H4].
      split; congruence.
    + congruence.
Qed.

(** X21: when the storage answers and the image processing returns,
    [process_pending] on consistent tables returns, and every post that its
    query returned, none of them being in flight, has been dispatched: it is
    completed, partial_failure or failed. The posts that the query did not
    return and their platform rows are as before, and so is the in-flight
    set. *)
Theorem process_pending_drains (w : World) (s : State) :
  no_db_faults w -> media_returns w ->
  store_ok (db s) ->
  (forall p, In p (Db.get_pending_posts (clock w (ticks s)) (db s)) ->
     Db.post_id p ∉ posting_in_progress s) ->
  fst (Poster.process_pending w s) = Ret tt
  /\ (forall p, In p (Db.get_pending_posts (clock w (ticks s)) (db s)) ->
        exists p', Db.get_post (Db.post_id p) (db (snd (Poster.process_pending w s)))
                   = Some p'
                   /\ terminal (Db.status p'))
  /\ (forall id',
        ~ In id' (List.map Db.post_id (Db.get_pending_posts (clock w (ticks s)) (db s))) ->
        Db.get_post id' (db (snd (Poster.process_pending w s))) = Db.get_post id' (db s)
        /\ Db.get_platform_statuses id' (db (snd (Poster.process_pending w s)))
           = Db.get_platform_statuses id' (db s))
  /\ posting_in_progress (snd (Poster.process_pending w s)) = posting_in_progress s.
Proof.
  intros Hnf Hmedia Hok Hfl.
  assert (Hscan : get_pending_posts w s
                  = (Ret (Db.get_pending_posts (clock w (ticks s)) (db s)), tick s)).
  { unfold get_pending_posts, db_read. now rewrite (Hnf _). }
  destruct (drain_run w Hnf Hmedia (Db.get_pending_posts (clock w (ticks s)) (db s))
              (tick s)) as (s' & Hrun & Hdone & Hrest & Hfl').
  - apply pending_ids_nodup. apply Hok.
  - intros p Hp. exists p. apply in_get_post; [apply Hok|].
    now apply pending_in_posts in Hp.
  - exact Hfl.
  - unfold Poster.process_pending. rewrite (bind_ret_run _ _ _ _ _ Hscan), Hrun.
    simpl. auto.
Qed.

Lemma process_pending_drains_witness :
  fst (Poster.process_pending Demo.flaky_world (Demo.state_of Demo.db_approved)) = Ret tt
  /\ (exists p',
        Db.get_post 1 (db (snd (Poster.process_pending Demo.flaky_world
                                  (Demo.state_of Demo.db_approved)))) = Some p'
        /\ terminal (Db.status p')).
Proof.
  destruct (process_pending_drains Demo.flaky_world (Demo.state_of Demo.db_approved))
    as (H1 & H2 & _).
  - intros n. reflexivity.
  - intros url. eexists. reflexivity.
  - apply store_ok_db_approved.
  - intros p _. simpl. apply not_elem_of_empty.
  - split; [exact H1|]. apply (H2 Demo.approved_post). vm_compute. left. reflexivity.
Defined.

(** ** Asking for a decision *)

(** The four ways through [send_approval_request]. *)
Lemma send_approval_request_cases (w : World) (id : Z) (cb1 cb2 : Callback) (s : State) :
  (exists e, db_fault w (ticks s) = Some e
             /\ Telegram.send_approval_request w id cb1 cb2 s = (Raise e, tick s))
  \/ (db_fault w (ticks s) = None /\ Db.get_post id (db s) = None
      /\ Telegram.send_approval_request w id cb1 cb2 s = (Ret false, tick s))
  \/ (db_fault w (ticks s) = None /\ Db.get_post id (db s) <> None
      /\ (telegram_message_id w (List.length (events s)) = None
          \/ telegram_message_id w (List.length (events s)) = Some 0)
      /\ Telegram.send_approval_request w id cb1 cb2 s
         = (Ret false, add_event (EvTelegramApprovalRequest id) (tick s)))
  \/ (exists m s',
        db_fault w (ticks s) = None /\ Db.get_post id (db s) <> None
        /\ telegram_message_id w (List.length (events s)) = Some m /\ m <> 0
        /\ Telegram.send_approval_request w id cb1 cb2 s = (Ret true, s')
        /\ db s' = db s /\ ticks s' = S (ticks s)
        /\ posting_in_progress s' = posting_in_progress s
        /\ pending_approvals s'
           = <[m := mkApproval id cb1 cb2 (S (ticks s))
                      (if AUTO_APPROVE w then Some (mkTimer m id cb1) else None)]>
               (pending_approvals s)
        /\ cancelled_timers s'
           = (if AUTO_APPROVE w then cancelled_timers s ∖ {[m]} else cancelled_timers s)
        /\ events s'
           = events s ++ EvTelegramApprovalRequest id
               :: (if AUTO_APPROVE w then [EvTimerStart (mkTimer m id cb1)] else [])).
Proof.
  remember (Telegram.send_approval_request w id cb1 cb2 s) as r eqn:Hr.
  unfold Telegram.send_approval_request, Telegram.send_preview, Telegram.register,
    get_post, db_read, bind, gets, emit, modify, ret in Hr.
  destruct (db_fault w (ticks s)) as [e|] eqn:Hfault; [left; eauto|right].
  destruct (Db.get_post id (db s)) as [post|] eqn:Hpost; [right|left; auto].
  cbn [events tick add_event] in Hr.
  destruct (telegram_message_id w (List.length (events s))) as [m|] eqn:Hm;
    [|left; repeat split; auto; discriminate].
  destruct (Z.eqb_spec m 0) as [->|Hm0]; [left; repeat split; auto; discriminate|].
  right. exists m, (snd r).
  destruct (AUTO_APPROVE w); subst r; cbn;
    (split; [reflexivity|]); (split; [discriminate|]); (split; [reflexivity|]);
    (split; [exact Hm0|]); (split; [reflexivity|]); (split; [reflexivity|]);
    (split; [reflexivity|]); (split; [reflexivity|]);
    (split; [|split; [reflexivity|]]).
  - apply insert_insert_eq.
  - now rewrite <- app_assoc.
  - reflexivity.
  - reflexivity.
Qed.

(** X22: [send_approval_request] never writes to the tables. It returns
    true exactly when the post exists, the storage answers and Telegram gives
    a message id other than zero; the request is then stored under that id
    with the post and the two continuations, and when automatic approval is
    on, with a timer for this message, post and approval continuation, which
    has been started. In every other case the stored requests and the
    cancelled timers are as before. *)
Theorem send_approval_request_registers (w : World) (id : Z) (cb1 cb2 : Callback)
    (s : State) :
  db (snd (Telegram.send_approval_request w id cb1 cb2 s)) = db s
  /\ (fst (Telegram.send_approval_request w id cb1 cb2 s) = Ret true <->
      db_fault w (ticks s) = None /\ Db.get_post id (db s) <> None
      /\ exists m, telegram_message_id w (List.length (events s)) = Some m /\ m <> 0)
  /\ (fst (Telegram.send_approval_request w id cb1 cb2 s) = Ret true ->
      exists m,
        telegram_message_id w (List.length (events s)) = Some m
        /\ pending_approvals (snd (Telegram.send_approval_request w id cb1 cb2 s))
           = <[m := mkApproval id cb1 cb2 (S (ticks s))
                      (if AUTO_APPROVE w then Some (mkTimer m id cb1) else None)]>
               (pending_approvals s)
        /\ (AUTO_APPROVE w = true ->
            (m ∉ cancelled_timers (snd (Telegram.send_approval_request w id cb1 cb2 s)))
            /\ In (EvTimerStart (mkTimer m id cb1))
                 (events (snd (Telegram.send_approval_request w id cb1 cb2 s)))))
  /\ (fst (Telegram.send_approval_request w id cb1 cb2 s) <> Ret true ->
      pending_approvals (snd (Telegram.send_approval_request w id cb1 cb2 s))
      = pending_approvals s
      /\ cancelled_timers (snd (Telegram.send_approval_request w id cb1 cb2 s))
         = cancelled_timers s).
Proof.
  destruct (send_approval_request_cases w id cb1 cb2 s)
    as [(e & Hf & ->) | [(Hf & Hp & ->) | [(Hf & Hp & Hm & ->) |
        (m & s' & Hf & Hp & Hm & Hm0 & -> & Hdb & _ & _ & Hpend & Hcanc & Hev)]]]; simpl.
  - split; [reflexivity|]. split; [|split; [discriminate|auto]].
    split; [discriminate|]. intros (H & _). congruence.
  - split; [reflexivity|]. split; [|split; [discriminate|auto]].
    split; [discriminate|]. intros (_ & H & _). contradiction.
  - split; [reflexivity|]. split; [|split; [discriminate|auto]].
    split; [discriminate|]. intros (_ & _ & m & Hm' & Hm0).
    destruct Hm as [Hm | Hm]; congruence.
  - split; [exact Hdb|]. split; [|split].
    + split; [|reflexivity]. intros _. eauto.
    + intros _. exists m. split; [exact Hm|]. split; [exact Hpend|].
      intros Hauto. rewrite Hauto in *. rewrite Hcanc, Hev. split.
      * rewrite elem_of_difference, elem_of_singleton. tauto.
      * apply List.in_or_app. right. simpl. auto.
    + intros H. now contradiction H.
Qed.

(** ** A click on a button of a request *)

Lemma resolved_keeps (msg_id : Z) (a : Approval) (s : State) :
  db (resolved msg_id a s) = db s
  /\ ticks (resolved msg_id a s) = ticks s
  /\ posting_in_progress (resolved msg_id a s) = posting_in_progress s
  /\ pending_approvals (resolved msg_id a s) = delete msg_id (pending_approvals s)
  /\ continuation_calls (events (resolved msg_id a s)) = continuation_calls (events s)
  /\ channel_posts (events (resolved msg_id a s)) = channel_posts (events s)
  /\ (forall t, timer a = Some t -> timer_msg_id t ∈ cancelled_timers (resolved msg_id a s)).
Proof.
  unfold resolved. destruct (timer a) as [t|]; cbn.
  - repeat split; try reflexivity.
    + rewrite continuation_calls_app. apply app_nil_r.
    + now apply channel_posts_other.
    + intros t' [= <-]. apply elem_of_union_r. now apply elem_of_singleton.
  - repeat split; try reflexivity. discriminate.
Qed.

(** [process_callback] up to the test of the action, for callback data
    that carries an id and a request that is stored. *)
Lemma click_run (w : World) (data p : string) (n msg_id : Z) (a : Approval) (s : State) :
  Py.split ":" data !! 1%nat = Some p ->
  py_int w p = Some n ->
  pending_approvals s !! msg_id = Some a ->
  Poster.process_callback w data msg_id s
  = (if String.eqb (List.hd EmptyString (Py.split ":" data)) "approve" then
       Telegram.edit_message msg_id "approved" n ;;;
       update_post_status w n "approved" (Some "telegram_user") (Some "manual")
         None None ;;;
       Telegram.invoke (Poster.run_callback w) (on_approved a) n
     else if String.eqb (List.hd EmptyString (Py.split ":" data)) "reject" then
       Telegram.edit_message msg_id "rejected" n ;;;
       update_post_status w n "rejected" None None
         (Some "Manually rejected via Telegram") None ;;;
       Telegram.invoke (Poster.run_callback w) (on_rejected a) n
     else ret tt) (resolved msg_id a s).
Proof.
  intros Hp Hn Ha.
  assert (Hparse : Telegram.parse_callback w data s
                   = (Ret (List.hd EmptyString (Py.split ":" data), n), s)).
  { unfold Telegram.parse_callback. now rewrite Hp, Hn. }
  unfold Poster.process_callback, Telegram.process_callback.
  rewrite (bind_ret_run _ _ _ _ _ Hparse).
  rewrite (bind_ret_run (gets pending_approvals) _ s s (pending_approvals s) eq_refl).
  rewrite Ha.
  unfold resolved. destruct (timer a) as [t|].
  - rewrite (bind_ret_run (Telegram.cancel t) _ s
               (set_cancelled_timers (cancelled_timers s ∪ {[timer_msg_id t]})
                  (add_event (EvTimerCancel t) s)) tt eq_refl).
    unfold bind at 1, modify. reflexivity.
  - rewrite (bind_ret_run (ret tt) _ s s tt eq_refl).
    unfold bind at 1, modify. reflexivity.
Qed.

(** An approval written and the dispatch it starts, when the storage
    answers and the image processing returns. *)
Lemma approval_run (w : World) (msg_id n : Z) (note st who how : string) (s : State)
    (post : Db.Post) :
  no_db_faults w -> media_returns w ->
  Py.truthy who = true -> Py.truthy how = true ->
  n ∉ posting_in_progress s ->
  Db.get_post n (db s) = Some post ->
  exists s' p',
    (Telegram.edit_message msg_id note n ;;;
     update_post_status w n st (Some who) (Some how) None None ;;;
     Telegram.invoke (Poster.run_callback w) poster_on_approved n) s = (Ret tt, s')
    /\ Db.get_post n (db s') = Some p'
    /\ terminal (Db.status p')
    /\ approval_of p'
       = (Some who, Some (clock w (ticks s)), Some how, Db.rejection_reason post)
    /\ content_of p' = content_of post
    /\ pending_approvals s' = pending_approvals s
    /\ cancelled_timers s' = cancelled_timers s
    /\ posting_in_progress s' = posting_in_progress s
    /\ continuation_calls (events s')
       = continuation_calls (events s) ++ [(poster_on_approved, n)]
    /\ In (Db.mkAudit n st (Db.DStatus (Some who) (Some how) None) (clock w (ticks s)))
         (Db.audit_log (db s')).
Proof.
  intros Hnf Hmedia Hwho Hhow Hfl Hpost.
  set (s1 := add_event (EvTelegramEdit msg_id note n) s).
  destruct (run_update_post_status w n st (Some who) (Some how) None None s1 post
              (Hnf _) Hpost) as (d2 & Hrun2 & Hget2 & _ & Hau2).
  set (s2 := tick (set_db d2 s1)) in *.
  set (s3 := add_event (EvCall poster_on_approved n) s2).
  destruct (do_post_terminal_run w n s3 _ Hnf Hmedia Hfl Hget2)
    as (s' & p' & Hrun & Hget & Hterm & Hfl').
  pose proof (footprint_do_post w n s3) as Hsteps. rewrite Hrun in Hsteps. simpl in Hsteps.
  destruct (steps_keep_post_columns n n _ _ _ Hsteps) as (Hc & Ha & _).
  change (db s3) with d2 in Hc, Ha. rewrite Hget, Hget2 in Hc, Ha. simpl in Hc, Ha.
  apply (inj Some) in Hc. apply (inj Some) in Ha.
  pose proof (steps_keep n (channel_names w) _ (step_keeps_requests n (channel_names w))
                _ _ Hsteps) as Hreq. simpl in Hreq. injection Hreq as Hp Hcn.
  destruct (steps_extend_trace _ _ _ _ Hsteps) as (evs & Hevs & Hall).
  destruct (steps_extend_audit _ _ _ _ Hsteps) as (entries & Hentries & _).
  exists s', p'.
  split.
  { rewrite (bind_ret_run (Telegram.edit_message msg_id note n) _ s s1 tt eq_refl).
    rewrite (bind_ret_run _ _ _ _ _ Hrun2). unfold Telegram.invoke.
    rewrite (bind_ret_run (emit (EvCall poster_on_approved n)) _ s2 s3 tt eq_refl).
    exact Hrun. }
  split; [exact Hget|]. split; [exact Hterm|]. split; [|split; [|split; [|split; [|split]]]].
  - rewrite Ha. unfold approval_of. simpl. now rewrite Hwho, Hhow.
  - rewrite Hc. reflexivity.
  - exact Hp.
  - exact Hcn.
  - exact Hfl'.
  - split.
    + rewrite Hevs, continuation_calls_app, (dispatch_events_no_calls _ _ _ Hall).
      rewrite app_nil_r. subst s3 s2 s1. cbn [events add_event tick set_db].
      now rewrite !continuation_calls_app, app_nil_r.
    + rewrite Hentries. apply List.in_or_app. left. change (db s3) with d2.
      rewrite Hau2. apply List.in_or_app. right. now left.
Qed.

(** X23: a click on Approve for a stored request, when the storage answers
    and the image processing returns, resolves the request and dispatches the
    item named in the callback data: the call returns, the request is removed
    and its timer cancelled, the item is recorded as approved by
    [telegram_user], manually, at the time of the click, with an audit entry,
    and has been dispatched to a final status; exactly one continuation was
    called, the approval continuation for this item. *)
Theorem approve_click_dispatches (w : World) (data p : string) (n msg_id : Z)
    (a : Approval) (s : State) (post : Db.Post) :
  no_db_faults w -> media_returns w ->
  Py.split ":" data !! 1%nat = Some p ->
  py_int w p = Some n ->
  List.hd EmptyString (Py.split ":" data) = "approve" ->
  pending_approvals s !! msg_id = Some a ->
  on_approved a = poster_on_approved ->
  n ∉ posting_in_progress s ->
  Db.get_post n (db s) = Some post ->
  fst (Poster.process_callback w data msg_id s) = Ret tt
  /\ pending_approvals (snd (Poster.process_callback w data msg_id s))
     = delete msg_id (pending_approvals s)
  /\ (forall t, timer a = Some t ->
        timer_msg_id t ∈ cancelled_timers (snd (Poster.process_callback w data msg_id s)))
  /\ (exists p',
        Db.get_post n (db (snd (Poster.process_callback w data msg_id s))) = Some p'
        /\ terminal (Db.status p')
        /\ approval_of p'
           = (Some "telegram_user", Some (clock w (ticks s)), Some "manual",
              Db.rejection_reason post)
        /\ content_of p' = content_of post)
  /\ In (Db.mkAudit n "approved" (Db.DStatus (Some "telegram_user") (Some "manual") None)
           (clock w (ticks s)))
       (Db.audit_log (db (snd (Poster.process_callback w data msg_id s))))
  /\ continuation_calls (events (snd (Poster.process_callback w data msg_id s)))
     = continuation_calls (events s) ++ [(poster_on_approved, n)].
Proof.
  intros Hnf Hmedia Hp Hn Hact Ha Hcb Hfl Hpost.
  rewrite (click_run w data p n msg_id a s Hp Hn Ha), Hact, Hcb, String.eqb_refl.
  destruct (resolved_keeps msg_id a s) as (Hdb & Htk & Hpip & Hpend & Hcc & _ & Htimer).
  destruct (approval_run w msg_id n "approved" "approved" "telegram_user" "manual"
              (resolved msg_id a s) post Hnf Hmedia eq_refl eq_refl
              ltac:(now rewrite Hpip) ltac:(now rewrite Hdb))
    as (s' & p' & Hrun & Hget & Hterm & Happ & Hcont & Hp' & Hcn & _ & Hcalls & Haudit).
  rewrite Hrun. simpl. rewrite Htk in *.
  split; [reflexivity|]. split; [congruence|]. split; [|split; [|split]].
  - intros t Ht. rewrite Hcn. now apply Htimer.
  - exists p'. auto.
  - exact Haudit.
  - now rewrite Hcalls, Hcc.
Qed.

Lemma approve_click_dispatches_witness :
  fst (Poster.process_callback Demo.silent_world "approve:1" 42 Demo.awaiting_approval)
  = Ret tt
  /\ continuation_calls
       (events (snd (Poster.process_callback Demo.silent_world "approve:1" 42
                       Demo.awaiting_approval)))
     = continuation_calls (events Demo.awaiting_approval) ++ [(poster_on_approved, 1)].
Proof.
  destruct (approve_click_dispatches Demo.silent_world "approve:1" "1" 1 42
              Sample.request_42 Demo.awaiting_approval Sample.pending_post)
    as (H1 & _ & _ & _ & _ & H6).
  - intros n. reflexivity.
  - intros url. eexists. reflexivity.
  - reflexivity.
  - reflexivity.
  - reflexivity.
  - vm_compute. reflexivity.
  - reflexivity.
  - replace (posting_in_progress Demo.awaiting_approval) with (∅ : gset Z) by reflexivity.
    apply not_elem_of_empty.
  - vm_compute. reflexivity.
  - split; [exact H1|exact H6].
Defined.



(** ** The timer of a request *)

(** X25: the timer of a request does nothing when it was cancelled in time.
    When it was not and its request is still stored, then, the storage
    answering and the image processing returning, it removes the request,
    records the item as approved by [system] on [timeout] at that moment, and
    dispatches it to a final status through the approval continuation, the
    one continuation it calls. *)
Theorem timer_fire_auto_approves (w : World) (t : Timer) (s : State) :
  (timer_msg_id t ∈ cancelled_timers s -> Poster.timer_fire w t s = (Ret tt, s))
  /\ (forall a post,
        no_db_faults w -> media_returns w ->
        timer_msg_id t ∉ cancelled_timers s ->
        pending_approvals s !! timer_msg_id t = Some a ->
        timer_callback t = poster_on_approved ->
        timer_post_id t ∉ posting_in_progress s ->
        Db.get_post (timer_post_id t) (db s) = Some post ->
        fst (Poster.timer_fire w t s) = Ret tt
        /\ pending_approvals (snd (Poster.timer_fire w t s))
           = delete (timer_msg_id t) (pending_approvals s)
        /\ (exists p',
              Db.get_post (timer_post_id t) (db (snd (Poster.timer_fire w t s))) = Some p'
              /\ terminal (Db.status p')
              /\ approval_of p'
                 = (Some "system", Some (clock w (ticks s)), Some "timeout",
                    Db.rejection_reason post)
              /\ content_of p' = content_of post)
        /\ continuation_calls (events (snd (Poster.timer_fire w t s)))
           = continuation_calls (events s) ++ [(poster_on_approved, timer_post_id t)]).
Proof.
  split.
  - intros Hc. unfold Poster.timer_fire, Telegram.timer_fire.
    rewrite (bind_ret_run (gets cancelled_timers) _ s s (cancelled_timers s) eq_refl).
    destruct (decide (timer_msg_id t ∈ cancelled_timers s)); [reflexivity|contradiction].
  - intros a post Hnf Hmedia Hc Ha Hcb Hfl Hpost.
    set (s1 := set_pending_approvals (delete (timer_msg_id t) (pending_approvals s)) s).
    destruct (approval_run w (timer_msg_id t) (timer_post_id t) "auto_approved"
                "auto_approved" "system" "timeout" s1 post Hnf Hmedia eq_refl eq_refl
                Hfl Hpost)
      as (s' & p' & Hrun & Hget & Hterm & Happ & Hcont & Hp' & _ & _ & Hcalls & _).
    assert (Hfire : Poster.timer_fire w t s = (Ret tt, s')).
    { unfold Poster.timer_fire, Telegram.timer_fire.
      rewrite (bind_ret_run (gets cancelled_timers) _ s s (cancelled_timers s) eq_refl).
      destruct (decide (timer_msg_id t ∈ cancelled_timers s)); [contradiction|].
      unfold Telegram._auto_approve.
      rewrite (bind_ret_run (gets pending_approvals) _ s s (pending_approvals s) eq_refl).
      rewrite Ha, Hcb. unfold bind at 1, modify. exact Hrun. }
    rewrite Hfire. simpl.
    split; [reflexivity|]. split; [exact Hp'|]. split; [|exact Hcalls].
    exists p'. auto.
Qed.

Lemma timer_fire_auto_approves_witness :
  fst (Poster.timer_fire Demo.silent_world (mkTimer 42 1 poster_on_approved)
         Demo.awaiting_approval) = Ret tt
  /\ continuation_calls
       (events (snd (Poster.timer_fire Demo.silent_world (mkTimer 42 1 poster_on_approved)
                       Demo.awaiting_approval)))
     = continuation_calls (events Demo.awaiting_approval) ++ [(poster_on_approved, 1)].
Proof.
  destruct (proj2 (timer_fire_auto_approves Demo.silent_world
                     (mkTimer 42 1 poster_on_approved) Demo.awaiting_approval)
              Sample.request_42 Sample.pending_post) as (H1 & _ & _ & H4).
  - intros n. reflexivity.
  - intros url. eexists. reflexivity.
  - replace (cancelled_timers Demo.awaiting_approval) with (∅ : gset Z) by reflexivity.
    apply not_elem_of_empty.
  - vm_compute. reflexivity.
  - reflexivity.
  - replace (posting_in_progress Demo.awaiting_approval) with (∅ : gset Z) by reflexivity.
    apply not_elem_of_empty.
  - vm_compute. reflexivity.
  - split; [exact H1|exact H4].
Defined.

(** ** A post that comes in *)

Lemma needing_approval_in (d : Db.DB) (p : Db.Post) :
  In p (Db.posts d) -> Db.status p = "pending" ->
  In p (Queries.get_posts_needing_approval d).
Proof.
  intros Hin Hst. rewrite <- list_elem_of_In. unfold Queries.get_posts_needing_approval.
  rewrite merge_sort_Permutation, list_elem_of_In.
  apply List.filter_In. split; [exact Hin|]. now rewrite Hst.
Qed.

(** X26: when the storage answers, [process_incoming] on consistent tables
    returns the id of a new post, one above the counter; the post is stored
    as pending with the given content, no schedule and the time of the call,
    with one pending row for each enabled platform, and it is among the posts
    that need approval; the other posts are as before. Telegram is asked for a
    decision and Slack is notified, in this order. When Telegram gave a
    message id, the request is stored under it with the two continuations of
    the poster; when it gave none, no request is stored and the post is
    returned all the same. *)
Theorem process_incoming_creates_pending (w : World)
    (topic summary full_content link image_url video_url priority source : string)
    (tags : option (list string)) (s : State) :
  no_db_faults w ->
  store_ok (db s) ->
  fst (Poster.process_incoming w topic summary full_content link image_url video_url
         priority source tags s) = Ret (Db.last_post_id (db s) + 1)
  /\ Db.get_post (Db.last_post_id (db s) + 1)
       (db (snd (Poster.process_incoming w topic summary full_content link image_url
                   video_url priority source tags s)))
     = Some (Db.mkPost (Db.last_post_id (db s) + 1) topic summary full_content link
               image_url video_url "pending" priority None None None None source
               (default [] tags) (clock w (ticks s)) (clock w (ticks s)) None None None 0)
  /\ Db.get_platform_statuses (Db.last_post_id (db s) + 1)
       (db (snd (Poster.process_incoming w topic summary full_content link image_url
                   video_url priority source tags s)))
     = List.map (fun name => Db.mkPlatformPost (Db.last_post_id (db s) + 1) name "pending"
                               None None None None 0 (clock w (ticks s))
                               (clock w (ticks s)))
         (ENABLED_PLATFORMS w)
  /\ (forall id', id' <> Db.last_post_id (db s) + 1 ->
        Db.get_post id'
          (db (snd (Poster.process_incoming w topic summary full_content link image_url
                      video_url priority source tags s)))
        = Db.get_post id' (db s))
  /\ (exists evs,
        events (snd (Poster.process_incoming w topic summary full_content link image_url
                       video_url priority source tags s))
        = events s ++ EvTelegramApprovalRequest (Db.last_post_id (db s) + 1) :: evs
          ++ [EvSlackNotification (Db.last_post_id (db s) + 1) "pending"])
  /\ (forall m, telegram_message_id w (List.length (events s)) = Some m -> m <> 0 ->
        pending_approvals
          (snd (Poster.process_incoming w topic summary full_content link image_url
                  video_url priority source tags s)) !! m
        = Some (mkApproval (Db.last_post_id (db s) + 1) poster_on_approved
                  poster_on_rejected (S (S (ticks s)))
                  (if AUTO_APPROVE w
                   then Some (mkTimer m (Db.last_post_id (db s) + 1) poster_on_approved)
                   else None)))
  /\ (telegram_message_id w (List.length (events s)) = None ->
      pending_approvals
        (snd (Poster.process_incoming w topic summary full_content link image_url
                video_url priority source tags s))
      = pending_approvals s)
  /\ (forall p,
        Db.get_post (Db.last_post_id (db s) + 1)
          (db (snd (Poster.process_incoming w topic summary full_content link image_url
                      video_url priority source tags s))) = Some p ->
        In p (Queries.get_posts_needing_approval
                (db (snd (Poster.process_incoming w topic summary full_content link
                            image_url video_url priority source tags s)))))
  /\ store_ok (db (snd (Poster.process_incoming w topic summary full_content link
                          image_url video_url priority source tags s))).
Proof.
  intros Hnf Hok.
  set (id := Db.last_post_id (db s) + 1).
  set (d1 := snd (Db.create_post (ENABLED_PLATFORMS w) (clock w (ticks s)) topic summary
                    full_content link image_url video_url priority source tags None
                    (db s))).
  destruct (create_post_reads (ENABLED_PLATFORMS w) (clock w (ticks s)) topic summary
              full_content link image_url video_url priority source tags None
              (db s) d1 id Hok eq_refl) as (_ & Hget1 & Hrows1 & _ & Hothers1).
  pose proof (store_ok_create_post (ENABLED_PLATFORMS w) (clock w (ticks s)) topic summary
                full_content link image_url video_url priority source tags None
                (db s) Hok) as Hok1.
  fold d1 in Hok1.
  set (s1 := tick (set_db d1 s)).
  assert (Hcreate : create_post w topic summary full_content link image_url video_url
                      priority source tags s = (Ret id, s1)).
  { unfold create_post. rewrite (Hnf _). reflexivity. }
  assert (Hsend : exists b s2 evs,
             Telegram.send_approval_request w id poster_on_approved poster_on_rejected s1
             = (Ret b, s2)
             /\ db s2 = d1
             /\ events s2 = events s ++ EvTelegramApprovalRequest id :: evs
             /\ (forall m, telegram_message_id w (List.length (events s)) = Some m ->
                   m <> 0 ->
                   pending_approvals s2 !! m
                   = Some (mkApproval id poster_on_approved poster_on_rejected
                             (S (S (ticks s)))
                             (if AUTO_APPROVE w
                              then Some (mkTimer m id poster_on_approved) else None)))
             /\ (telegram_message_id w (List.length (events s)) = None ->
                 pending_approvals s2 = pending_approvals s)).
  { destruct (send_approval_request_cases w id poster_on_approved poster_on_rejected s1)
      as [(e & Hf & _) | [(_ & Hp & _) | [(_ & _ & Hm & Hrun) |
          (m & s2 & _ & _ & Hm & Hm0 & Hrun & Hdb & _ & _ & Hpend & _ & Hev)]]].
    - rewrite (Hnf _) in Hf. discriminate.
    - change (db s1) with d1 in Hp. congruence.
    - eexists. eexists. exists []. split; [exact Hrun|]. split; [reflexivity|].
      split; [reflexivity|]. change (events s1) with (events s) in Hm. split.
      + intros m Hm' Hm0. destruct Hm as [Hm | Hm]; congruence.
      + reflexivity.
    - change (events s1) with (events s) in Hm, Hev.
      change (pending_approvals s1) with (pending_approvals s) in Hpend.
      change (ticks s1) with (S (ticks s)) in Hpend.
      exists true, s2. eexists. split; [exact Hrun|]. split; [exact Hdb|].
      split; [exact Hev|]. split.
      + intros m' Hm' _. rewrite Hm in Hm'. injection Hm' as <-.
        rewrite Hpend. apply lookup_insert_eq.
      + intros Hnone. congruence. }
  destruct Hsend as (b & s2 & evs & Hsend & Hdb2 & Hev2 & Hreg & Hnoreg).
  assert (Hrun : Poster.process_incoming w topic summary full_content link image_url
                   video_url priority source tags s
                 = (Ret id, add_event (EvSlackNotification id "pending") (tick s2))).
  { unfold Poster.process_incoming.
    rewrite (bind_ret_run _ _ _ _ _ Hcreate).
    rewrite (bind_ret_run _ _ _ _ _ Hsend).
    rewrite (bind_ret_run _ _ _ _ _ (run_get_post w id s2 (Hnf _))).
    rewrite Hdb2, Hget1. reflexivity. }
  rewrite Hrun. cbn [fst snd db events pending_approvals add_event tick].
  rewrite Hdb2, Hev2.
  split; [reflexivity|]. split; [exact Hget1|]. split; [exact Hrows1|].
  split; [intros id' Hne; now apply Hothers1|].
  split; [exists evs; rewrite <- app_assoc; reflexivity|].
  split; [exact Hreg|]. split; [exact Hnoreg|]. split; [|exact Hok1].
  intros p Hp. apply needing_approval_in; [now apply get_post_in in Hp|].
  rewrite Hget1 in Hp. now injection Hp as <-.
Qed.

Lemma process_incoming_creates_pending_witness :
  fst (Poster.process_incoming Demo.silent_world "Topic" "Summary" "" "" "" "" "normal"
         "webhook" None (Demo.state_of Db.init_db)) = Ret 1.
Proof.
  destruct (process_incoming_creates_pending Demo.silent_world "Topic" "Summary" "" "" ""
              "" "normal" "webhook" None (Demo.state_of Db.init_db)) as (H & _).
  - intros n. reflexivity.
  - apply store_ok_init.
  - exact H.
Defined.

(** ** Statistics and the recent posts *)

Lemma fold_insert_lookup (f : string -> nat) (keys : list string) :
  forall (m0 : gmap string nat) (k : string),
    fold_left (fun m (row : string * nat) => <[fst row := snd row]> m)
      (List.map (fun st => (st, f st)) keys) m0 !! k
    = if decide (k ∈ keys) then Some (f k) else m0 !! k.
Proof.
  induction keys as [|x keys IH]; intros m0 k; simpl.
  - destruct (decide (k ∈ [])) as [H|_]; [|reflexivity]. now apply elem_of_nil in H.
  - rewrite IH. destruct (decide (k ∈ keys)) as [Hin|Hout].
    + destruct (decide (k ∈ x :: keys)) as [_|H]; [reflexivity|].
      exfalso. apply H. now apply list_elem_of_further.
    + destruct (decide (k = x)) as [->|Hne].
      * rewrite lookup_insert_eq.
        destruct (decide (x ∈ x :: keys)) as [_|H]; [reflexivity|].
        exfalso. apply H. apply list_elem_of_here.
      * rewrite lookup_insert_ne by congruence.
        destruct (decide (k ∈ x :: keys)) as [H|_]; [|reflexivity].
        apply elem_of_cons in H as [H|H]; contradiction.
Qed.

Lemma count_status_zero (st : string) (ps : list Db.Post) :
  Queries.count_status st ps = 0%nat <-> ~ In st (List.map Db.status ps).
Proof.
  unfold Queries.count_status. induction ps as [|p ps IH]; simpl; [tauto|].
  destruct (String.eqb_spec (Db.status p) st) as [E|E]; simpl.
  - split; [discriminate|]. intros H. exfalso. apply H. now left.
  - rewrite IH. tauto.
Qed.

Lemma sum_counts (sts : list string) (ps : list Db.Post) :
  List.NoDup sts ->
  (forall p, In p ps -> In (Db.status p) sts) ->
  list_sum (List.map (fun st => Queries.count_status st ps) sts) = List.length ps.
Proof.
  intros Hnd. induction ps as [|p ps IH]; intros Hall.
  - unfold Queries.count_status. simpl. clear. induction sts; simpl; [reflexivity|].
    exact IHsts.
  - simpl List.length. rewrite <- IH by (intros q Hq; apply Hall; now right).
    specialize (Hall p (or_introl eq_refl)). clear IH.
    unfold Queries.count_status. simpl List.filter.
    induction sts as [|st sts IHs]; [contradiction|].
    apply List.NoDup_cons_iff in Hnd as [Hst Hnd]. simpl.
    destruct (String.eqb_spec (Db.status p) st) as [E|E].
    + assert (Hrest : List.map (fun st0 => List.length
                         (if String.eqb (Db.status p) st0
                          then p :: List.filter (fun q => String.eqb (Db.status q) st0) ps
                          else List.filter (fun q => String.eqb (Db.status q) st0) ps)) sts
                      = List.map (fun st0 => List.length
                          (List.filter (fun q => String.eqb (Db.status q) st0) ps)) sts).
      { apply List.map_ext_in. intros st0 Hin.
        destruct (String.eqb_spec (Db.status p) st0) as [E0|_]; [|reflexivity].
        exfalso. apply Hst. congruence. }
      rewrite Hrest. simpl. reflexivity.
    + destruct Hall as [Hall|Hall]; [congruence|].
      rewrite (IHs Hnd Hall). lia.
Qed.

(** X27: in the statistics of [get_stats], [by_status] has a key exactly
    for the statuses that occur, with the number of posts of that status, a
    status without a post having no key rather than a zero; and over any list
    of distinct statuses that covers the posts, the counts add up to
    [total_posts]. *)
Theorem get_stats_counts (d : Db.DB) :
  (forall st,
     Queries.by_status d !! st
     = if (Queries.count_status st (Db.posts d) =? 0)%nat then None
       else Some (Queries.count_status st (Db.posts d)))
  /\ (forall sts,
        List.NoDup sts ->
        (forall p, In p (Db.posts d) -> In (Db.status p) sts) ->
        list_sum (List.map (fun st => default 0%nat (Queries.by_status d !! st)) sts)
        = Queries.total_posts d).
Proof.
  assert (Hlookup : forall st,
            Queries.by_status d !! st
            = if (Queries.count_status st (Db.posts d) =? 0)%nat then None
              else Some (Queries.count_status st (Db.posts d))).
  { intros st. unfold Queries.by_status, Queries.status_groups.
    rewrite (fold_insert_lookup (fun st => Queries.count_status st (Db.posts d))).
    rewrite lookup_empty.
    destruct (Nat.eqb_spec (Queries.count_status st (Db.posts d)) 0) as [E|E].
    - apply count_status_zero in E.
      destruct (decide (st ∈ remove_dups (List.map Db.status (Db.posts d)))) as [H|_];
        [|reflexivity].
      exfalso. apply E. apply list_elem_of_In. now rewrite elem_of_remove_dups in H.
    - destruct (decide (st ∈ remove_dups (List.map Db.status (Db.posts d)))) as [_|H];
        [reflexivity|].
      exfalso. apply E. apply count_status_zero. intros Hin. apply H.
      rewrite elem_of_remove_dups. now apply list_elem_of_In. }
  split; [exact Hlookup|].
  intros sts Hnd Hall. unfold Queries.total_posts.
  rewrite <- (sum_counts sts (Db.posts d) Hnd Hall). f_equal.
  apply List.map_ext. intros st. rewrite Hlookup.
  destruct (Nat.eqb_spec (Queries.count_status st (Db.posts d)) 0) as [E|E];
    [now rewrite E|reflexivity].
Qed.

Lemma StronglySorted_app_parts {A} (R : A -> A -> Prop) (l1 l2 : list A) :
  StronglySorted R (l1 ++ l2) ->
  StronglySorted R l1 /\ (forall x y, In x l1 -> In y l2 -> R x y).
Proof.
  induction l1 as [|a l1 IH]; simpl; intros H.
  - split; [constructor|]. intros x y [].
  - inversion H as [|a' l' Hs Hall]; subst. destruct (IH Hs) as [Hs1 Hcross].
    split.
    + constructor; [exact Hs1|]. rewrite List.Forall_forall in *.
      intros x Hx. apply Hall. apply List.in_or_app. now left.
    + intros x y [<- | Hx] Hy; [|now apply Hcross].
      rewrite List.Forall_forall in Hall. apply Hall. apply List.in_or_app. now right.
Qed.

(** X28: [get_recent_posts] returns at most [limit] posts, or all of them
    when the limit is negative; each comes with exactly its own platform
    rows; they are ordered from the newest [created_at], compared as the
    stored text, and no post that is left out is newer than one that is
    returned. *)
Theorem get_recent_posts_newest_first (limit : Z) (d : Db.DB) :
  Z.of_nat (List.length (Queries.get_recent_posts limit d))
  = (if limit <? 0 then Z.of_nat (List.length (Db.posts d))
     else Z.min limit (Z.of_nat (List.length (Db.posts d))))
  /\ (forall p rows, In (p, rows) (Queries.get_recent_posts limit d) ->
        In p (Db.posts d) /\ rows = Db.get_platform_statuses (Db.post_id p) d)
  /\ StronglySorted
       (fun p q => String.leb (Db.created_at q) (Db.created_at p) = true)
       (List.map fst (Queries.get_recent_posts limit d))
  /\ (exists rest,
        List.map fst (Queries.get_recent_posts limit d) ++ rest ≡ₚ Db.posts d
        /\ forall p q, In p (List.map fst (Queries.get_recent_posts limit d)) ->
                       In q rest ->
                       String.leb (Db.created_at q) (Db.created_at p) = true).
Proof.
  assert (Htrans : Transitive Queries.created_ge).
  { intros p q r H1 H2. unfold Queries.created_ge in *.
    eapply string_leb_trans; eassumption. }
  assert (Htotal : Total Queries.created_ge).
  { intros p q. unfold Queries.created_ge.
    destruct (String.leb_total (Db.created_at p) (Db.created_at q)); auto. }
  pose proof (StronglySorted_merge_sort Queries.created_ge (Db.posts d)) as Hsorted.
  pose proof (merge_sort_Permutation Queries.created_ge (Db.posts d)) as Hperm.
  set (l := merge_sort Queries.created_ge (Db.posts d)) in *.
  assert (Hfst : List.map fst (Queries.get_recent_posts limit d)
                 = Queries.limit_rows limit l).
  { unfold Queries.get_recent_posts. fold l. rewrite List.map_map. simpl.
    apply List.map_id. }
  assert (Hparts : exists rest, Queries.limit_rows limit l ++ rest = l
                                /\ (0 <= limit -> List.length (Queries.limit_rows limit l)
                                                  = Nat.min (Z.to_nat limit) (List.length l))
                                /\ (limit < 0 -> rest = [])).
  { unfold Queries.limit_rows. destruct (Z.ltb_spec limit 0).
    - exists []. split; [apply app_nil_r|]. split; [lia|reflexivity].
    - exists (List.skipn (Z.to_nat limit) l). split; [apply List.firstn_skipn|].
      split; [intros _; apply List.length_firstn|lia]. }
  destruct Hparts as (rest & Happ & Hlen & Hneg).
  rewrite <- Happ in Hsorted. apply StronglySorted_app_parts in Hsorted as [Hs Hcross].
  rewrite Hfst. split; [|split; [|split]].
  - rewrite <- (List.length_map fst), Hfst.
    rewrite <- (Permutation.Permutation_length Hperm).
    destruct (Z.ltb_spec limit 0) as [Hlt|Hge].
    + rewrite <- Happ at 2. rewrite (Hneg Hlt), app_nil_r. reflexivity.
    + rewrite (Hlen Hge). lia.
  - intros p rows Hin. unfold Queries.get_recent_posts in Hin. fold l in Hin.
    apply List.in_map_iff in Hin as (p0 & [= <- <-] & Hin).
    split; [|reflexivity].
    apply list_elem_of_In. rewrite <- Hperm, <- Happ. apply list_elem_of_In.
    apply List.in_or_app. now left.
  - exact Hs.
  - exists rest. split; [now rewrite Happ|]. intros p q Hp Hq. now apply Hcross.
Qed.

(** ** Starting the service *)

(** X29: [run_service] ends the process over the problems that [validate]
    reports exactly when the Telegram token or the chat id is empty or no
    platform is enabled. The default webhook secret and an empty list of
    posting times are reported by [validate] but do not stop the start; and
    [validate] reports nothing exactly when none of the five holds. *)
Theorem service_start_conditions (token chat secret : string)
    (enabled times : list string) :
  (Startup.refuses_to_start (Startup.validate token chat secret enabled times) = true <->
   token = "" \/ chat = "" \/ enabled = [])
  /\ (Startup.validate token chat secret enabled times = [] <->
      token <> "" /\ chat <> "" /\ secret <> "change-me-please"
      /\ enabled <> [] /\ times <> []).
Proof.
  unfold Startup.validate.
  destruct (String.eqb_spec secret "change-me-please") as [Hs|Hs];
    destruct token as [|c1 token], chat as [|c2 chat], enabled as [|e enabled],
      times as [|t times];
    (split; [vm_compute|simpl]); intuition (try discriminate; try congruence).
Qed.

(** ** The adapter of Twitter *)

(** What the two methods of the adapter of Twitter return. *)
Lemma twitter_invoke_results (dry_run : bool) (api : Platforms.TwitterApi)
    (text : string) (image_path : option string) (link : string) :
  exists r,
    Platforms.invoke (Platforms.TwitterPlatform dry_run api) text image_path link = Ret r
    /\ Platforms.platform r = "twitter"
    /\ (dry_run = true -> r = Platforms.twitter_dry_run)
    /\ (dry_run = false -> Platforms.success r = true ->
        exists tweet_id,
          Platforms.platform_post_id r = Some tweet_id
          /\ Platforms.platform_url r = Some ("https://twitter.com/i/status/" +:+ tweet_id))
    /\ (Platforms.success r = false -> Platforms.error_message r <> None)
    /\ (dry_run = false -> Py.truthy_opt image_path = false ->
        (Platforms.success r = true <->
         exists tweet_id,
           Platforms.create_tweet api (Platforms._truncate text link 280) []
           = Ret (Some tweet_id))).
Proof.
  assert (Hresp : forall o, exists r,
             Platforms.twitter_response o = Ret r
             /\ Platforms.platform r = "twitter"
             /\ (Platforms.success r = true ->
                 exists tweet_id,
                   Platforms.platform_post_id r = Some tweet_id
                   /\ Platforms.platform_url r
                      = Some ("https://twitter.com/i/status/" +:+ tweet_id))
             /\ (Platforms.success r = false -> Platforms.error_message r <> None)
             /\ (Platforms.success r = true <-> exists tweet_id, o = Ret (Some tweet_id))).
  { intros [[tweet_id|]|e]; eexists; (split; [reflexivity|]); simpl;
      (split; [reflexivity|]); (split; [|split]);
      try discriminate; eauto;
      split; try discriminate; eauto; intros [x [=]]. }
  assert (Htext : exists r,
            Platforms.post_text (Platforms.TwitterPlatform dry_run api) text link = Ret r
            /\ Platforms.platform r = "twitter"
            /\ (dry_run = true -> r = Platforms.twitter_dry_run)
            /\ (dry_run = false -> Platforms.success r = true ->
                exists tweet_id,
                  Platforms.platform_post_id r = Some tweet_id
                  /\ Platforms.platform_url r
                     = Some ("https://twitter.com/i/status/" +:+ tweet_id))
            /\ (Platforms.success r = false -> Platforms.error_message r <> None)
            /\ (dry_run = false ->
                (Platforms.success r = true <->
                 exists tweet_id,
                   Platforms.create_tweet api (Platforms._truncate text link 280) []
                   = Ret (Some tweet_id)))).
  { simpl. destruct dry_run.
    - eexists. split; [reflexivity|]. repeat split; try discriminate.
    - destruct (Hresp (Platforms.create_tweet api (Platforms._truncate text link 280) []))
        as (r & Hr & Hp & Hs & Hf & Hiff).
      exists r. split; [exact Hr|]. split; [exact Hp|]. split; [discriminate|].
      split; [intros _; exact Hs|]. split; [exact Hf|]. intros _. exact Hiff. }
  assert (Himage : forall path, exists r,
            Platforms.post_image (Platforms.TwitterPlatform dry_run api) text path link
            = Ret r
            /\ Platforms.platform r = "twitter"
            /\ (dry_run = true -> r = Platforms.twitter_dry_run)
            /\ (dry_run = false -> Platforms.success r = true ->
                exists tweet_id,
                  Platforms.platform_post_id r = Some tweet_id
                  /\ Platforms.platform_url r
                     = Some ("https://twitter.com/i/status/" +:+ tweet_id))
            /\ (Platforms.success r = false -> Platforms.error_message r <> None)).
  { intros path. simpl. destruct dry_run.
    - eexists. split; [reflexivity|]. repeat split; try discriminate.
    - destruct (Platforms.media_upload api path) as [media_id|e].
      + destruct (Hresp (Platforms.create_tweet api (Platforms._truncate text link 280)
                           [media_id])) as (r & Hr & Hp & Hs & Hf & _).
        exists r. split; [exact Hr|]. split; [exact Hp|]. split; [discriminate|].
        split; [intros _; exact Hs|exact Hf].
      + eexists. split; [reflexivity|]. repeat split; try discriminate. }
  unfold Platforms.invoke.
  destruct image_path as [[|c path]|]; simpl Py.truthy; cbv iota.
  - destruct Htext as (r & H1 & H2 & H3 & H4 & H5 & H6). exists r. auto 10.
  - destruct (Himage (String c path)) as (r & H1 & H2 & H3 & H4 & H5). exists r.
    repeat split; auto; discriminate.
  - destruct Htext as (r & H1 & H2 & H3 & H4 & H5 & H6). exists r. auto 10.
Qed.

(** X30: the result of posting through the adapter of Twitter always names
    the platform twitter. In a dry run it is a success with the id [dry_run],
    whatever the client would do. Otherwise a success carries the id of the
    tweet and its URL, and a failure carries an error text; a call without
    an image succeeds exactly when [create_tweet], given the text cut by
    [_truncate], returns data. *)
Theorem twitter_adapter_results (dry_run : bool) (api : Platforms.TwitterApi)
    (text : string) (image_path : option string) (link : string) :
  Platforms.platform
    (Platforms.post (Platforms.TwitterPlatform dry_run api) text image_path link)
  = "twitter"
  /\ (dry_run = true ->
      Platforms.post (Platforms.TwitterPlatform dry_run api) text image_path link
      = Platforms.twitter_dry_run)
  /\ (dry_run = false ->
      Platforms.success
        (Platforms.post (Platforms.TwitterPlatform dry_run api) text image_path link)
      = true ->
      exists tweet_id,
        Platforms.platform_post_id
          (Platforms.post (Platforms.TwitterPlatform dry_run api) text image_path link)
        = Some tweet_id
        /\ Platforms.platform_url
             (Platforms.post (Platforms.TwitterPlatform dry_run api) text image_path link)
           = Some ("https://twitter.com/i/status/" +:+ tweet_id))
  /\ (Platforms.success
        (Platforms.post (Platforms.TwitterPlatform dry_run api) text image_path link)
      = false ->
      Platforms.error_message
        (Platforms.post (Platforms.TwitterPlatform dry_run api) text image_path link)
      <> None)
  /\ (dry_run = false -> Py.truthy_opt image_path = false ->
      (Platforms.success
         (Platforms.post (Platforms.TwitterPlatform dry_run api) text image_path link)
       = true <->
       exists tweet_id,
         Platforms.create_tweet api (Platforms._truncate text link 280) []
         = Ret (Some tweet_id))).
Proof.
  destruct (twitter_invoke_results dry_run api text image_path link)
    as (r & Hinv & H1 & H2 & H3 & H4 & H5).
  unfold Platforms.post. rewrite Hinv. auto 10.
Qed.
